(** * Energy Bodies: the pose-to-signal pipeline and the session averager

    A shallow embedding of [js/sketch.js] (and of the averaging classes that
    [eb-init.js] repeats verbatim).

    Numbers.  A JavaScript number is a binary64 float.  The embedding works in
    the exact fragment: a finite number is a rational [Q], arithmetic is
    exact, and two results are compared with [==] ([Qeq]).  The three
    non-finite floats are separate constructors of [num]; they only occur
    where the source tests for them ([Number.isFinite] in the averager).
    Pipeline functions return [option]: [None] stands for a call that throws,
    reads a coordinate of a part the pose does not have, or divides by zero.
    The source goes on from there with [NaN] or [Infinity] (an [Infinity] can
    even be clamped back to a finite number); the finite model does not
    follow it, so a statement about a run that returns [Some] is a statement
    about the runs on which no tick does any of this.  The last section of
    the definitions gives the arithmetic on [num] and, for the structure
    estimate and the sampler, what the source computes beyond the finite
    numbers.

    Besides the pipeline the file covers the page around it: the sampler
    and the throttled calls on the display ([emitPoseToControl],
    [emitPoseMetrics], [maybeEchoState]), the print flow
    ([onPrintAverageThenSnapshot]), the layout arithmetic of [draw] with the
    outline of [drawBodyShape], and the session entry points of
    [js/eb-init.js]. *)

From Stdlib Require Import QArith Qminmax Qabs Qround Qpower Lqa Lia ZArith.
From stdpp Require Import gmap strings list fin_maps.

Open Scope Q_scope.

(** ** JavaScript numbers *)

(** A value [Number.isFinite] is asked about: a finite number or one of the
    three non-finite floats (a value that is no number at all is treated by
    [Number.isFinite] as [NaN] is). *)
Inductive num : Type :=
| Fin (q : Q)
| NaN
| PosInf
| NegInf.

(** [Number.isFinite(x)] *)
Definition isFinite (x : num) : bool :=
  match x with Fin _ => true | _ => false end.

(** [v ?? 0] for a property that may be [undefined] or [null] *)
Definition nullish0 (v : option num) : num :=
  match v with Some x => x | None => Fin 0 end.

(** The counter [n] of an accumulator, as the number it divides by. *)
Definition Qnat (n : nat) : Q := inject_Z (Z.of_nat n).

(** ** 2) Averaging classes *)

Module OnlineMean.

Record t : Type := mk { mean : Q; n : nat }.

(** [constructor() { this.mean = 0; this.n = 0; }] *)
Definition new : t := {| mean := 0; n := 0 |}.

(** [add(x)]: a non-finite [x] returns before the counter moves. *)
Definition add (x : num) (a : t) : t :=
  match x with
  | Fin q =>
      let n' := S (n a) in
      {| mean := mean a + (q - mean a) / Qnat n'; n := n' |}
  | _ => a
  end.

End OnlineMean.

Module OnlineMeanArray.

Record t : Type := mk { means : list Q; n : nat }.

(** [constructor(len = 0)]: [new Array(len).fill(0)] *)
Definition new (len : nat) : t := {| means := replicate len 0; n := 0 |}.

(** One iteration of the loop body at index [i]:
    [const x = arr[i]; if (!Number.isFinite(x)) continue;
     this.means[i] += (x - this.means[i]) / this.n;] *)
Definition step (cnt : nat) (arr : list num) (ms : list Q) (i : nat) : list Q :=
  match arr !! i with
  | Some (Fin q) =>
      match ms !! i with
      | Some m => <[i := m + (q - m) / Qnat cnt]> ms
      | None => ms
      end
  | _ => ms
  end.

(** [add(arr)].  [None] is a falsy argument ([!arr]); an empty array is
    dropped by [!arr.length].  When the lengths differ the means are replaced
    by zeros of the new length; the counter [n] is not touched by that
    branch and is incremented once for the whole array. *)
Definition add (arr : option (list num)) (a : t) : t :=
  match arr with
  | None => a
  | Some xs =>
      if (length xs =? 0)%nat then a
      else
        let ms := if (length (means a) =? length xs)%nat
                  then means a else replicate (length xs) 0 in
        let n' := S (n a) in
        {| means := foldl (step n' xs) ms (seq 0 (length xs)); n := n' |}
  end.

End OnlineMeanArray.

(** The object passed to [SessionAverager.add]; every property may be
    missing. *)
Record Sample : Type := mkSample {
  s_structure : option num;
  s_balance : option num;
  s_posture : option num;
  s_velocity : option num;
  s_emotions : option (gmap string num);
  s_regionWidths : option (list num);
  s_segmentProfile : option (list num)
}.

(** The object returned by [SessionAverager.end]. *)
Record Snapshot : Type := mkSnapshot {
  out_durationMs : Q;
  out_samples : nat;
  out_structure : Q;
  out_balance : Q;
  out_posture : Q;
  out_velocity : Q;
  out_emotions : gmap string Q;
  out_regionWidths : list Q;
  out_segmentProfile : list Q
}.

Definition emotionNames : list string :=
  ["anxiety"; "sadness"; "joy"; "anger"; "fear"; "calm"]%string.

Definition regionNames : list string :=
  ["head"; "neck"; "armsHands"; "chest"; "abdomen"; "legsFeet"]%string.

Module SessionAverager.

Record t : Type := mk {
  active : bool;
  startTs : Q;
  lastTs : Q;
  samples : nat;
  structure : OnlineMean.t;
  balance : OnlineMean.t;
  posture : OnlineMean.t;
  velocity : OnlineMean.t;
  emotions : gmap string OnlineMean.t;
  regionWidths : OnlineMeanArray.t;
  segmentProfile : OnlineMeanArray.t
}.

(** [reset()]; also the state the constructor leaves. *)
Definition reset : t :=
  {| active := false; startTs := 0; lastTs := 0; samples := 0;
     structure := OnlineMean.new; balance := OnlineMean.new;
     posture := OnlineMean.new; velocity := OnlineMean.new;
     emotions := list_to_map (map (fun k => (k, OnlineMean.new)) emotionNames);
     regionWidths := OnlineMeanArray.new 6;
     segmentProfile := OnlineMeanArray.new 3 |}.

(** [begin()], [now] being [performance.now()]. *)
Definition begin (now : Q) : t :=
  let r := reset in
  {| active := true; startTs := now; lastTs := now; samples := samples r;
     structure := structure r; balance := balance r;
     posture := posture r; velocity := velocity r;
     emotions := emotions r;
     regionWidths := regionWidths r;
     segmentProfile := segmentProfile r |}.

(** [for (const k in this.emotions)
      this.emotions[k].add(sample.emotions[k] ?? 0);] *)
Definition addEmotions (se : gmap string num)
    (es : gmap string OnlineMean.t) : gmap string OnlineMean.t :=
  map_imap (fun k a => Some (OnlineMean.add (nullish0 (se !! k)) a)) es.

(** [add(sample)], [now] being [performance.now()]. *)
Definition add (now : Q) (sample : Sample) (s : t) : t :=
  if negb (active s) then s
  else
    {| active := active s; startTs := startTs s; lastTs := now;
       structure := OnlineMean.add (nullish0 (s_structure sample)) (structure s);
       balance := OnlineMean.add (nullish0 (s_balance sample)) (balance s);
       posture := OnlineMean.add (nullish0 (s_posture sample)) (posture s);
       velocity := OnlineMean.add (nullish0 (s_velocity sample)) (velocity s);
       emotions :=
         match s_emotions sample with
         | Some se => addEmotions se (emotions s)
         | None => emotions s
         end;
       regionWidths :=
         match s_regionWidths sample with
         | Some xs => OnlineMeanArray.add (Some xs) (regionWidths s)
         | None => regionWidths s
         end;
       segmentProfile :=
         match s_segmentProfile sample with
         | Some xs => OnlineMeanArray.add (Some xs) (segmentProfile s)
         | None => segmentProfile s
         end;
       samples := S (samples s) |}.

(** [end()]: the snapshot, and the accumulator with [active] cleared. *)
Definition end_ (now : Q) (s : t) : Snapshot * t :=
  ({| out_durationMs := now - startTs s;
      out_samples := samples s;
      out_structure := OnlineMean.mean (structure s);
      out_balance := OnlineMean.mean (balance s);
      out_posture := OnlineMean.mean (posture s);
      out_velocity := OnlineMean.mean (velocity s);
      out_emotions := OnlineMean.mean <$> emotions s;
      out_regionWidths := OnlineMeanArray.means (regionWidths s);
      out_segmentProfile := OnlineMeanArray.means (segmentProfile s) |},
   {| active := false; startTs := startTs s; lastTs := lastTs s;
      samples := samples s;
      structure := structure s; balance := balance s;
      posture := posture s; velocity := velocity s;
      emotions := emotions s;
      regionWidths := regionWidths s;
      segmentProfile := segmentProfile s |}).

End SessionAverager.

(** ** Library functions the sketch calls *)

(** [a < b] and [a > b] on finite numbers, as the tests the source runs. *)
Definition Qlt_bool (a b : Q) : bool := negb (Qle_bool b a).
Definition Qgt_bool (a b : Q) : bool := Qlt_bool b a.

(** [a || d] on a number: [d] when [a] is zero. *)
Definition orElse (a d : Q) : Q := if Qeq_bool a 0 then d else a.

(** [a / b] where the source does not guard the divisor: a zero divisor
    gives [Infinity] or [NaN] in JavaScript, with which the source goes on;
    the finite model has no value there ([ndiv] below is the division of
    the source). *)
Definition fdiv (a b : Q) : option Q :=
  if Qeq_bool b 0 then None else Some (a / b).

(** The part of [Math] the sketch uses.  [Math.hypot] and [Math.atan2] are
    not rational functions, so they are an interface; the only law any proof
    below relies on is that the hypotenuse of a zero displacement is zero. *)
Class JSMath : Type := {
  hypot : Q -> Q -> Q;
  atan2 : Q -> Q -> Q;
  PI : Q;
  hypot_zero : forall a b, a == 0 -> b == 0 -> hypot a b == 0
}.

(** p5.js: [lerp(start, stop, amt)] is [amt * (stop - start) + start]. *)
Definition lerp (start stop amt : Q) : Q := amt * (stop - start) + start.

(** p5.js: [constrain(n, low, high)] is [Math.max(Math.min(n, high), low)]. *)
Definition constrain (n low high : Q) : Q := Qmax (Qmin n high) low.

(** p5.js: [map(n, start1, stop1, start2, stop2)] is
    [(n - start1) / (stop1 - start1) * (stop2 - start2) + start2]. *)
Definition p5map (n start1 stop1 start2 stop2 : Q) : option Q :=
  r ← fdiv (n - start1) (stop1 - start1);
  Some (r * (stop2 - start2) + start2).

(** [clamp01(x)]: [Math.max(0, Math.min(1, x))] *)
Definition clamp01 (x : Q) : Q := Qmax 0 (Qmin 1 x).

(** p5.js: [dist(x1, y1, x2, y2)] is [hypot(x2 - x1, y2 - y1)]. *)
Definition dist {M : JSMath} (x1 y1 x2 y2 : Q) : Q := hypot (x2 - x1) (y2 - y1).

(** ** 0) Master tuning constants *)

Module TUNE.
Module velocity.
Definition kpMinScore : Q := 0.5.
Definition vNormInMin : Q := 0.015.
Definition vNormInMax : Q := 0.2.
Definition vBlend : Q := 0.125.
Definition fastEMA : Q := 0.8.
Definition slowEMA : Q := 0.01.
Definition angerBurstMin : Q := 0.02.
Definition angerBurstMax : Q := 1.
End velocity.

(** [{ inMin, inMax, outMin, outMax }] *)
Record range : Type := mkRange { inMin : Q; inMax : Q; outMin : Q; outMax : Q }.

Module emotions.
Definition blendPoseVsSlider : Q := 0.30.
Definition anxietyFromVel : range := mkRange 0.3 1.5 0 5.
Definition calmFromBalance : range := mkRange 0.2 50 5 0.
(** [sadnessFromAvgY.inMax] starts as [null]; it is the field
    [sadnessInMax] of the state below. *)
Definition sadnessFromAvgY_inMin : Q := 0.
Definition sadnessFromAvgY_outMin : Q := 0.
Definition sadnessFromAvgY_outMax : Q := 5.
Definition fearFromLean : range := mkRange 0 100 0 5.
Definition joyFromStructure : range := mkRange 0.25 1.0 0 5.
End emotions.

Module follow.
Definition enabledFreshMs : Q := 300.
Definition lerp_tx : Q := 0.20.
Definition lerp_ty : Q := 0.20.
Definition lerp_rot : Q := 0.18.
Definition lerp_sc : Q := 0.12.
End follow.

Module coupling.
Module armsHands.
Definition wristSpreadMin : Q := 2.
Definition wristSpreadMax : Q := 5.0.
Definition lerp : Q := 0.12.
End armsHands.
Module spine.
Definition swayRange : Q := 1.0.
Definition lerp : Q := 0.20.
End spine.
Module head.
Definition velMin : Q := 0.035.
Definition velMax : Q := 0.05.
Definition lerp : Q := 0.10.
End head.
Module neck.
Definition velMin : Q := 0.0005.
Definition velMax : Q := 0.015.
Definition lerp : Q := 0.18.
End neck.
Module chest.
Definition velMin : Q := 0.00005.
Definition velMax : Q := 0.010.
Definition reachMin : Q := 0.7.
Definition reachMax : Q := 2.0.
Definition lerp : Q := 0.20.
End chest.
Module abdomen.
Definition velMin : Q := 0.025.
Definition velMax : Q := 0.0325.
Definition torsoMin : Q := 1.20.
Definition torsoMax : Q := 1.40.
Definition lerp : Q := 0.10.
End abdomen.
Module legsFeet.
Definition velMin : Q := 0.0001.
Definition velMax : Q := 0.012.
Definition ankleSpreadMin : Q := 0.9.
Definition ankleSpreadMax : Q := 3.0.
Definition lerp : Q := 0.20.
End legsFeet.
End coupling.
End TUNE.

(** ** 1) Runtime state and constants *)

Module Point.
Record t : Type := mk { x : Q; y : Q }.
End Point.

(** One entry of [pose.keypoints]. *)
Record Keypoint : Type := mkKeypoint {
  part : string;
  position : Point.t;
  score : Q
}.

(** The [pose] object the detector delivers: the keypoint array and the
    named parts the sketch reads as properties ([pose.leftShoulder], ...),
    each of which may be [undefined]. *)
Record Pose : Type := mkPose {
  keypoints : list Keypoint;
  leftShoulder : option Point.t;
  rightShoulder : option Point.t;
  leftWrist : option Point.t;
  rightWrist : option Point.t;
  leftHip : option Point.t;
  rightHip : option Point.t
}.

Module regionKeypoints.
Definition head : list string :=
  ["nose"; "leftEye"; "rightEye"; "leftEar"; "rightEar"]%string.
Definition neck : list string := ["leftShoulder"; "rightShoulder"]%string.
Definition chest : list string :=
  ["leftShoulder"; "rightShoulder"; "leftElbow"; "rightElbow";
   "leftWrist"; "rightWrist"]%string.
Definition armsHands : list string :=
  ["leftWrist"; "rightWrist"; "leftElbow"; "rightElbow"]%string.
Definition abdomen : list string := ["leftHip"; "rightHip"]%string.
Definition legsFeet : list string :=
  ["leftKnee"; "rightKnee"; "leftAnkle"; "rightAnkle"]%string.
End regionKeypoints.

(** What a call reads from the page: the capture size, the canvas height,
    [regionMaxWidths.spine] as [draw] last set it, and [millis()]. *)
Record Env : Type := mkEnv {
  videoWidth : Q;
  videoHeight : Q;
  height : Q;
  regionMaxWidths_spine : Q;
  millis : Q
}.

(** [movementVelocity], [fastVel], [slowVel] and the four smoothed
    geometry signals. *)
Record Metrics : Type := mkMetrics {
  movementVelocity : Q;
  fastVel : Q;
  slowVel : Q;
  smoothedStructure : Q;
  smoothedBalance : Q;
  smoothedPostureLean : Q;
  smoothedAvgY : Q
}.

(** [followPose], [poseTx], [poseTy], [poseRot], [poseSc], [_poseSeenAt] *)
Record Follow : Type := mkFollow {
  followPose : bool;
  poseTx : Q;
  poseTy : Q;
  poseRot : Q;
  poseSc : Q;
  poseSeenAt : Q
}.

(** The module-level variables of the sketch that the pipeline reads and
    writes.  A slider object is the number its closure holds; the key is
    present when the slider object exists. *)
Record State : Type := mkState {
  trackingStarted : bool;
  prevKeypoints : option (list (string * Point.t));
  prevByPart : gmap string Point.t;
  metrics : Metrics;
  follow : Follow;
  emotionSliders : gmap string Q;
  regionSliders : gmap string Q;
  sadnessInMax : option Q;
  blockIncomingUntil : Q
}.

Definition set_trackingStarted (b : bool) (s : State) : State :=
  mkState b (prevKeypoints s) (prevByPart s) (metrics s) (follow s)
    (emotionSliders s) (regionSliders s) (sadnessInMax s) (blockIncomingUntil s).
Definition set_prevKeypoints (v : option (list (string * Point.t))) (s : State) : State :=
  mkState (trackingStarted s) v (prevByPart s) (metrics s) (follow s)
    (emotionSliders s) (regionSliders s) (sadnessInMax s) (blockIncomingUntil s).
Definition set_prevByPart (v : gmap string Point.t) (s : State) : State :=
  mkState (trackingStarted s) (prevKeypoints s) v (metrics s) (follow s)
    (emotionSliders s) (regionSliders s) (sadnessInMax s) (blockIncomingUntil s).
Definition set_metrics (v : Metrics) (s : State) : State :=
  mkState (trackingStarted s) (prevKeypoints s) (prevByPart s) v (follow s)
    (emotionSliders s) (regionSliders s) (sadnessInMax s) (blockIncomingUntil s).
Definition set_follow (v : Follow) (s : State) : State :=
  mkState (trackingStarted s) (prevKeypoints s) (prevByPart s) (metrics s) v
    (emotionSliders s) (regionSliders s) (sadnessInMax s) (blockIncomingUntil s).
Definition set_emotionSliders (v : gmap string Q) (s : State) : State :=
  mkState (trackingStarted s) (prevKeypoints s) (prevByPart s) (metrics s) (follow s)
    v (regionSliders s) (sadnessInMax s) (blockIncomingUntil s).
Definition set_regionSliders (v : gmap string Q) (s : State) : State :=
  mkState (trackingStarted s) (prevKeypoints s) (prevByPart s) (metrics s) (follow s)
    (emotionSliders s) v (sadnessInMax s) (blockIncomingUntil s).
Definition set_sadnessInMax (v : option Q) (s : State) : State :=
  mkState (trackingStarted s) (prevKeypoints s) (prevByPart s) (metrics s) (follow s)
    (emotionSliders s) (regionSliders s) v (blockIncomingUntil s).
Definition set_blockIncomingUntil (v : Q) (s : State) : State :=
  mkState (trackingStarted s) (prevKeypoints s) (prevByPart s) (metrics s) (follow s)
    (emotionSliders s) (regionSliders s) (sadnessInMax s) v.

(** The state [setup] leaves: every slider closure holds 0, the caches are
    empty, and the session-independent variables have their initial values. *)
Definition zeroSliders (names : list string) : gmap string Q :=
  list_to_map (map (fun k => (k, 0)) names).

Definition setup : State :=
  {| trackingStarted := false;
     prevKeypoints := None;
     prevByPart := ∅;
     metrics := mkMetrics 0 0 0 0 0 0 0;
     follow := mkFollow false 0 0 0 1 0;
     emotionSliders := zeroSliders emotionNames;
     regionSliders := zeroSliders (regionNames ++ ["spine"%string]);
     sadnessInMax := None;
     blockIncomingUntil := 0 |}.

Section Pipeline.
Context {M : JSMath}.

(** [Math.hypot(video?.width || 640, video?.height || 480) || 1] *)
Definition diag (env : Env) : Q :=
  orElse (hypot (orElse (videoWidth env) 640) (orElse (videoHeight env) 480)) 1.

(** [k.score > TUNE.velocity.kpMinScore] *)
Definition confident (k : Keypoint) : bool :=
  Qgt_bool (score k) TUNE.velocity.kpMinScore.

(** ** 6) Pose to emotion factors *)

(** The body of [for (const k of kp)] in [updatePoseFactors]:
    [__prevKeypoints.find(p => p.part === k.part)], then the displacement
    over the diagonal is added to [sum] and [n] is incremented. *)
Definition velStep (prev : list (string * Point.t)) (d : Q)
    (acc : Q * nat) (k : Keypoint) : Q * nat :=
  match List.find (fun p => String.eqb (fst p) (part k)) prev with
  | None => acc
  | Some p =>
      let dx := (Point.x (position k) - Point.x (snd p)) / d in
      let dy := (Point.y (position k) - Point.y (snd p)) / d in
      (fst acc + hypot dx dy, S (snd acc))
  end.

(** [velAvg]: the raw global velocity of a tick whose filtered keypoints
    are [kp]. *)
Definition velAvg (env : Env) (prev : option (list (string * Point.t)))
    (kp : list Keypoint) : Q :=
  match prev with
  | None => 0
  | Some pk =>
      let '(sum, n) := foldl (velStep pk (diag env)) (0, 0%nat) kp in
      if (0 <? n)%nat then sum / Qnat n else 0
  end.

(** [emotionSliders[k].value(blend(p, emotionSliders[k].value()))] with
    [blend = (p, s) => lerp(s, p, BL)]; a missing slider object throws. *)
Definition blendSlider (k : string) (p : Q) (m : gmap string Q)
  : option (gmap string Q) :=
  cur ← m !! k;
  Some (<[k := lerp cur p TUNE.emotions.blendPoseVsSlider]> m).

(** [constrain(map(v, r.inMin, r.inMax, r.outMin, r.outMax), 0, 5)] *)
Definition mapRange (v : Q) (r : TUNE.range) : option Q :=
  m ← p5map v (TUNE.inMin r) (TUNE.inMax r) (TUNE.outMin r) (TUNE.outMax r);
  Some (constrain m 0 5).

(** [structure] of the tick, within the finite numbers: no value for a
    shoulder span of zero, where the source computes [clamp01(Infinity)] or
    [NaN] ([structureJS] below). *)
Definition structureOf (pose : Pose) : option Q :=
  match leftShoulder pose, rightShoulder pose, leftWrist pose, rightWrist pose with
  | Some Ls, Some Rs, Some Lw, Some Rw =>
      let span := dist (Point.x Ls) (Point.y Ls) (Point.x Rs) (Point.y Rs) in
      lw ← fdiv (dist (Point.x Ls) (Point.y Ls) (Point.x Lw) (Point.y Lw)) span;
      rw ← fdiv (dist (Point.x Rs) (Point.y Rs) (Point.x Rw) (Point.y Rw)) span;
      m ← p5map ((lw + rw) * 0.5) 0.7 2.0 0 1;
      Some (clamp01 m)
  | _, _, _, _ => Some 0
  end.

(** [shoulderDiff + hipDiff]; a missing part makes [Ls?.y - Rs?.y] a [NaN],
    which the source stores in [smoothedBalance] and maps to the calm
    slider; the finite model has no value there. *)
Definition balanceOf (pose : Pose) : option Q :=
  Ls ← leftShoulder pose; Rs ← rightShoulder pose;
  Lh ← leftHip pose; Rh ← rightHip pose;
  Some (Qabs (Point.y Ls - Point.y Rs) + Qabs (Point.y Lh - Point.y Rh)).

(** [lean] of the tick. *)
Definition leanOf (pose : Pose) : option Q :=
  match leftShoulder pose, rightShoulder pose, leftHip pose, rightHip pose with
  | Some Ls, Some Rs, Some Lh, Some Rh =>
      let sx := (Point.x Ls + Point.x Rs) / 2 in
      let sy := (Point.y Ls + Point.y Rs) / 2 in
      let hx := (Point.x Lh + Point.x Rh) / 2 in
      let hy := (Point.y Lh + Point.y Rh) / 2 in
      let ang := atan2 (hy - sy) (hx - sx) in
      m ← p5map (Qabs ang) 0.0 (PI / 6) 0 1;
      Some (clamp01 m)
  | _, _, _, _ => Some 0
  end.

(** [(pose.leftShoulder.y + pose.rightShoulder.y) / 2]; reading [.y] of a
    missing part throws. *)
Definition avgYOf (pose : Pose) : option Q :=
  Ls ← leftShoulder pose; Rs ← rightShoulder pose;
  Some ((Point.y Ls + Point.y Rs) / 2).

(** [updatePoseFactors(pose)] *)
Definition updatePoseFactors (env : Env) (pose : Pose) (s : State) : option State :=
  let kp := List.filter confident (keypoints pose) in
  if (length kp =? 0)%nat then Some s
  else
    let velAvg := velAvg env (prevKeypoints s) kp in
    let prevKeypoints' := Some (map (fun k => (part k, position k)) kp) in
    let m0 := metrics s in
    vn ← p5map velAvg TUNE.velocity.vNormInMin TUNE.velocity.vNormInMax 0 1;
    let vNorm := clamp01 vn in
    let movementVelocity' := lerp (movementVelocity m0) vNorm TUNE.velocity.vBlend in
    let fastVel' := lerp (fastVel m0) vNorm TUNE.velocity.fastEMA in
    let slowVel' := lerp (slowVel m0) vNorm TUNE.velocity.slowEMA in
    let burst := Qmax 0 (fastVel' - slowVel') in
    bn ← p5map burst TUNE.velocity.angerBurstMin TUNE.velocity.angerBurstMax 0 1;
    let poseAnger := clamp01 bn * 5 in
    structure ← structureOf pose;
    let smoothedStructure' := lerp (smoothedStructure m0) structure 0.15 in
    bal ← balanceOf pose;
    let smoothedBalance' := lerp (smoothedBalance m0) bal 0.15 in
    lean ← leanOf pose;
    let smoothedPostureLean' := lerp (smoothedPostureLean m0) lean 0.15 in
    avgY ← avgYOf pose;
    let smoothedAvgY' := lerp (smoothedAvgY m0) avgY 0.1 in
    let inMax := match sadnessInMax s with None => height env | Some v => v end in
    poseAnxiety ← mapRange movementVelocity' TUNE.emotions.anxietyFromVel;
    poseCalm ← mapRange smoothedBalance' TUNE.emotions.calmFromBalance;
    poseSadness ← mapRange smoothedAvgY'
      (TUNE.mkRange TUNE.emotions.sadnessFromAvgY_inMin inMax
         TUNE.emotions.sadnessFromAvgY_outMin TUNE.emotions.sadnessFromAvgY_outMax);
    poseFear ← mapRange smoothedPostureLean' TUNE.emotions.fearFromLean;
    poseJoy ← mapRange smoothedStructure' TUNE.emotions.joyFromStructure;
    e1 ← blendSlider "anxiety" poseAnxiety (emotionSliders s);
    e2 ← blendSlider "calm" poseCalm e1;
    e3 ← blendSlider "sadness" poseSadness e2;
    e4 ← blendSlider "fear" poseFear e3;
    e5 ← blendSlider "joy" poseJoy e4;
    e6 ← blendSlider "anger" poseAnger e5;
    Some (set_emotionSliders e6
           (set_sadnessInMax (Some inMax)
             (set_metrics
                (mkMetrics movementVelocity' fastVel' slowVel' smoothedStructure'
                   smoothedBalance' smoothedPostureLean' smoothedAvgY')
                (set_prevKeypoints prevKeypoints' s)))).

(** ** 7) Region coupling *)

(** [pose.keypoints.find(p => p.part === name && p.score > kpMinScore)] *)
Definition findPart (pose : Pose) (name : string) : option Keypoint :=
  List.find (fun p => String.eqb (part p) name && confident p) (keypoints pose).

(** The body of [for (const name of parts)] in [regionVelocity]: the part is
    looked up, its displacement from the cached position (if there is one)
    is added, and the cache entry is overwritten with the current position. *)
Definition regionStep (d : Q) (pose : Pose)
    (acc : Q * nat * gmap string Point.t) (name : string)
  : Q * nat * gmap string Point.t :=
  let '(sum, n, cache) := acc in
  match findPart pose name with
  | None => acc
  | Some k =>
      let cache' := <[name := Point.mk (Point.x (position k)) (Point.y (position k))]> cache in
      match cache !! name with
      | Some prev =>
          let dx := (Point.x (position k) - Point.x prev) / d in
          let dy := (Point.y (position k) - Point.y prev) / d in
          (sum + hypot dx dy, S n, cache')
      | None => (sum, n, cache')
      end
  end.

(** [regionVelocity(pose, parts)]: the value returned and [__prevByPart]
    after the call. *)
Definition regionVelocity (env : Env) (pose : Pose) (parts : list string)
    (cache : gmap string Point.t) : Q * gmap string Point.t :=
  let '(sum, n, cache') := foldl (regionStep (diag env) pose) (0, 0%nat, cache) parts in
  (if (0 <? n)%nat then sum / Qnat n else 0, cache').

(** [get(part)] of [coupleRegionsToPose] *)
Definition get (pose : Pose) (name : string) : option Point.t :=
  position <$> findPart pose name.

(** [regionSliders[r].value(lerp(regionSliders[r].value(), val, t))] *)
Definition lerpSlider (r : string) (val t : Q) (m : gmap string Q)
  : option (gmap string Q) :=
  cur ← m !! r;
  Some (<[r := lerp cur val t]> m).

(** [constrain(map(v, lo, hi, 0, 5), 0, 5)] *)
Definition to05 (v lo hi : Q) : option Q :=
  m ← p5map v lo hi 0 5;
  Some (constrain m 0 5).

(** The head block. *)
Definition coupleHead (env : Env) (pose : Pose) (s : State) : option State :=
  let '(v, cache) := regionVelocity env pose regionKeypoints.head (prevByPart s) in
  val ← to05 v TUNE.coupling.head.velMin TUNE.coupling.head.velMax;
  rs ← lerpSlider "head" val TUNE.coupling.head.lerp (regionSliders s);
  Some (set_regionSliders rs (set_prevByPart cache s)).

(** The neck block. *)
Definition coupleNeck (env : Env) (pose : Pose) (s : State) : option State :=
  let '(v, cache) := regionVelocity env pose regionKeypoints.neck (prevByPart s) in
  val ← to05 v TUNE.coupling.neck.velMin TUNE.coupling.neck.velMax;
  rs ← lerpSlider "neck" val TUNE.coupling.neck.lerp (regionSliders s);
  Some (set_regionSliders rs (set_prevByPart cache s)).

(** The arms and hands block, under [if (lw && rw && ls && rs)]. *)
Definition coupleArmsHands (env : Env) (pose : Pose) (s : State) : option State :=
  match get pose "leftWrist", get pose "rightWrist",
        get pose "leftShoulder", get pose "rightShoulder" with
  | Some lw, Some rw, Some ls, Some rs =>
      let span := dist (Point.x ls) (Point.y ls) (Point.x rs) (Point.y rs) in
      let wristSpread :=
        dist (Point.x lw) (Point.y lw) (Point.x rw) (Point.y rw) / Qmax span 1e-6 in
      base ← to05 wristSpread TUNE.coupling.armsHands.wristSpreadMin
                TUNE.coupling.armsHands.wristSpreadMax;
      let '(v, cache) := regionVelocity env pose regionKeypoints.armsHands (prevByPart s) in
      b ← to05 v TUNE.coupling.head.velMin TUNE.coupling.chest.velMax;
      let boost := b * 0.5 in
      let armsVal := constrain (base + boost) 0 5 in
      rs' ← lerpSlider "armsHands" armsVal TUNE.coupling.armsHands.lerp (regionSliders s);
      Some (set_regionSliders rs' (set_prevByPart cache s))
  | _, _, _, _ => Some s
  end.

(** The chest block, under [if (ls && rs)], within the finite numbers: no
    value for a shoulder span of zero with both wrists found, where the
    source goes on with an [openness] of [Infinity] or [NaN]. *)
Definition coupleChest (env : Env) (pose : Pose) (s : State) : option State :=
  match get pose "leftShoulder", get pose "rightShoulder" with
  | Some ls, Some rs =>
      let span := dist (Point.x ls) (Point.y ls) (Point.x rs) (Point.y rs) in
      openness ←
        match get pose "leftWrist", get pose "rightWrist" with
        | Some lw, Some rw =>
            lwR ← fdiv (dist (Point.x ls) (Point.y ls) (Point.x lw) (Point.y lw)) span;
            rwR ← fdiv (dist (Point.x rs) (Point.y rs) (Point.x rw) (Point.y rw)) span;
            Some ((lwR + rwR) * 0.5)
        | _, _ => Some 0
        end;
      openVal ← to05 openness TUNE.coupling.chest.reachMin TUNE.coupling.chest.reachMax;
      let '(v, cache) := regionVelocity env pose regionKeypoints.chest (prevByPart s) in
      vVal ← to05 v TUNE.coupling.chest.velMin TUNE.coupling.chest.velMax;
      let chestVal := constrain (0.6 * openVal + 0.4 * vVal) 0 5 in
      rs' ← lerpSlider "chest" chestVal TUNE.coupling.chest.lerp (regionSliders s);
      Some (set_regionSliders rs' (set_prevByPart cache s))
  | _, _ => Some s
  end.

(** The abdomen block, under [if (ls && rs && lh && rh)]. *)
Definition coupleAbdomen (env : Env) (pose : Pose) (s : State) : option State :=
  match get pose "leftShoulder", get pose "rightShoulder",
        get pose "leftHip", get pose "rightHip" with
  | Some ls, Some rs, Some lh, Some rh =>
      let span := dist (Point.x ls) (Point.y ls) (Point.x rs) (Point.y rs) in
      let scx := (Point.x ls + Point.x rs) / 2 in
      let scy := (Point.y ls + Point.y rs) / 2 in
      let hcx := (Point.x lh + Point.x rh) / 2 in
      let hcy := (Point.y lh + Point.y rh) / 2 in
      let torsoLen := dist scx scy hcx hcy / Qmax span 1e-6 in
      t ← to05 torsoLen TUNE.coupling.abdomen.torsoMin TUNE.coupling.abdomen.torsoMax;
      let torsoVal := 5 - t in
      let '(v, cache) := regionVelocity env pose regionKeypoints.abdomen (prevByPart s) in
      vVal ← to05 v TUNE.coupling.abdomen.velMin TUNE.coupling.abdomen.velMax;
      let abdVal := constrain (0.6 * torsoVal + 0.4 * vVal) 0 5 in
      rs' ← lerpSlider "abdomen" abdVal TUNE.coupling.abdomen.lerp (regionSliders s);
      Some (set_regionSliders rs' (set_prevByPart cache s))
  | _, _, _, _ => Some s
  end.

(** The legs and feet block, under [if (la && ra && lh && rh)]. *)
Definition coupleLegsFeet (env : Env) (pose : Pose) (s : State) : option State :=
  match get pose "leftAnkle", get pose "rightAnkle",
        get pose "leftHip", get pose "rightHip" with
  | Some la, Some ra, Some lh, Some rh =>
      let hipSpan := dist (Point.x lh) (Point.y lh) (Point.x rh) (Point.y rh) in
      let stepW :=
        dist (Point.x la) (Point.y la) (Point.x ra) (Point.y ra) / Qmax hipSpan 1e-6 in
      spreadVal ← to05 stepW TUNE.coupling.legsFeet.ankleSpreadMin
                     TUNE.coupling.legsFeet.ankleSpreadMax;
      let '(v, cache) := regionVelocity env pose regionKeypoints.legsFeet (prevByPart s) in
      vVal ← to05 v TUNE.coupling.legsFeet.velMin TUNE.coupling.legsFeet.velMax;
      let legsVal := constrain (0.5 * spreadVal + 0.5 * vVal) 0 5 in
      rs' ← lerpSlider "legsFeet" legsVal TUNE.coupling.legsFeet.lerp (regionSliders s);
      Some (set_regionSliders rs' (set_prevByPart cache s))
  | _, _, _, _ => Some s
  end.

(** The spine block, under [if (ls && rs)]. *)
Definition coupleSpine (env : Env) (pose : Pose) (s : State) : option State :=
  match get pose "leftShoulder", get pose "rightShoulder" with
  | Some ls, Some rs =>
      let span := dist (Point.x ls) (Point.y ls) (Point.x rs) (Point.y rs) in
      let spineSway :=
        ((Point.x ls + Point.x rs) * 0.5 - orElse (videoWidth env) 640 / 2)
        / Qmax span 1e-6 in
      spineVal ← p5map spineSway (- TUNE.coupling.spine.swayRange)
                    TUNE.coupling.spine.swayRange 0
                    (orElse (regionMaxWidths_spine env) 100);
      rs' ← lerpSlider "spine" spineVal TUNE.coupling.spine.lerp (regionSliders s);
      Some (set_regionSliders rs' s)
  | _, _ => Some s
  end.

(** [coupleRegionsToPose(pose)]: the seven blocks in source order. *)
Definition coupleRegionsToPose (env : Env) (pose : Pose) (s : State) : option State :=
  s1 ← coupleHead env pose s;
  s2 ← coupleNeck env pose s1;
  s3 ← coupleArmsHands env pose s2;
  s4 ← coupleChest env pose s3;
  s5 ← coupleAbdomen env pose s4;
  s6 ← coupleLegsFeet env pose s5;
  coupleSpine env pose s6.

(** ** 8) Pose transform and anchor *)

(** [get(part)] of [updatePoseTransform] and [updatePoseAnchor]: the first
    keypoint of that name, kept when its score passes. *)
Definition getFirst (pose : Pose) (name : string) : option Point.t :=
  match List.find (fun p => String.eqb (part p) name) (keypoints pose) with
  | Some k => if confident k then Some (position k) else None
  | None => None
  end.

(** [updatePoseTransform(pose)] *)
Definition updatePoseTransform (env : Env) (pose : Pose) (s : State) : State :=
  match getFirst pose "leftShoulder", getFirst pose "rightShoulder",
        getFirst pose "leftHip", getFirst pose "rightHip" with
  | Some ls, Some rs, Some lh, Some rh =>
      let cx := (Point.x ls + Point.x rs + Point.x lh + Point.x rh) / 4 in
      let cy := (Point.y ls + Point.y rs + Point.y lh + Point.y rh) / 4 in
      let sx := (Point.x ls + Point.x rs) / 2 in
      let sy := (Point.y ls + Point.y rs) / 2 in
      let hx := (Point.x lh + Point.x rh) / 2 in
      let hy := (Point.y lh + Point.y rh) / 2 in
      let ang := atan2 (hy - sy) (hx - sx) - PI / 2 in
      let shoulderW := hypot (Point.x ls - Point.x rs) (Point.y ls - Point.y rs) in
      let baseline := 220 in
      let sc := constrain (shoulderW / baseline) 0.6 1.8 in
      let f := follow s in
      set_follow
        (mkFollow (followPose f)
           (lerp (poseTx f) cx TUNE.follow.lerp_tx)
           (lerp (poseTy f) cy TUNE.follow.lerp_ty)
           (lerp (poseRot f) ang TUNE.follow.lerp_rot)
           (lerp (poseSc f) sc TUNE.follow.lerp_sc)
           (millis env)) s
  | _, _, _, _ => s
  end.

(** [updatePoseAnchor(pose)] *)
Definition updatePoseAnchor (env : Env) (pose : Pose) (s : State) : State :=
  match getFirst pose "leftShoulder", getFirst pose "rightShoulder",
        getFirst pose "leftHip", getFirst pose "rightHip" with
  | Some ls, Some rs, Some lh, Some rh =>
      let cx := (Point.x ls + Point.x rs + Point.x lh + Point.x rh) / 4 in
      let cy := (Point.y ls + Point.y rs + Point.y lh + Point.y rh) / 4 in
      let f := follow s in
      set_follow
        (mkFollow (followPose f) (lerp (poseTx f) cx 0.25) (lerp (poseTy f) cy 0.25)
           (poseRot f) (poseSc f) (millis env)) s
  | _, _, _, _ => s
  end.

(** The [poseNet.on('pose', ...)] callback for the primary pose of a frame,
    up to the calls that only emit to the control surface or sample the
    session. *)
Definition onPose (env : Env) (pose : Pose) (s : State) : option State :=
  if negb (trackingStarted s) then Some s
  else
    s1 ← updatePoseFactors env pose s;
    s2 ← coupleRegionsToPose env pose (updatePoseTransform env pose s1);
    Some (updatePoseAnchor env pose s2).

End Pipeline.

(** ** 13) Control panel integration *)

Definition RESET_INPUT_BLOCK_MS : Q := 600.

(** One iteration of [for (const k in obj)] in [applySliders]:
    [if (sliders[k]) sliders[k].value(lerp(cur, Number(obj[k]) || 0, BLEND))].
    The supplied value is a finite number, on which [Number(v) || 0] is [v].
    The keys are names of sliders or of nothing: on a key that
    [Object.prototype] defines ([constructor], [toString], ...) the test of
    the source passes and the call of [value] throws. *)
Definition applyOne (m : gmap string Q) (kv : string * Q) : gmap string Q :=
  match m !! fst kv with
  | Some cur => <[fst kv := lerp cur (snd kv) 0.35]> m
  | None => m
  end.

(** [applySliders(emotion, region, opts)]; the two objects are given as
    their own enumerable properties, in enumeration order, and [force] is
    the truthiness of [opts.force]. *)
Definition applySliders (env : Env) (emotion region : list (string * Q))
    (force : bool) (s : State) : State :=
  if negb force && Qlt_bool (millis env) (blockIncomingUntil s) then s
  else
    set_regionSliders (foldl applyOne (regionSliders s) region)
      (set_emotionSliders (foldl applyOne (emotionSliders s) emotion) s).

(** [startTrackingImpl()], on the state of the pipeline (it also starts the
    session and tells the control surface). *)
Definition startTracking (s : State) : State :=
  if trackingStarted s then s else set_trackingStarted true s.

(** Modelled from the spec: the body of [stopTrackingImpl] is cut off after
    its first line, [if (!trackingStarted) return;], in the source file.
    The spec says that stopping tracking only stops new detection ticks from
    being processed and leaves all other state as it is. *)
Definition stopTracking (s : State) : State :=
  if negb (trackingStarted s) then s else set_trackingStarted false s.

(** [for (const n of names) sliders[n]?.value(0)] *)
Definition zeroOne (m : gmap string Q) (k : string) : gmap string Q :=
  match m !! k with
  | Some _ => <[k := 0]> m
  | None => m
  end.

(** The options object of [resetAll], with its defaults. *)
Record ResetOpts : Type := mkResetOpts {
  echo : bool;
  resetPoseCaches : bool;
  stopTrackingNow : bool
}.

Definition defaultResetOpts : ResetOpts := mkResetOpts true true true.

(** [resetAll(opts)] on the modelled variables (the graphics buffers and the
    echo to the control surface are not state of the pipeline). *)
Definition resetAll (env : Env) (opts : ResetOpts) (s : State) : State :=
  let s1 := if stopTrackingNow opts then stopTracking s else s in
  let es := foldl zeroOne (emotionSliders s1) emotionNames in
  let rs := foldl zeroOne (regionSliders s1) (regionNames ++ ["spine"%string]) in
  let vw := orElse (videoWidth env) 640 in
  let vh := orElse (videoHeight env) 480 in
  let s2 :=
    set_follow (mkFollow false (vw / 2) (vh / 2) 0 1 (millis env))
      (set_metrics (mkMetrics 0 0 0 0 0 0 0)
         (set_regionSliders rs (set_emotionSliders es s1))) in
  let s3 := if resetPoseCaches opts
            then set_prevByPart ∅ (set_prevKeypoints None s2) else s2 in
  set_blockIncomingUntil (millis env + RESET_INPUT_BLOCK_MS) s3.

(** ** A rational instance of the [Math] interface

    Used to run the model on concrete frames: [hypotQ] is the square root
    rounded down on the grid of the reduced denominator (exact on
    Pythagorean triples such as 640, 480, 800), [atan2Q] a rational
    approximation of the angle. *)

Definition hypotQ (a b : Q) : Q :=
  let q := Qred (a * a + b * b) in
  Z.sqrt (Qnum q * Zpos (Qden q)) # Qden q.

Definition PIQ : Q := 355 # 113.

Definition atanUnit (z : Q) : Q := z / (1 + 0.28 * z * z).

Definition atan2Q (y x : Q) : Q :=
  if Qeq_bool x 0 && Qeq_bool y 0 then 0
  else if Qle_bool (Qabs y) (Qabs x) then
    let r := atanUnit (y / x) in
    if Qle_bool 0 x then r else if Qle_bool 0 y then r + PIQ else r - PIQ
  else
    let r := atanUnit (x / y) in
    if Qle_bool 0 y then PIQ / 2 - r else - (PIQ / 2) - r.

(** The instance satisfies the law of the interface. *)
Lemma hypotQ_zero (a b : Q) : a == 0 -> b == 0 -> hypotQ a b == 0.
Proof.
  intros Ha Hb. unfold hypotQ.
  assert (E : Qred (a * a + b * b) = Qred 0).
  { apply Qred_complete. rewrite Ha, Hb. reflexivity. }
  rewrite E. reflexivity.
Qed.

#[export] Instance QMath : JSMath :=
  {| hypot := hypotQ; atan2 := atan2Q; PI := PIQ; hypot_zero := hypotQ_zero |}.


(** ** Vocabulary of the statements *)

(** The finite values of a sequence of supplied values, in order. *)
Definition finites (xs : list num) : list Q :=
  omap (fun x => match x with Fin q => Some q | _ => None end) xs.

Definition Qsum (l : list Q) : Q := foldr Qplus 0 l.

(** The arithmetic mean; 0 for the empty sequence, which is also the mean
    an accumulator starts from. *)
Definition arith_mean (l : list Q) : Q := Qsum l / Qnat (length l).

(** A scalar accumulator fed a sequence of values. *)
Definition feedMean (xs : list num) (a : OnlineMean.t) : OnlineMean.t :=
  foldl (fun acc x => OnlineMean.add x acc) a xs.

(** A vector accumulator fed a sequence of arrays. *)
Definition feedArray (vs : list (list num)) (a : OnlineMeanArray.t) : OnlineMeanArray.t :=
  foldl (fun acc v => OnlineMeanArray.add (Some v) acc) a vs.

(** A session fed [add] calls, each with its clock reading. *)
Definition feed (l : list (Q * Sample)) (s : SessionAverager.t) : SessionAverager.t :=
  foldl (fun acc c => SessionAverager.add (fst c) (snd c) acc) s l.

(** The values [add] passes to a scalar field: [sample.f ?? 0]. *)
Definition supplied (f : Sample -> option num) (l : list (Q * Sample)) : list num :=
  map (fun c => nullish0 (f (snd c))) l.

(** The values [add] passes to the accumulator of emotion [k]: nothing for a
    sample without an [emotions] object, [sample.emotions[k] ?? 0] otherwise. *)
Definition suppliedEmotion (k : string) (l : list (Q * Sample)) : list num :=
  omap (fun c => (fun se : gmap string num => nullish0 (se !! k)) <$> s_emotions (snd c)) l.

(** The arrays [add] passes to a vector field. *)
Definition suppliedArrays (f : Sample -> option (list num)) (l : list (Q * Sample))
  : list (list num) :=
  omap (fun c => f (snd c)) l.

(** Element [i] of every array of a sequence. *)
Definition column (i : nat) (vs : list (list num)) : list num :=
  omap (fun v : list num => v !! i) vs.

(** A sample that carries a region-width vector and nothing else. *)
Definition widthsOnly (v : list num) : Sample :=
  mkSample None None None None None (Some v) None.

(** The calls a session object can receive. *)
Inductive SessionOp : Type :=
| OpBegin (now : Q)
| OpAdd (now : Q) (sample : Sample)
| OpEnd (now : Q).

Definition execOp (s : SessionAverager.t) (o : SessionOp) : SessionAverager.t :=
  match o with
  | OpBegin now => SessionAverager.begin now
  | OpAdd now sample => SessionAverager.add now sample s
  | OpEnd now => snd (SessionAverager.end_ now s)
  end.

(** Every field counter is at most [bound]. *)
Definition countersBelow (bound : nat) (s : SessionAverager.t) : Prop :=
  (OnlineMean.n (SessionAverager.structure s) <= bound)%nat /\
  (OnlineMean.n (SessionAverager.balance s) <= bound)%nat /\
  (OnlineMean.n (SessionAverager.posture s) <= bound)%nat /\
  (OnlineMean.n (SessionAverager.velocity s) <= bound)%nat /\
  map_Forall (fun _ a => (OnlineMean.n a <= bound)%nat) (SessionAverager.emotions s) /\
  (OnlineMeanArray.n (SessionAverager.regionWidths s) <= bound)%nat /\
  (OnlineMeanArray.n (SessionAverager.segmentProfile s) <= bound)%nat.

(** The invariant of a scalar accumulator: its counter is the number of
    values folded in and its mean times the counter is their sum. *)
Definition tracks (a : OnlineMean.t) (l : list Q) : Prop :=
  OnlineMean.n a = length l /\
  OnlineMean.mean a * Qnat (OnlineMean.n a) == Qsum l /\
  (OnlineMean.n a = 0%nat -> OnlineMean.mean a == 0).

(** The range the spec gives to emotion and region values. *)
Definition in05 (v : Q) : Prop := 0 <= v <= 5.

(** Every stored emotion value and every stored per-region width lies in
    [0,5]; the spine entry of the region store is in pixel units and is not
    part of the range. *)
Definition slidersInRange (s : State) : Prop :=
  map_Forall (fun _ v => in05 v) (emotionSliders s) /\
  (forall r v, r ∈ regionNames -> regionSliders s !! r = Some v -> in05 v).

(** The filtered keypoints of a frame as the global cache stores them:
    [kp.map(k => ({ part, position }))] over the keypoints that pass. *)
Definition tracked (pose : Pose) : list (string * Point.t) :=
  map (fun k => (part k, position k)) (List.filter confident (keypoints pose)).

(** The seven blocks of [coupleRegionsToPose], in source order. *)
Inductive Block : Type :=
| Head | Neck | ArmsHands | Chest | Abdomen | LegsFeet | Spine.

#[export] Instance Block_eq_dec : EqDecision Block.
Proof. solve_decision. Defined.

Definition blockOrder : list Block :=
  [Head; Neck; ArmsHands; Chest; Abdomen; LegsFeet; Spine].

(** The slider a block writes. *)
Definition sliderOf (b : Block) : string :=
  match b with
  | Head => "head" | Neck => "neck" | ArmsHands => "armsHands"
  | Chest => "chest" | Abdomen => "abdomen" | LegsFeet => "legsFeet"
  | Spine => "spine"
  end.

(** The parts a block passes to [regionVelocity]; the spine block does not
    call it. *)
Definition partsOf (b : Block) : list string :=
  match b with
  | Head => regionKeypoints.head
  | Neck => regionKeypoints.neck
  | ArmsHands => regionKeypoints.armsHands
  | Chest => regionKeypoints.chest
  | Abdomen => regionKeypoints.abdomen
  | LegsFeet => regionKeypoints.legsFeet
  | Spine => []
  end.

(** The keypoints the [if] around a block tests.  The head and neck blocks
    are bare blocks: nothing is tested. *)
Definition required (b : Block) : list string :=
  match b with
  | Head => []
  | Neck => []
  | ArmsHands => ["leftWrist"; "rightWrist"; "leftShoulder"; "rightShoulder"]
  | Chest => ["leftShoulder"; "rightShoulder"]
  | Abdomen => ["leftShoulder"; "rightShoulder"; "leftHip"; "rightHip"]
  | LegsFeet => ["leftAnkle"; "rightAnkle"; "leftHip"; "rightHip"]
  | Spine => ["leftShoulder"; "rightShoulder"]
  end%string.

(** The test of a block passes. *)
Definition ready (b : Block) (pose : Pose) : Prop :=
  forall name, name ∈ required b -> is_Some (get pose name).

(** The blending coefficient of a block. *)
Definition lerpOf (b : Block) : Q :=
  match b with
  | Head => TUNE.coupling.head.lerp
  | Neck => TUNE.coupling.neck.lerp
  | ArmsHands => TUNE.coupling.armsHands.lerp
  | Chest => TUNE.coupling.chest.lerp
  | Abdomen => TUNE.coupling.abdomen.lerp
  | LegsFeet => TUNE.coupling.legsFeet.lerp
  | Spine => TUNE.coupling.spine.lerp
  end.

Definition runBlock {M : JSMath} (b : Block) : Env -> Pose -> State -> option State :=
  match b with
  | Head => coupleHead
  | Neck => coupleNeck
  | ArmsHands => coupleArmsHands
  | Chest => coupleChest
  | Abdomen => coupleAbdomen
  | LegsFeet => coupleLegsFeet
  | Spine => coupleSpine
  end.

(** The blocks [bs] run one after the other. *)
Fixpoint runBlocks {M : JSMath} (env : Env) (pose : Pose) (bs : list Block) (s : State)
  : option State :=
  match bs with
  | [] => Some s
  | b :: bs' => s1 ← runBlock b env pose s; runBlocks env pose bs' s1
  end.

(** What one iteration of [regionVelocity] does to the cache. *)
Definition cacheStep (pose : Pose) (cache : gmap string Point.t) (name : string)
  : gmap string Point.t :=
  match get pose name with
  | Some pos => <[name := pos]> cache
  | None => cache
  end.

(** What the part [name] adds to [sum] in a [regionVelocity] call that
    finds the cache [cache]: nothing when the part is not found or not
    cached. *)
Definition contribution {M : JSMath} (d : Q) (pose : Pose) (cache : gmap string Point.t)
    (name : string) : option Q :=
  k ← findPart pose name;
  prev ← cache !! name;
  Some (hypot ((Point.x (position k) - Point.x prev) / d)
              ((Point.y (position k) - Point.y prev) / d)).

(** The cache entry of [name], if there is one, is the position the frame
    gives that part, if it gives one. *)
Definition fresh (cache : gmap string Point.t) (pose : Pose) (name : string) : Prop :=
  forall pos prev, get pose name = Some pos -> cache !! name = Some prev -> prev = pos.


(** What a block that passed its test has done: one blended write to its
    own slider, of a value that is in [0,5] for the six regions, and (for a
    block that asks for a velocity) the cache left by that
    [regionVelocity] call. *)
Definition blockRan {M : JSMath} (b : Block) (env : Env) (pose : Pose) (s s' : State) : Prop :=
  exists val rs',
    (b <> Spine -> in05 val) /\
    lerpSlider (sliderOf b) val (lerpOf b) (regionSliders s) = Some rs' /\
    s' = set_regionSliders rs'
           (set_prevByPart (snd (regionVelocity env pose (partsOf b) (prevByPart s))) s).

(** The six writes at the end of [updatePoseFactors], each a blend of the
    stored value with an estimate in [0,5]. *)
Definition emotionsBlended (m m' : gmap string Q) : Prop :=
  exists pAnxiety pCalm pSadness pFear pJoy pAnger e1 e2 e3 e4 e5,
    in05 pAnxiety /\ in05 pCalm /\ in05 pSadness /\ in05 pFear /\ in05 pJoy /\
    in05 pAnger /\
    blendSlider "anxiety" pAnxiety m = Some e1 /\
    blendSlider "calm" pCalm e1 = Some e2 /\
    blendSlider "sadness" pSadness e2 = Some e3 /\
    blendSlider "fear" pFear e3 = Some e4 /\
    blendSlider "joy" pJoy e4 = Some e5 /\
    blendSlider "anger" pAnger e5 = Some m'.

(** What can happen to the sketch: tracking is switched on, the detector
    delivers a frame, the control surface sends values, or asks for a
    reset. *)
Inductive Event : Type :=
| EvStart
| EvPose (env : Env) (pose : Pose)
| EvApply (env : Env) (emotion region : list (string * Q)) (force : bool)
| EvReset (env : Env) (opts : ResetOpts).

Definition step {M : JSMath} (s : State) (e : Event) : option State :=
  match e with
  | EvStart => Some (startTracking s)
  | EvPose env pose => onPose env pose s
  | EvApply env emotion region force => Some (applySliders env emotion region force s)
  | EvReset env opts => Some (resetAll env opts s)
  end.

(** The events [es] in order, each run to completion before the next. *)
Fixpoint run {M : JSMath} (es : list Event) (s : State) : option State :=
  match es with
  | [] => Some s
  | e :: es' => s1 ← step s e; run es' s1
  end.

(** The values an external write carries are in [0,5]: every emotion value,
    and every region value that goes to one of the six region sliders. *)
Definition suppliedInRange (e : Event) : Prop :=
  match e with
  | EvApply _ emotion region _ =>
      Forall (fun kv => in05 (snd kv)) emotion /\
      Forall (fun kv => fst kv ∈ regionNames -> in05 (snd kv)) region
  | _ => True
  end.

(** A boolean reading of [in05] and of [slidersInRange], to check a
    concrete state by evaluation. *)
Definition in05b (v : Q) : bool := Qle_bool 0 v && Qle_bool v 5.

Definition slidersInRangeb (s : State) : bool :=
  forallb (fun kv => in05b (snd kv)) (map_to_list (emotionSliders s)) &&
  forallb (fun r => match regionSliders s !! r with
                    | Some v => in05b v
                    | None => true
                    end) regionNames.

(** ** Concrete frames *)

Definition kp (name : string) (x y sc : Q) : Keypoint :=
  mkKeypoint name (Point.mk x y) sc.

(** A 640 by 480 capture on a 480 pixel high canvas, at clock 0. *)
Definition env0 : Env := mkEnv 640 480 480 100 0.

(** The same page 300 ms later. *)
Definition env300 : Env := mkEnv 640 480 480 100 300.

(** A full standing figure, every part above the threshold. *)
Definition frameA : Pose :=
  mkPose
    [ kp "nose" 320 100 0.9; kp "leftEye" 330 90 0.9; kp "rightEye" 310 90 0.9;
      kp "leftEar" 340 95 0.8; kp "rightEar" 300 95 0.8;
      kp "leftShoulder" 380 180 0.9; kp "rightShoulder" 260 180 0.9;
      kp "leftElbow" 400 250 0.8; kp "rightElbow" 240 250 0.8;
      kp "leftWrist" 410 320 0.8; kp "rightWrist" 230 320 0.8;
      kp "leftHip" 360 340 0.9; kp "rightHip" 280 340 0.9;
      kp "leftKnee" 365 410 0.7; kp "rightKnee" 275 410 0.7;
      kp "leftAnkle" 370 470 0.6; kp "rightAnkle" 270 470 0.6 ]
    (Some (Point.mk 380 180)) (Some (Point.mk 260 180))
    (Some (Point.mk 410 320)) (Some (Point.mk 230 320))
    (Some (Point.mk 360 340)) (Some (Point.mk 280 340)).

(** The same figure as the detector may report it on the next frame: the
    parts above the threshold where they were with other scores, and the
    ankles, now below the threshold, elsewhere. *)
Definition frameA' : Pose :=
  mkPose
    [ kp "nose" 320 100 0.8; kp "leftEye" 330 90 0.7; kp "rightEye" 310 90 0.9;
      kp "leftEar" 340 95 0.6; kp "rightEar" 300 95 0.8;
      kp "leftShoulder" 380 180 0.95; kp "rightShoulder" 260 180 0.9;
      kp "leftElbow" 400 250 0.8; kp "rightElbow" 240 250 0.8;
      kp "leftWrist" 410 320 0.8; kp "rightWrist" 230 320 0.8;
      kp "leftHip" 360 340 0.9; kp "rightHip" 280 340 0.9;
      kp "leftKnee" 365 410 0.7; kp "rightKnee" 275 410 0.7;
      kp "leftAnkle" 370 470 0.6; kp "rightAnkle" 270 470 0.6;
      kp "leftAnkle" 300 400 0.2 ]
    (Some (Point.mk 380 180)) (Some (Point.mk 260 180))
    (Some (Point.mk 410 320)) (Some (Point.mk 230 320))
    (Some (Point.mk 360 340)) (Some (Point.mk 280 340)).

(** The figure of [frameA] after it moved its left arm and shoulder. *)
Definition frameB : Pose :=
  mkPose
    [ kp "nose" 320 100 0.9; kp "leftEye" 330 90 0.9; kp "rightEye" 310 90 0.9;
      kp "leftEar" 340 95 0.8; kp "rightEar" 300 95 0.8;
      kp "leftShoulder" 383 184 0.9; kp "rightShoulder" 260 180 0.9;
      kp "leftElbow" 406 258 0.8; kp "rightElbow" 240 250 0.8;
      kp "leftWrist" 416 328 0.8; kp "rightWrist" 230 320 0.8;
      kp "leftHip" 360 340 0.9; kp "rightHip" 280 340 0.9;
      kp "leftKnee" 365 410 0.7; kp "rightKnee" 275 410 0.7;
      kp "leftAnkle" 370 470 0.6; kp "rightAnkle" 270 470 0.6 ]
    (Some (Point.mk 383 184)) (Some (Point.mk 260 180))
    (Some (Point.mk 416 328)) (Some (Point.mk 230 320))
    (Some (Point.mk 360 340)) (Some (Point.mk 280 340)).

(** [frameA] with the left wrist occluded (score below the threshold). *)
Definition frameNoWrist : Pose :=
  mkPose
    [ kp "nose" 320 100 0.9; kp "leftEye" 330 90 0.9; kp "rightEye" 310 90 0.9;
      kp "leftEar" 340 95 0.8; kp "rightEar" 300 95 0.8;
      kp "leftShoulder" 380 180 0.9; kp "rightShoulder" 260 180 0.9;
      kp "leftElbow" 400 250 0.8; kp "rightElbow" 240 250 0.8;
      kp "leftWrist" 410 320 0.3; kp "rightWrist" 230 320 0.8;
      kp "leftHip" 360 340 0.9; kp "rightHip" 280 340 0.9;
      kp "leftKnee" 365 410 0.7; kp "rightKnee" 275 410 0.7;
      kp "leftAnkle" 370 470 0.6; kp "rightAnkle" 270 470 0.6 ]
    (Some (Point.mk 380 180)) (Some (Point.mk 260 180))
    (Some (Point.mk 410 320)) (Some (Point.mk 230 320))
    (Some (Point.mk 360 340)) (Some (Point.mk 280 340)).

(** [frameA] with the head turned away: nose, eyes and ears below the
    threshold, the body where it was. *)
Definition frameNoHead : Pose :=
  mkPose
    [ kp "nose" 320 100 0.2; kp "leftEye" 330 90 0.1; kp "rightEye" 310 90 0.1;
      kp "leftEar" 340 95 0.3; kp "rightEar" 300 95 0.2;
      kp "leftShoulder" 380 180 0.9; kp "rightShoulder" 260 180 0.9;
      kp "leftElbow" 400 250 0.8; kp "rightElbow" 240 250 0.8;
      kp "leftWrist" 410 320 0.8; kp "rightWrist" 230 320 0.8;
      kp "leftHip" 360 340 0.9; kp "rightHip" 280 340 0.9;
      kp "leftKnee" 365 410 0.7; kp "rightKnee" 275 410 0.7;
      kp "leftAnkle" 370 470 0.6; kp "rightAnkle" 270 470 0.6 ]
    (Some (Point.mk 380 180)) (Some (Point.mk 260 180))
    (Some (Point.mk 410 320)) (Some (Point.mk 230 320))
    (Some (Point.mk 360 340)) (Some (Point.mk 280 340)).

(** A frame in which the detector reports every part at or below the
    threshold. *)
Definition frameDim : Pose :=
  mkPose
    [ kp "nose" 320 100 0.5; kp "leftShoulder" 380 180 0.4;
      kp "rightShoulder" 260 180 0.3; kp "leftHip" 360 340 0.1 ]
    (Some (Point.mk 380 180)) (Some (Point.mk 260 180))
    None None (Some (Point.mk 360 340)) None.

(** The sketch after [setup] with tracking switched on. *)
Definition started : State := set_trackingStarted true setup.

(** The per-part cache after one tick of the rational instance on
    [frameA]. *)
Definition cacheAfterA : gmap string Point.t :=
  from_option prevByPart ∅
    (onPose (M := QMath) env0 frameA started).

(** A short session: tracking on, a frame, an external write of in-range
    values (the spine value is in pixels), the next frame, a reset. *)
Definition session1 : list Event :=
  [ EvStart; EvPose env0 frameA;
    EvApply env0 [("anxiety"%string, 5)] [("head"%string, 2); ("spine"%string, 40)] false;
    EvPose env300 frameB; EvReset env300 defaultResetOpts ].

(** [started] with every region slider moved to 5 by hand. *)
Definition wide : State :=
  set_regionSliders ((fun _ => 5) <$> regionSliders started) started.

(** What the loop of [OnlineMeanArray.add] does to the mean at one index. *)
Definition foldIn (cnt : nat) (x : option num) (m : Q) : Q :=
  match x with
  | Some (Fin q) => m + (q - m) / Qnat cnt
  | _ => m
  end.

(** An array all of whose elements are finite numbers. *)
Definition allFinite (v : list num) : Prop := Forall (fun x => isFinite x = true) v.

(** ** 9) Control panel communication *)

(** A call on [window.EnergyBodiesDisplay], the channel to the control
    surface: [echo({ emotion, region })], [pose] with the six metrics,
    [pose] with the normalised keypoints, and [tracking(on)]. *)
Inductive Msg : Type :=
| Echo (emotion region : list (string * Q))
| PoseMetrics (velocity fast structure balance postureLean avgY : Q)
| PoseKeypoints (pts : list (string * Q * Q * Q)) (vw vh t : Q)
| Tracking (on : bool).

(** The variables of the page besides those of the pipeline: the session
    object and the flags and queues [eb-init.js] keeps, whether
    [window.EnergyBodiesDisplay] is there, and the three throttle marks. *)
Record Page : Type := mkPage {
  ebSession : option SessionAverager.t;
  ebSessionReady : bool;
  ebTrackingReady : bool;
  ebTrackingStarted : bool;
  sessionStartQueued : bool;
  trackingStartQueued : bool;
  hasDisplay : bool;
  lastPoseEmitAt : Q;
  lastEmitMs : Q;
  lastEcho : Q
}.

Definition set_ebSession (v : option SessionAverager.t) (pg : Page) : Page :=
  mkPage v (ebSessionReady pg) (ebTrackingReady pg) (ebTrackingStarted pg)
    (sessionStartQueued pg) (trackingStartQueued pg) (hasDisplay pg)
    (lastPoseEmitAt pg) (lastEmitMs pg) (lastEcho pg).
Definition set_ebTrackingStarted (v : bool) (pg : Page) : Page :=
  mkPage (ebSession pg) (ebSessionReady pg) (ebTrackingReady pg) v
    (sessionStartQueued pg) (trackingStartQueued pg) (hasDisplay pg)
    (lastPoseEmitAt pg) (lastEmitMs pg) (lastEcho pg).
Definition set_sessionStartQueued (v : bool) (pg : Page) : Page :=
  mkPage (ebSession pg) (ebSessionReady pg) (ebTrackingReady pg) (ebTrackingStarted pg)
    v (trackingStartQueued pg) (hasDisplay pg)
    (lastPoseEmitAt pg) (lastEmitMs pg) (lastEcho pg).
Definition set_trackingStartQueued (v : bool) (pg : Page) : Page :=
  mkPage (ebSession pg) (ebSessionReady pg) (ebTrackingReady pg) (ebTrackingStarted pg)
    (sessionStartQueued pg) v (hasDisplay pg)
    (lastPoseEmitAt pg) (lastEmitMs pg) (lastEcho pg).
Definition set_lastPoseEmitAt (v : Q) (pg : Page) : Page :=
  mkPage (ebSession pg) (ebSessionReady pg) (ebTrackingReady pg) (ebTrackingStarted pg)
    (sessionStartQueued pg) (trackingStartQueued pg) (hasDisplay pg)
    v (lastEmitMs pg) (lastEcho pg).
Definition set_lastEmitMs (v : Q) (pg : Page) : Page :=
  mkPage (ebSession pg) (ebSessionReady pg) (ebTrackingReady pg) (ebTrackingStarted pg)
    (sessionStartQueued pg) (trackingStartQueued pg) (hasDisplay pg)
    (lastPoseEmitAt pg) v (lastEcho pg).
Definition set_lastEcho (v : Q) (pg : Page) : Page :=
  mkPage (ebSession pg) (ebSessionReady pg) (ebTrackingReady pg) (ebTrackingStarted pg)
    (sessionStartQueued pg) (trackingStartQueued pg) (hasDisplay pg)
    (lastPoseEmitAt pg) (lastEmitMs pg) v.

Definition POSE_EMIT_MS : Q := 80.

(** [let segmentProfile = [0.0, 1.0, 0.0]]; no function assigns it. *)
Definition segmentProfile : list Q := [0.0; 1.0; 0.0].

(** [Number(sliders[n]?.value() || 0)] *)
Definition sliderNumber (m : gmap string Q) (n : string) : Q :=
  match m !! n with
  | Some v => orElse v 0
  | None => 0
  end.

(** [buildSampleForThisFrame()] in a state of the finite model; [sampleOf]
    below is the sampler on signals and sliders that may hold [NaN] or an
    infinity. *)
Definition buildSampleForThisFrame (s : State) : Sample :=
  {| s_structure := Some (Fin (smoothedStructure (metrics s)));
     s_balance := Some (Fin (smoothedBalance (metrics s)));
     s_posture := Some (Fin (smoothedPostureLean (metrics s)));
     s_velocity := Some (Fin (movementVelocity (metrics s)));
     s_emotions :=
       Some (list_to_map
               (map (fun n => (n, Fin (sliderNumber (emotionSliders s) n))) emotionNames));
     s_regionWidths :=
       Some (map (fun n => Fin (sliderNumber (regionSliders s) n)) regionNames);
     s_segmentProfile := Some (map Fin segmentProfile) |}.

(** [emitPoseToControl(pose)]: the calls it makes on the display. *)
Definition emitPoseToControl (env : Env) (pose : Pose) (pg : Page) : list Msg :=
  if negb (hasDisplay pg) || (length (keypoints pose) =? 0)%nat then []
  else
    let vw := orElse (videoWidth env) 640 in
    let vh := orElse (videoHeight env) 480 in
    let pts :=
      map (fun k => (part k, Point.x (position k) / vw, Point.y (position k) / vh, score k))
          (keypoints pose) in
    [PoseKeypoints pts vw vh (millis env)].

(** One entry of the detector's [results]: its [pose] property with the
    overall [score] of that pose. *)
Record Detected : Type := mkDetected { d_score : Q; d_pose : Pose }.

(** [emitPoseMetrics()]: [perfNow] is [performance.now()], [poses] the
    array the handler has just stored.  The session takes a sample before
    the throttle is looked at. *)
Definition emitPoseMetrics (env : Env) (perfNow : Q) (poses : list (option Detected))
    (s : State) (pg : Page) : Page * list Msg :=
  let sess' :=
    match ebSession pg with
    | Some sess =>
        if trackingStarted s && SessionAverager.active sess then
          match poses with
          | Some p :: _ =>
              if Qgt_bool (d_score p) 0.25
              then Some (SessionAverager.add perfNow (buildSampleForThisFrame s) sess)
              else Some sess
          | _ => Some sess
          end
        else Some sess
    | None => None
    end in
  let pg1 := set_ebSession sess' pg in
  let now := millis env in
  if Qlt_bool (now - lastEmitMs pg1) 80 then (pg1, [])
  else
    let pg2 := set_lastEmitMs now pg1 in
    if hasDisplay pg2 then
      let h := orElse (videoHeight env) 480 in
      let m := metrics s in
      (pg2, [PoseMetrics (movementVelocity m) (fastVel m) (smoothedStructure m)
                         (smoothedBalance m / h) (smoothedPostureLean m)
                         (smoothedAvgY m / h)])
    else (pg2, []).

(** [maybeEchoState()]; [emotionSliders[n].value()] has no guard, so a
    missing emotion slider throws. *)
Definition maybeEchoState (env : Env) (s : State) (pg : Page) : option (Page * list Msg) :=
  let t := millis env in
  if negb (hasDisplay pg) then Some (pg, [])
  else if Qlt_bool (t - lastEcho pg) 250 then Some (pg, [])
  else
    emotion ← mapM (fun n => v ← emotionSliders s !! n; Some (n, v)) emotionNames;
    let region :=
      map (fun n => (n, sliderNumber (regionSliders s) n))
          (regionNames ++ ["spine"%string]) in
    Some (set_lastEcho t pg, [Echo emotion region]).

(** The [poseNet.on('pose', ...)] callback in full: the pipeline of
    [onPose] on the primary pose, then the echo, the metrics and the
    throttled keypoint message. *)
Definition poseHandler {M : JSMath} (env : Env) (perfNow : Q)
    (results : list (option Detected)) (s : State) (pg : Page)
  : option (State * Page * list Msg) :=
  if negb (trackingStarted s) then Some (s, pg, [])
  else
    match results with
    | Some p :: _ =>
        let pose := d_pose p in
        s' ← onPose env pose s;
        '(pg1, m1) ← maybeEchoState env s' pg;
        let '(pg2, m2) := emitPoseMetrics env perfNow results s' pg1 in
        let now := millis env in
        if Qle_bool POSE_EMIT_MS (now - lastPoseEmitAt pg2)
        then Some (s', set_lastPoseEmitAt now pg2, m1 ++ m2 ++ emitPoseToControl env pose pg2)
        else Some (s', pg2, m1 ++ m2)
    | _ => Some (s, pg, [])
    end.

(** [applySliders] with the echo it ends with. *)
Definition applySlidersEcho (env : Env) (emotion region : list (string * Q))
    (force : bool) (s : State) (pg : Page) : option (State * Page * list Msg) :=
  if negb force && Qlt_bool (millis env) (blockIncomingUntil s) then Some (s, pg, [])
  else
    let s' := applySliders env emotion region force s in
    '(pg', ms) ← maybeEchoState env s' pg;
    Some (s', pg', ms).

(** [resetAll] with the calls it makes on the display itself:
    [tracking(false)] when it stops tracking, and the echo it ends with
    under [echo].  (What [stopTracking()] sends on top is cut off in the
    source; the events of the page below reset with
    [stopTrackingNow: false].) *)
Definition resetAllEcho (env : Env) (opts : ResetOpts) (s : State) (pg : Page)
  : option (State * Page * list Msg) :=
  let m0 := if stopTrackingNow opts && hasDisplay pg then [Tracking false] else [] in
  let s' := resetAll env opts s in
  if echo opts then
    '(pg', ms) ← maybeEchoState env s' pg;
    Some (s', pg', m0 ++ ms)
  else Some (s', pg, m0).

(** ** 5) Tracking toggles *)

(** [startTrackingImpl()] in full: the session is begun when it exists, is
    flagged ready and is not running. *)
Definition startTrackingImpl (perfNow : Q) (s : State) (pg : Page)
  : State * Page * list Msg :=
  if trackingStarted s then (s, pg, [])
  else
    let pg1 := set_ebTrackingStarted true pg in
    let pg2 :=
      match ebSession pg1 with
      | Some sess =>
          if ebSessionReady pg1 && negb (SessionAverager.active sess)
          then set_ebSession (Some (SessionAverager.begin perfNow)) pg1
          else pg1
      | None => pg1
      end in
    (set_trackingStarted true s, pg2, if hasDisplay pg2 then [Tracking true] else []).

(** ** 3) Global API bindings *)

(** [window.beginSession] as [sketch.js] rebinds it: the session object is
    created when missing, and begun. *)
Definition beginSession (perfNow : Q) (pg : Page) : Page :=
  set_ebSession (Some (SessionAverager.begin perfNow)) pg.

(** ** 11) Print flow *)

(** The object [saved] of [onPrintAverageThenSnapshot]; an entry is
    [undefined] when the slider object is missing. *)
Record Saved : Type := mkSaved {
  saved_emotions : list (option Q);
  saved_regions : list (option Q);
  saved_spine : option Q;
  saved_structure : Q;
  saved_balance : Q;
  saved_posture : Q;
  saved_velocity : Q
}.

(** [sliders[n]?.value(v)]: nothing happens without the slider object, and
    [value(undefined)] only reads. *)
Definition writeSlider (m : gmap string Q) (n : string) (v : option Q) : gmap string Q :=
  match m !! n, v with
  | Some _, Some x => <[n := x]> m
  | _, _ => m
  end.

(** [const saved = { ... }] *)
Definition printSave (s : State) : Saved :=
  {| saved_emotions := map (fun n => emotionSliders s !! n) emotionNames;
     saved_regions := map (fun n => regionSliders s !! n) regionNames;
     saved_spine := regionSliders s !! "spine"%string;
     saved_structure := smoothedStructure (metrics s);
     saved_balance := smoothedBalance (metrics s);
     saved_posture := smoothedPostureLean (metrics s);
     saved_velocity := movementVelocity (metrics s) |}.

(** The four metrics the print flow writes; the other three are left. *)
Definition set_printMetrics (st ba po ve : Q) (s : State) : State :=
  let m := metrics s in
  set_metrics (mkMetrics ve (fastVel m) (slowVel m) st ba po (smoothedAvgY m)) s.

(** "Apply averaged values": [avg.emotions?.[n] ?? 0] on every emotion
    slider, [avg.regionWidths?.[i] ?? 0] on the i-th region slider, 0 on the
    spine, and the four averaged metrics. *)
Definition printAverages (avg : Snapshot) (s : State) : State :=
  let es :=
    foldl (fun m n => writeSlider m n (Some (default 0 (out_emotions avg !! n))))
          (emotionSliders s) emotionNames in
  let rs :=
    foldl (fun m e => writeSlider m (snd e) (Some (default 0 (out_regionWidths avg !! fst e))))
          (regionSliders s) (imap (fun i n => (i, n)) regionNames) in
  let rs' := writeSlider rs "spine" (Some 0) in
  set_printMetrics (out_structure avg) (out_balance avg) (out_posture avg) (out_velocity avg)
    (set_regionSliders rs' (set_emotionSliders es s)).

(** "Restore original state", the first half of the callback passed to
    [requestAnimationFrame]. *)
Definition printRestore (saved : Saved) (s : State) : State :=
  let es :=
    foldl (fun m e => writeSlider m (snd e) (mjoin (saved_emotions saved !! fst e)))
          (emotionSliders s) (imap (fun i n => (i, n)) emotionNames) in
  let rs :=
    foldl (fun m e => writeSlider m (snd e) (mjoin (saved_regions saved !! fst e)))
          (regionSliders s) (imap (fun i n => (i, n)) regionNames) in
  let rs' := writeSlider rs "spine" (saved_spine saved) in
  set_printMetrics (saved_structure saved) (saved_balance saved) (saved_posture saved)
    (saved_velocity saved)
    (set_regionSliders rs' (set_emotionSliders es s)).

(** [onPrintAverageThenSnapshot()] up to the capture: the state and the
    page it leaves, and the [saved] object of the callback it schedules;
    [None] when it falls back to a snapshot of the current picture. *)
Definition onPrintAverageThenSnapshot (perfNow : Q) (s : State) (pg : Page)
  : State * Page * option Saved :=
  match ebSession pg with
  | None => (s, pg, None)
  | Some sess =>
      if negb (SessionAverager.active sess) then (s, pg, None)
      else
        let '(avg, sess') := SessionAverager.end_ perfNow sess in
        let pg' := set_ebSession (Some sess') pg in
        if (out_samples avg =? 0)%nat then (s, pg', None)
        else (printAverages avg s, pg', Some (printSave s))
  end.

(** ** 4) The layout [draw] computes *)

(** The canvas: p5's [width] and [height]. *)
Record Canvas : Type := mkCanvas { canvasWidth : Q; canvasHeight : Q }.

(** [K = Math.min(width, height) / 900] *)
Definition scaleK (cv : Canvas) : Q := Qmin (canvasWidth cv) (canvasHeight cv) / 900.

(** [regionMaxWidths = { head: 60 * K, ... }] *)
Definition regionMaxWidths (cv : Canvas) : gmap string Q :=
  let K := scaleK cv in
  list_to_map
    [ ("head", 60 * K); ("neck", 20 * K); ("chest", 50 * K); ("armsHands", 150 * K);
      ("abdomen", 80 * K); ("legsFeet", 100 * K); ("spine", 100 * K) ]%string.

(** [regionNames.map((region, i) => ...)] *)
Definition baseRegionSpacings (cv : Canvas) : list Q :=
  let K := scaleK cv in
  imap (fun i region =>
          let base := default 0 ([30; 20; 30; 15; 20; 50] !! i) * K in
          if String.eqb region "armsHands" then base + 30 * K
          else if String.eqb region "legsFeet" then base + 60 * K
          else base) regionNames.

(** [regionSpacings]: the base spacings scaled so that the body takes
    [height * 0.7]. *)
Definition regionSpacings (cv : Canvas) : option (list Q) :=
  let totalBaseHeight := foldl Qplus 0 (baseRegionSpacings cv) in
  let maxBodyHeight := canvasHeight cv * 0.7 in
  bodyHeightScale ← fdiv maxBodyHeight totalBaseHeight;
  Some (map (fun s => s * bodyHeightScale) (baseRegionSpacings cv)).

(** [fearScale]: [sinv] is the value of [Math.sin(frameCount * fearFreq)]. *)
Definition fearScale (fear sinv : Q) : Q :=
  let fearAmt := fear / 5 in
  let baseScale := lerp 3.0 0.6 fearAmt in
  let pulse := 0.05 * sinv in
  baseScale + pulse.

(** ** 10) Drawing functions *)

(** What [drawBodyShape] reads besides its arguments and the sliders. *)
Record Layout : Type := mkLayout {
  lay_K : Q;
  lay_regionMaxWidths : gmap string Q;
  lay_originOffset : Point.t
}.

(** The three point lists [drawBodyShape] builds. *)
Record Sides : Type := mkSides {
  leftSide : list Point.t;
  rightSide : list Point.t;
  crotchPoints : list Point.t
}.

Definition stepsPerRegion : nat := 2.

(** The body of the inner loop, for region [i] named [name] at step [s]. *)
Definition shapeStep (L : Layout) (sliders : gmap string Q) (regionSpacings : list Q)
    (fearScale : Q) (i : nat) (name : string) (spacingAccumulator : Q)
    (sd : Sides) (s : nat) : option Sides :=
  let K := lay_K L in
  let legTaper := 60 * K in
  let o := lay_originOffset L in
  t ← fdiv (Qnat s) (Qnat (stepsPerRegion - 1));
  let y0 :=
    spacingAccumulator
    + t * match regionSpacings !! i with Some r => orElse r (60 * K) | None => 60 * K end in
  let y1 := if String.eqb name "chest" then y0 - 60 * K else y0 in
  y2 ← (if String.eqb name "armsHands"
        then d ← p5map t 0 1 0 (40 * K); Some (y1 + d) else Some y1);
  y ← (if String.eqb name "legsFeet"
       then d ← p5map t 0 1 0 (80 * K); Some (y2 + d) else Some y2);
  spineOffset ← sliders !! "spine"%string;
  sliderVal ← sliders !! name;
  let maxWidth :=
    match lay_regionMaxWidths L !! name with Some w => orElse w (80 * K) | None => 80 * K end in
  w ← p5map sliderVal 0 5 0 maxWidth;
  let halfWidth0 := w * fearScale in
  halfWidth ← (if String.eqb name "legsFeet"
               then d ← p5map t 0 1 0 legTaper; Some (halfWidth0 - d)
               else Some halfWidth0);
  let l := Point.mk (- halfWidth - spineOffset / 2 + Point.x o) (y + Point.y o) in
  let r := Point.mk (halfWidth + spineOffset / 2 + Point.x o) (y + Point.y o) in
  let c :=
    if String.eqb name "legsFeet" && (s =? stepsPerRegion - 1)%nat
    then [Point.mk (Point.x o) (y + Point.y o - 300 * K)] else [] in
  Some (mkSides (leftSide sd ++ [l]) (r :: rightSide sd) (crotchPoints sd ++ c)).

(** The body of the outer loop.  [spacingAccumulator] is [None] once
    [regionSpacings[i]] was [undefined] and the sum became [NaN]. *)
Definition shapeRegion (L : Layout) (sliders : gmap string Q) (regionSpacings : list Q)
    (fearScale : Q) (acc : option (option Q * Sides)) (e : nat * string)
  : option (option Q * Sides) :=
  '(spacing, sd) ← acc;
  a ← spacing;
  sd0 ← shapeStep L sliders regionSpacings fearScale (fst e) (snd e) a sd 0;
  sd1 ← shapeStep L sliders regionSpacings fearScale (fst e) (snd e) a sd0 1;
  Some ((fun r => a + r) <$> regionSpacings !! fst e, sd1).

(** [drawBodyShape(regionSpacings, fearScale)]: the array [fullShape] it
    returns (and draws twice). *)
Definition drawBodyShape (L : Layout) (sliders : gmap string Q) (regionSpacings : list Q)
    (fearScale : Q) : option (list Point.t) :=
  let domeOffset := 60 * lay_K L in
  let start := - foldl Qplus 0 regionSpacings / 2 in
  '(_, sd) ← foldl (shapeRegion L sliders regionSpacings fearScale)
                (Some (Some start, mkSides [] [] []))
                (imap (fun i n => (i, n)) regionNames);
  first ← head (leftSide sd);
  let domeY := Point.y first - domeOffset in
  let leftAnchor := Point.mk (Point.x (lay_originOffset L)) domeY in
  let rightAnchor := Point.mk (Point.x (lay_originOffset L)) domeY in
  Some ([leftAnchor] ++ leftSide sd ++ crotchPoints sd ++ rightSide sd ++ [rightAnchor]).

(** [blitSceneTranslateOnly]: the arguments of its [translate(cx, cy)].
    [followAxis] is ['both'] wherever it is assigned. *)
Definition blitTranslate (cv : Canvas) (env : Env) (portrait : bool) (s : State)
  : option (Q * Q) :=
  let width := canvasWidth cv in
  let height := canvasHeight cv in
  let vw := orElse (videoWidth env) width in
  let vh := orElse (videoHeight env) height in
  let cx := width / 2 in
  let cy := height / 2 in
  if followPose (follow s)
     && Qlt_bool (millis env - poseSeenAt (follow s)) TUNE.follow.enabledFreshMs
  then
    sc ← (if portrait
          then a ← fdiv height vw; b ← fdiv width vh; Some (Qmin a b)
          else a ← fdiv width vw; b ← fdiv height vh; Some (Qmin a b));
    let dx := (poseTx (follow s) - vw / 2) * sc in
    let dy := (poseTy (follow s) - vh / 2) * sc in
    Some (cx + dx, cy + dy)
  else Some (cx, cy).

(** ** [eb-init.js] *)

Module EbInit.

(** [window.beginSession] as [eb-init.js] binds it: the page after the
    call and the value returned. *)
Definition beginSession (perfNow : Q) (pg : Page) : Page * bool :=
  match ebSession pg with
  | Some _ =>
      if ebSessionReady pg
      then (set_ebSession (Some (SessionAverager.begin perfNow)) pg, true)
      else (set_sessionStartQueued true pg, false)
  | None => (set_sessionStartQueued true pg, false)
  end.


(** [window.startTracking]; [__ebStartTrackingImpl] is registered by
    [sketch.js] on the lines that set [__ebTrackingReady]. *)
Definition startTracking (perfNow : Q) (s : State) (pg : Page)
  : State * Page * list Msg :=
  if ebTrackingReady pg then startTrackingImpl perfNow s pg
  else (s, set_trackingStartQueued true pg, []).

(** [window.__ebProcessQueued].  It calls [window.beginSession], which
    [sketch.js] rebinds when it is loaded after this file; under the test
    of the first branch both bindings do the same, [__ebSession.begin()]. *)
Definition ebProcessQueued (perfNow : Q) (s : State) (pg : Page)
  : State * Page * list Msg :=
  let pg1 :=
    if sessionStartQueued pg && bool_decide (is_Some (ebSession pg)) && ebSessionReady pg
    then set_sessionStartQueued false (fst (beginSession perfNow pg))
    else pg in
  if trackingStartQueued pg1 && ebTrackingReady pg1
  then
    let '(s', pg2, ms) := startTracking perfNow s pg1 in
    (s', set_trackingStartQueued false pg2, ms)
  else (s, pg1, []).

End EbInit.

(** ** The page as a whole *)

(** What can happen to the page: tracking is switched on
    ([startTrackingImpl]), the detector delivers its results, the control
    surface sends values, or asks for a reset that leaves tracking on
    ([resetAll({ echo, resetPoseCaches, stopTrackingNow: false })]; a reset
    that stops tracking runs [stopTrackingImpl], whose body is cut off in the
    source, and is no event here).  Each event carries what the page reads
    while it is handled. *)
Inductive PageEvent : Type :=
| PStart (env : Env) (perfNow : Q)
| PPose (env : Env) (perfNow : Q) (results : list (option Detected))
| PApply (env : Env) (emotion region : list (string * Q)) (force : bool)
| PReset (env : Env) (echo resetPoseCaches : bool).

Definition eventEnv (e : PageEvent) : Env :=
  match e with
  | PStart env _ | PPose env _ _ | PApply env _ _ _ | PReset env _ _ => env
  end.

Definition pageStep {M : JSMath} (sp : State * Page) (e : PageEvent)
  : option (State * Page * list Msg) :=
  match e with
  | PStart _ perfNow => Some (startTrackingImpl perfNow (fst sp) (snd sp))
  | PPose env perfNow results => poseHandler env perfNow results (fst sp) (snd sp)
  | PApply env emotion region force =>
      applySlidersEcho env emotion region force (fst sp) (snd sp)
  | PReset env echo resetPoseCaches =>
      resetAllEcho env (mkResetOpts echo resetPoseCaches false) (fst sp) (snd sp)
  end.

(** The events in order; the log pairs every call on the display with the
    clock reading of the event that made it. *)
Fixpoint pageRun {M : JSMath} (es : list PageEvent) (sp : State * Page)
  : option (State * Page * list (Q * Msg)) :=
  match es with
  | [] => Some (sp, [])
  | e :: es' =>
      '(s1, pg1, ms) ← pageStep sp e;
      '(s2, pg2, log) ← pageRun es' (s1, pg1);
      Some (s2, pg2, map (fun m => (millis (eventEnv e), m)) ms ++ log)
  end.

(** The page when [setup] returns, with or without a control surface. *)
Definition setupPage (display : bool) : Page :=
  mkPage (Some SessionAverager.reset) false true false false false display 0 0 0.

(** ** Vocabulary of the further statements *)

(** The values a vector field is fed are finite and of the established
    length. *)
Definition wellFormed (len : nat) (vs : list (list num)) : Prop :=
  Forall (fun v => length v = len /\ allFinite v) vs.

(** The [add] calls [emitPoseMetrics] makes when it samples the sketch in
    the states [sts], each with its clock reading. *)
Definition sampled (sts : list (Q * State)) : list (Q * Sample) :=
  map (fun c => (fst c, buildSampleForThisFrame (snd c))) sts.

(** The arithmetic mean of a quantity over the sampled states. *)
Definition meanOver (sts : list (Q * State)) (f : State -> Q) : Q :=
  arith_mean (map (fun c => f (snd c)) sts).

(** The ranges the smoothed signals are kept in: the three velocities,
    structure and lean in [0,1], balance non-negative.  ([smoothedAvgY] is
    in pixels and follows the shoulders wherever they are.) *)
Definition metricsInRange (m : Metrics) : Prop :=
  0 <= movementVelocity m <= 1 /\
  0 <= fastVel m <= 1 /\
  0 <= slowVel m <= 1 /\
  0 <= smoothedStructure m <= 1 /\
  0 <= smoothedBalance m /\
  0 <= smoothedPostureLean m <= 1.

(** The centre [updatePoseTransform] and [updatePoseAnchor] steer to. *)
Definition torsoCentre (ls rs lh rh : Point.t) : Point.t :=
  Point.mk ((Point.x ls + Point.x rs + Point.x lh + Point.x rh) / 4)
           ((Point.y ls + Point.y rs + Point.y lh + Point.y rh) / 4).

(** The three throttled kinds of call on the display. *)
Definition isEcho (m : Msg) : bool :=
  match m with Echo _ _ => true | _ => false end.
Definition isPoseMetrics (m : Msg) : bool :=
  match m with PoseMetrics _ _ _ _ _ _ => true | _ => false end.
Definition isPoseKeypoints (m : Msg) : bool :=
  match m with PoseKeypoints _ _ _ _ => true | _ => false end.

(** The clock readings at which the log shows a call of one kind. *)
Definition timesOf (kind : Msg -> bool) (log : list (Q * Msg)) : list Q :=
  map fst (List.filter (fun e => kind (snd e)) log).

(** Each reading is at least [d] after the one before it, the first at
    least [d] after [last]. *)
Fixpoint spaced (d last : Q) (ts : list Q) : Prop :=
  match ts with
  | [] => True
  | t :: ts' => d <= t - last /\ spaced d t ts'
  end.

(** Two stores hold the same sliders with equal values. *)
Definition sameValues (m m' : gmap string Q) : Prop :=
  forall k, option_Forall2 Qeq (m !! k) (m' !! k).

(** The calls of one kind a step makes: none, with the throttle mark left
    or moved forward by at least the interval; or one, at least the
    interval after the mark, which moves to the clock. *)
Definition throttled (kind : Msg -> bool) (d mark now mark' : Q) (ms : list Msg) : Prop :=
  (mark' = mark /\ List.filter kind ms = []) \/
  (d <= now - mark /\ mark' = now /\
   (List.filter kind ms = [] \/ exists m, List.filter kind ms = [m])).

(** Two points mirror each other in the vertical line through [ox]. *)
Definition mirrored (ox : Q) (p q : Point.t) : Prop :=
  Point.x p + Point.x q == 2 * ox /\ Point.y p = Point.y q.

(** The session is not flagged ready and is not running. *)
Definition sessionIdle (pg : Page) : Prop :=
  ebSessionReady pg = false /\
  forall sess, ebSession pg = Some sess -> SessionAverager.active sess = false.

(** ** More concrete inputs *)

(** Tracking on and two frames, the figure moving between them. *)
Definition session2 : list Event :=
  [ EvStart; EvPose env0 frameA; EvPose env300 frameB ].

(** The page of [env300] after the canvas was resized to 900 pixels. *)
Definition envTall : Env := mkEnv 640 480 900 100 600.

(** The same clock readings a little later. *)
Definition env350 : Env := mkEnv 640 480 480 100 350.
Definition env700 : Env := mkEnv 640 480 480 100 700.

(** What the detector delivers for [frameA] and [frameB]. *)
Definition resultsA : list (option Detected) := [Some (mkDetected 0.9 frameA)].
Definition resultsB : list (option Detected) := [Some (mkDetected 0.8 frameB)].

(** A run of the page with a control surface: tracking on, three detector
    results with an external write in between, a reset that leaves tracking
    on. *)
Definition pageSession1 : list PageEvent :=
  [ PStart env0 0; PPose env300 300 resultsA; PPose env350 350 resultsB;
    PApply env350 [("joy"%string, 4)] [] false; PPose env700 700 resultsA;
    PReset env700 true true ].

(** A 900 by 450 canvas and the layout [draw] and [setup] derive from it. *)
Definition canvas1 : Canvas := mkCanvas 900 450.

Definition layout1 : Layout :=
  mkLayout (scaleK canvas1) (regionMaxWidths canvas1) (Point.mk 450 225).

(** Two states the sampler may find: the sliders at 0 and at 5. *)
Definition sampledStates : list (Q * State) := [(1, started); (2, wide)].

(** A page on which a session start is queued and the session is ready. *)
Definition pageQueued : Page :=
  mkPage (Some SessionAverager.reset) true true false true false true 0 0 0.

(** A detector frame on which no step of the tick divides by zero or reads
    a missing part: the four named torso parts are there, the shoulders are
    apart (as named parts and as keypoints), and the canvas has a height. *)
Definition wellFormedEvent {M : JSMath} (e : Event) : Prop :=
  match e with
  | EvPose env pose =>
      (exists Ls Rs Lh Rh,
         leftShoulder pose = Some Ls /\ rightShoulder pose = Some Rs /\
         leftHip pose = Some Lh /\ rightHip pose = Some Rh /\
         ~ dist (Point.x Ls) (Point.y Ls) (Point.x Rs) (Point.y Rs) == 0) /\
      (forall ls rs,
         get pose "leftShoulder" = Some ls -> get pose "rightShoulder" = Some rs ->
         ~ dist (Point.x ls) (Point.y ls) (Point.x rs) (Point.y rs) == 0) /\
      ~ height env == 0
  | _ => True
  end.

(** Every slider [setup] creates is there, and the sadness scale, once
    latched, is not zero. *)
Definition slidersPresent (s : State) : Prop :=
  (forall k, k ∈ emotionNames -> is_Some (emotionSliders s !! k)) /\
  (forall b, is_Some (regionSliders s !! sliderOf b)) /\
  (forall v, sadnessInMax s = Some v -> ~ v == 0).

(** A frame on which the detector puts both shoulders at one point. *)
Definition frameFlat : Pose :=
  mkPose
    [ kp "leftShoulder" 300 180 0.9; kp "rightShoulder" 300 180 0.9;
      kp "leftWrist" 410 320 0.8; kp "rightWrist" 230 320 0.8 ]
    (Some (Point.mk 300 180)) (Some (Point.mk 300 180))
    (Some (Point.mk 410 320)) (Some (Point.mk 230 320))
    None None.

(** ** Arithmetic beyond the finite numbers

    The operations of JavaScript on [num], for the places where the source
    divides by a span that can be zero and goes on with the [Infinity] or
    the [NaN] it gets.  A zero is the positive zero: every zero divisor of
    the sketch is a [Math.hypot] or a difference of two equal numbers. *)

(** [-x] *)
Definition nopp (x : num) : num :=
  match x with
  | Fin q => Fin (- q)
  | NaN => NaN
  | PosInf => NegInf
  | NegInf => PosInf
  end.

(** An infinity times, or over, a finite number of the given sign. *)
Definition signed (inf : num) (q : Q) : num :=
  if Qeq_bool q 0 then NaN else if Qlt_bool 0 q then inf else nopp inf.

(** [x + y] *)
Definition nadd (x y : num) : num :=
  match x, y with
  | NaN, _ | _, NaN => NaN
  | Fin a, Fin b => Fin (a + b)
  | PosInf, NegInf | NegInf, PosInf => NaN
  | PosInf, _ | _, PosInf => PosInf
  | NegInf, _ | _, NegInf => NegInf
  end.

(** [x - y] *)
Definition nsub (x y : num) : num :=
  match x, y with
  | Fin a, Fin b => Fin (a - b)
  | _, _ => nadd x (nopp y)
  end.

(** [x * y] *)
Definition nmul (x y : num) : num :=
  match x, y with
  | NaN, _ | _, NaN => NaN
  | Fin a, Fin b => Fin (a * b)
  | Fin a, inf | inf, Fin a => signed inf a
  | PosInf, PosInf | NegInf, NegInf => PosInf
  | PosInf, NegInf | NegInf, PosInf => NegInf
  end.

(** [x / y]: a finite number over zero is an infinity of its sign, zero
    over zero is [NaN]. *)
Definition ndiv (x y : num) : num :=
  match x, y with
  | NaN, _ | _, NaN => NaN
  | Fin a, Fin b =>
      if Qeq_bool b 0
      then if Qeq_bool a 0 then NaN else if Qlt_bool 0 a then PosInf else NegInf
      else Fin (a / b)
  | Fin _, _ => Fin 0
  | inf, Fin b => if Qlt_bool b 0 then nopp inf else inf
  | _, _ => NaN
  end.

(** [Math.min(x, y)] and [Math.max(x, y)]: [NaN] when either is. *)
Definition nmin (x y : num) : num :=
  match x, y with
  | NaN, _ | _, NaN => NaN
  | NegInf, _ | _, NegInf => NegInf
  | PosInf, z | z, PosInf => z
  | Fin a, Fin b => Fin (Qmin a b)
  end.

Definition nmax (x y : num) : num :=
  match x, y with
  | NaN, _ | _, NaN => NaN
  | PosInf, _ | _, PosInf => PosInf
  | NegInf, z | z, NegInf => z
  | Fin a, Fin b => Fin (Qmax a b)
  end.

(** p5.js [map] and the sketch's [clamp01] on a value that may not be
    finite. *)
Definition p5mapN (n : num) (start1 stop1 start2 stop2 : Q) : num :=
  nadd (nmul (ndiv (nsub n (Fin start1)) (Fin (stop1 - start1))) (Fin (stop2 - start2)))
       (Fin start2).

Definition clamp01N (x : num) : num := nmax (Fin 0) (nmin (Fin 1) x).

(** [structure] of the tick as the source computes it, beyond the finite
    numbers: the value [structureOf] gives wherever that one has a value. *)
Definition structureJS {M : JSMath} (pose : Pose) : num :=
  match leftShoulder pose, rightShoulder pose, leftWrist pose, rightWrist pose with
  | Some Ls, Some Rs, Some Lw, Some Rw =>
      let span := dist (Point.x Ls) (Point.y Ls) (Point.x Rs) (Point.y Rs) in
      let lw := ndiv (Fin (dist (Point.x Ls) (Point.y Ls) (Point.x Lw) (Point.y Lw))) (Fin span) in
      let rw := ndiv (Fin (dist (Point.x Rs) (Point.y Rs) (Point.x Rw) (Point.y Rw))) (Fin span) in
      clamp01N (p5mapN (nmul (nadd lw rw) (Fin 0.5)) 0.7 2.0 0 1)
  | _, _, _, _ => Fin 0
  end.

(** Both shoulders and the left wrist at one point. *)
Definition frameKnot : Pose :=
  mkPose
    [ kp "leftShoulder" 300 180 0.9; kp "rightShoulder" 300 180 0.9;
      kp "leftWrist" 300 180 0.8; kp "rightWrist" 230 320 0.8 ]
    (Some (Point.mk 300 180)) (Some (Point.mk 300 180))
    (Some (Point.mk 300 180)) (Some (Point.mk 230 320))
    None None.

(** What [buildSampleForThisFrame] reads, as the JavaScript numbers they
    are: the four smoothed signals, and for every slider object that exists
    the number it holds.  After a tick that left the finite numbers a signal
    or a slider can hold [NaN]. *)
Record Readings : Type := mkReadings {
  rd_structure : num;
  rd_balance : num;
  rd_posture : num;
  rd_velocity : num;
  rd_emotionSliders : gmap string num;
  rd_regionSliders : gmap string num
}.

(** [Number(sliders[n]?.value() || 0)]: a missing slider object, [NaN] and
    zero give 0; an infinity is truthy and stays. *)
Definition numberOr0 (v : option num) : num :=
  match v with
  | Some (Fin q) => Fin (orElse q 0)
  | Some PosInf => PosInf
  | Some NegInf => NegInf
  | Some NaN | None => Fin 0
  end.

(** [buildSampleForThisFrame()] on what it reads. *)
Definition sampleOf (r : Readings) : Sample :=
  {| s_structure := Some (rd_structure r);
     s_balance := Some (rd_balance r);
     s_posture := Some (rd_posture r);
     s_velocity := Some (rd_velocity r);
     s_emotions :=
       Some (list_to_map
               (map (fun n => (n, numberOr0 (rd_emotionSliders r !! n))) emotionNames));
     s_regionWidths :=
       Some (map (fun n => numberOr0 (rd_regionSliders r !! n)) regionNames);
     s_segmentProfile := Some (map Fin segmentProfile) |}.

(** The readings of a state of the finite model. *)
Definition readings (s : State) : Readings :=
  {| rd_structure := Fin (smoothedStructure (metrics s));
     rd_balance := Fin (smoothedBalance (metrics s));
     rd_posture := Fin (smoothedPostureLean (metrics s));
     rd_velocity := Fin (movementVelocity (metrics s));
     rd_emotionSliders := Fin <$> emotionSliders s;
     rd_regionSliders := Fin <$> regionSliders s |}.

(** The [add] calls [emitPoseMetrics] makes when it samples the sketch at
    the readings [rs], each with its clock reading. *)
Definition sampledFrom (rs : list (Q * Readings)) : list (Q * Sample) :=
  map (fun c => (fst c, sampleOf (snd c))) rs.

(** The values of one reading over the sampled frames. *)
Definition readingsOf (f : Readings -> num) (rs : list (Q * Readings)) : list num :=
  map (fun c => f (snd c)) rs.

(** Three sampled frames; on the second one the structure signal is
    [NaN] and the head slider holds [Infinity]. *)
Definition readingsNaN : list (Q * Readings) :=
  [ (0, mkReadings (Fin 0.4) (Fin 12) (Fin 0.2) (Fin 0.1) ∅ ∅);
    (100, mkReadings NaN (Fin 12) (Fin 0.2) (Fin 0.1)
            {[ "joy"%string := NaN ]} {[ "head"%string := PosInf ]});
    (200, mkReadings (Fin 0.8) (Fin 12) (Fin 0.2) (Fin 0.1) ∅ ∅) ].

(** * Theorems *)

(** ** The scalar running mean *)

Lemma Qnat_S (k : nat) : Qnat (S k) == Qnat k + 1.
Proof.
  unfold Qnat. rewrite Nat2Z.inj_succ, <- Z.add_1_r, inject_Z_plus. reflexivity.
Qed.

Lemma Qnat_nonneg (k : nat) : 0 <= Qnat k.
Proof.
  unfold Qnat. change 0 with (inject_Z 0). rewrite <- Zle_Qle. lia.
Qed.

Lemma Qnat_S_pos (k : nat) : 0 < Qnat (S k).
Proof. rewrite Qnat_S. pose proof (Qnat_nonneg k). lra. Qed.

Lemma Qsum_app (l1 l2 : list Q) : Qsum (l1 ++ l2) == Qsum l1 + Qsum l2.
Proof.
  induction l1 as [|a l1 IH].
  - change (Qsum ([] ++ l2)) with (Qsum l2). change (Qsum []) with 0. ring.
  - change (Qsum ((a :: l1) ++ l2)) with (a + Qsum (l1 ++ l2)).
    change (Qsum (a :: l1)) with (a + Qsum l1). rewrite IH. ring.
Qed.

Lemma tracks_new : tracks OnlineMean.new [].
Proof. repeat split; simpl; lra. Qed.

Lemma tracks_add (a : OnlineMean.t) (l : list Q) (x : num) :
  tracks a l -> tracks (OnlineMean.add x a) (l ++ finites [x]).
Proof.
  intros (Hn & Hm & H0).
  destruct x as [q| | |]; simpl; rewrite ?app_nil_r; try (repeat split; assumption).
  split; [|split].
  - rewrite length_app, Hn. simpl. lia.
  - rewrite Qsum_app. simpl. rewrite <- Hm.
    pose proof (Qnat_S_pos (OnlineMean.n a)) as Hp.
    pose proof (Qnat_S (OnlineMean.n a)) as HS.
    assert (Hk : Qnat (OnlineMean.n a) == Qnat (S (OnlineMean.n a)) - 1) by lra.
    rewrite Hk. change (Qsum [q]) with (q + 0). field. lra.
  - discriminate.
Qed.

Lemma finites_cons (x : num) (xs : list num) :
  finites (x :: xs) = finites [x] ++ finites xs.
Proof. destruct x; reflexivity. Qed.

Lemma tracks_feed (xs : list num) (a : OnlineMean.t) (l : list Q) :
  tracks a l -> tracks (feedMean xs a) (l ++ finites xs).
Proof.
  revert a l. induction xs as [|x xs IH]; intros a l Ha.
  - change (finites []) with (@nil Q). rewrite app_nil_r. exact Ha.
  - change (feedMean (x :: xs) a) with (feedMean xs (OnlineMean.add x a)).
    rewrite (finites_cons x xs), app_assoc. apply IH, tracks_add, Ha.
Qed.

Lemma tracks_mean (a : OnlineMean.t) (l : list Q) :
  tracks a l -> OnlineMean.mean a == arith_mean l.
Proof.
  intros (Hn & Hm & H0). unfold arith_mean. rewrite <- Hn.
  destruct (OnlineMean.n a) as [|k] eqn:E.
  - rewrite H0 by reflexivity. destruct l; [|discriminate]. reflexivity.
  - rewrite <- Hm. pose proof (Qnat_S_pos k). field. lra.
Qed.

(** A scalar accumulator that starts fresh holds the arithmetic mean of the
    finite values it was passed, and has counted exactly those. *)
Lemma OnlineMean_correct (xs : list num) :
  OnlineMean.n (feedMean xs OnlineMean.new) = length (finites xs) /\
  OnlineMean.mean (feedMean xs OnlineMean.new) == arith_mean (finites xs).
Proof.
  pose proof (tracks_feed xs _ _ tracks_new) as H. simpl in H.
  split; [apply H | apply tracks_mean, H].
Qed.

(** ** The session averager, field by field *)

Lemma feed_cons (c : Q * Sample) (l : list (Q * Sample)) (s : SessionAverager.t) :
  feed (c :: l) s = feed l (SessionAverager.add (fst c) (snd c) s).
Proof. reflexivity. Qed.

Lemma add_active (now : Q) (smp : Sample) (s : SessionAverager.t) :
  SessionAverager.active (SessionAverager.add now smp s) = SessionAverager.active s.
Proof.
  unfold SessionAverager.add.
  destruct (SessionAverager.active s) eqn:E; simpl; [reflexivity | exact E].
Qed.

(** [add()] on an idle accumulator changes nothing. *)
Lemma add_idle (now : Q) (smp : Sample) (s : SessionAverager.t) :
  SessionAverager.active s = false -> SessionAverager.add now smp s = s.
Proof. intros H. unfold SessionAverager.add. rewrite H. reflexivity. Qed.

Section ScalarFields.

Variable field : SessionAverager.t -> OnlineMean.t.
Variable prop : Sample -> option num.
Hypothesis add_field : forall now smp s,
  SessionAverager.active s = true ->
  field (SessionAverager.add now smp s) = OnlineMean.add (nullish0 (prop smp)) (field s).

Lemma feed_scalar (l : list (Q * Sample)) (s : SessionAverager.t) :
  SessionAverager.active s = true ->
  field (feed l s) = feedMean (supplied prop l) (field s).
Proof.
  revert s. induction l as [|c l IH]; intros s Ha; [reflexivity|].
  rewrite feed_cons, IH by (rewrite add_active; exact Ha).
  rewrite add_field by exact Ha. reflexivity.
Qed.

End ScalarFields.

Lemma feed_emotion (k : string) (l : list (Q * Sample)) (s : SessionAverager.t) :
  SessionAverager.active s = true ->
  SessionAverager.emotions (feed l s) !! k
  = feedMean (suppliedEmotion k l) <$> SessionAverager.emotions s !! k.
Proof.
  revert s. induction l as [|c l IH]; intros s Ha.
  - simpl. destruct (SessionAverager.emotions s !! k); reflexivity.
  - rewrite feed_cons, IH by (rewrite add_active; exact Ha).
    unfold SessionAverager.add. rewrite Ha. simpl.
    unfold suppliedEmotion. simpl.
    destruct (s_emotions (snd c)) as [se|]; simpl.
    + unfold SessionAverager.addEmotions. rewrite map_lookup_imap.
      destruct (SessionAverager.emotions s !! k); reflexivity.
    + reflexivity.
Qed.

Lemma feed_regionWidths (l : list (Q * Sample)) (s : SessionAverager.t) :
  SessionAverager.active s = true ->
  SessionAverager.regionWidths (feed l s)
  = feedArray (suppliedArrays s_regionWidths l) (SessionAverager.regionWidths s).
Proof.
  revert s. induction l as [|c l IH]; intros s Ha; [reflexivity|].
  rewrite feed_cons, IH by (rewrite add_active; exact Ha).
  unfold SessionAverager.add. rewrite Ha. simpl.
  unfold suppliedArrays. simpl.
  destruct (s_regionWidths (snd c)); reflexivity.
Qed.

Lemma feed_segmentProfile (l : list (Q * Sample)) (s : SessionAverager.t) :
  SessionAverager.active s = true ->
  SessionAverager.segmentProfile (feed l s)
  = feedArray (suppliedArrays s_segmentProfile l) (SessionAverager.segmentProfile s).
Proof.
  revert s. induction l as [|c l IH]; intros s Ha; [reflexivity|].
  rewrite feed_cons, IH by (rewrite add_active; exact Ha).
  unfold SessionAverager.add. rewrite Ha. simpl.
  unfold suppliedArrays. simpl.
  destruct (s_segmentProfile (snd c)); reflexivity.
Qed.

Lemma begin_emotions (t0 : Q) (k : string) :
  k ∈ emotionNames ->
  SessionAverager.emotions (SessionAverager.begin t0) !! k = Some OnlineMean.new.
Proof.
  intros Hk. unfold emotionNames in Hk.
  repeat (apply elem_of_cons in Hk as [->|Hk]; [reflexivity|]).
  inversion Hk.
Qed.

(** X1.  The scalar half of the running-mean property: after [begin()] and any
    sequence of [add] calls, each of structure, balance, posture and
    velocity holds the arithmetic mean of the finite values passed to it
    ([sample.f ?? 0]), and so does each emotion over the samples that carry
    an [emotions] object; the field counter is the number of those values. *)
Lemma session_scalar_means (t0 : Q) (l : list (Q * Sample)) :
  let s := feed l (SessionAverager.begin t0) in
  let ok (a : OnlineMean.t) (xs : list num) :=
    OnlineMean.n a = length (finites xs) /\
    OnlineMean.mean a == arith_mean (finites xs) in
  ok (SessionAverager.structure s) (supplied s_structure l) /\
  ok (SessionAverager.balance s) (supplied s_balance l) /\
  ok (SessionAverager.posture s) (supplied s_posture l) /\
  ok (SessionAverager.velocity s) (supplied s_velocity l) /\
  forall k, k ∈ emotionNames ->
    exists a, SessionAverager.emotions s !! k = Some a /\ ok a (suppliedEmotion k l).
Proof.
  intros s ok. subst s ok.
  assert (Hact : SessionAverager.active (SessionAverager.begin t0) = true) by reflexivity.
  assert (Hfield : forall field prop,
    field (SessionAverager.begin t0) = OnlineMean.new ->
    (forall now smp s, SessionAverager.active s = true ->
       field (SessionAverager.add now smp s)
       = OnlineMean.add (nullish0 (prop smp)) (field s)) ->
    OnlineMean.n (field (feed l (SessionAverager.begin t0)))
    = length (finites (supplied prop l)) /\
    OnlineMean.mean (field (feed l (SessionAverager.begin t0)))
    == arith_mean (finites (supplied prop l))).
  { intros field prop Hnew Hadd.
    rewrite (feed_scalar field prop Hadd l _ Hact), Hnew. apply OnlineMean_correct. }
  split; [|split; [|split; [|split]]];
    try (apply Hfield; [reflexivity|]; intros now smp s Hs;
         unfold SessionAverager.add; rewrite Hs; reflexivity).
  intros k Hk. rewrite feed_emotion, begin_emotions by assumption.
  eexists. split; [reflexivity|]. apply OnlineMean_correct.
Qed.

(** ** The vector running mean *)

Lemma step_lookup (cnt : nat) (xs : list num) (ms : list Q) (k i : nat) :
  OnlineMeanArray.step cnt xs ms k !! i
  = if decide (i = k) then foldIn cnt (xs !! i) <$> ms !! i else ms !! i.
Proof.
  unfold OnlineMeanArray.step, foldIn.
  destruct (decide (i = k)) as [->|Hne].
  - destruct (xs !! k) as [[q| | |]|] eqn:Ex; try (destruct (ms !! k); reflexivity).
    destruct (ms !! k) as [m|] eqn:Em.
    + rewrite list_lookup_insert_eq; [reflexivity|]. eapply lookup_lt_Some, Em.
    + rewrite Em. reflexivity.
  - destruct (xs !! k) as [[q| | |]|]; try reflexivity.
    destruct (ms !! k); [|reflexivity].
    apply list_lookup_insert_ne. congruence.
Qed.

Lemma foldl_step_lookup (cnt : nat) (xs : list num) (k : nat) (ms : list Q) (i : nat) :
  foldl (OnlineMeanArray.step cnt xs) ms (seq 0 k) !! i
  = if decide (i < k)%nat then foldIn cnt (xs !! i) <$> ms !! i else ms !! i.
Proof.
  induction k as [|k IH].
  - simpl. destruct (decide (i < 0)%nat); [lia | reflexivity].
  - rewrite seq_S, foldl_app. simpl. rewrite step_lookup.
    destruct (decide (i = k)) as [->|Hne].
    + rewrite IH. rewrite decide_False by lia. rewrite decide_True by lia. reflexivity.
    + rewrite IH. destruct (decide (i < k)%nat); destruct (decide (i < S k)%nat);
        try reflexivity; lia.
Qed.

Lemma foldl_step_length (cnt : nat) (xs : list num) (l : list nat) (ms : list Q) :
  length (foldl (OnlineMeanArray.step cnt xs) ms l) = length ms.
Proof.
  revert ms. induction l as [|k l IH]; intros ms; [reflexivity|].
  simpl. rewrite IH. unfold OnlineMeanArray.step.
  destruct (xs !! k) as [[q| | |]|]; try reflexivity.
  destruct (ms !! k); [apply length_insert | reflexivity].
Qed.

Lemma add_lookup (xs : list num) (a : OnlineMeanArray.t) (i : nat) :
  xs <> [] ->
  OnlineMeanArray.means (OnlineMeanArray.add (Some xs) a) !! i
  = foldIn (S (OnlineMeanArray.n a)) (xs !! i)
      <$> (if (length (OnlineMeanArray.means a) =? length xs)%nat
           then OnlineMeanArray.means a else replicate (length xs) 0) !! i.
Proof.
  intros Hne. unfold OnlineMeanArray.add.
  destruct (length xs =? 0)%nat eqn:E0.
  { apply Nat.eqb_eq in E0. destruct xs; [contradiction | discriminate]. }
  simpl. rewrite foldl_step_lookup.
  destruct (decide (i < length xs)%nat) as [Hlt|Hge]; [reflexivity|].
  set (ms := if (length (OnlineMeanArray.means a) =? length xs)%nat
             then OnlineMeanArray.means a else replicate (length xs) 0).
  assert (Hlen : length ms = length xs).
  { subst ms. destruct (length (OnlineMeanArray.means a) =? length xs)%nat eqn:E.
    - apply Nat.eqb_eq, E.
    - apply length_replicate. }
  rewrite (lookup_ge_None_2 ms i) by lia. reflexivity.
Qed.

Lemma add_length (xs : list num) (a : OnlineMeanArray.t) :
  xs <> [] ->
  length (OnlineMeanArray.means (OnlineMeanArray.add (Some xs) a)) = length xs /\
  OnlineMeanArray.n (OnlineMeanArray.add (Some xs) a) = S (OnlineMeanArray.n a).
Proof.
  intros Hne. unfold OnlineMeanArray.add.
  destruct (length xs =? 0)%nat eqn:E0.
  { apply Nat.eqb_eq in E0. destruct xs; [contradiction | discriminate]. }
  simpl. rewrite foldl_step_length. split; [|reflexivity].
  destruct (length (OnlineMeanArray.means a) =? length xs)%nat eqn:E.
  - apply Nat.eqb_eq, E.
  - apply length_replicate.
Qed.

(** What a length change leaves: the counter goes on from where it was,
    and each finite element [q] is stored as [0 + (q - 0) / n]. *)
Lemma add_length_change (xs : list num) (a : OnlineMeanArray.t) (i : nat) (x : num) :
  xs <> [] ->
  length (OnlineMeanArray.means a) <> length xs ->
  xs !! i = Some x ->
  OnlineMeanArray.n (OnlineMeanArray.add (Some xs) a) = S (OnlineMeanArray.n a) /\
  OnlineMeanArray.means (OnlineMeanArray.add (Some xs) a) !! i
  = Some (foldIn (S (OnlineMeanArray.n a)) (Some x) 0).
Proof.
  intros Hne Hlen Hx. split; [apply add_length, Hne|].
  rewrite add_lookup by exact Hne.
  apply Nat.eqb_neq in Hlen. rewrite Hlen, Hx.
  rewrite lookup_replicate_2 by (eapply lookup_lt_Some, Hx). reflexivity.
Qed.

(** While every array has the established length and only finite elements,
    index [i] of the vector accumulator goes through the states of a scalar
    accumulator fed the elements at index [i]. *)
Lemma array_column (len i : nat) (vs : list (list num)) (a : OnlineMeanArray.t) (m0 : Q) :
  (0 < len)%nat ->
  Forall (fun v => length v = len /\ allFinite v) vs ->
  length (OnlineMeanArray.means a) = len ->
  OnlineMeanArray.means a !! i = Some m0 ->
  let col := feedMean (column i vs) (OnlineMean.mk m0 (OnlineMeanArray.n a)) in
  OnlineMeanArray.means (feedArray vs a) !! i = Some (OnlineMean.mean col) /\
  OnlineMeanArray.n (feedArray vs a) = OnlineMean.n col.
Proof.
  intros Hpos Hvs. revert a m0.
  induction Hvs as [|v vs [Hlen Hfin] Hvs IH]; intros a m0 Ha Hm0; [split; [exact Hm0 | reflexivity]|].
  assert (Hne : v <> []) by (intros ->; simpl in Hlen; lia).
  assert (Hi : (i < len)%nat) by (rewrite <- Ha; eapply lookup_lt_Some, Hm0).
  destruct (lookup_lt_is_Some_2 v i) as [x Hx]; [lia|].
  assert (Hx' : exists q, x = Fin q).
  { unfold allFinite in Hfin. rewrite Forall_forall in Hfin.
    specialize (Hfin x (list_elem_of_lookup_2 _ _ _ Hx)). destruct x; try discriminate. eauto. }
  destruct Hx' as [q ->].
  change (feedArray (v :: vs) a) with (feedArray vs (OnlineMeanArray.add (Some v) a)).
  assert (Hcol : column i (v :: vs) = Fin q :: column i vs).
  { unfold column. simpl. rewrite Hx. reflexivity. }
  rewrite Hcol.
  change (feedMean (Fin q :: column i vs) (OnlineMean.mk m0 (OnlineMeanArray.n a)))
    with (feedMean (column i vs) (OnlineMean.add (Fin q) (OnlineMean.mk m0 (OnlineMeanArray.n a)))).
  destruct (add_length v a Hne) as [Hl Hn].
  simpl OnlineMean.add. rewrite <- Hn.
  apply IH.
  - rewrite Hl. exact Hlen.
  - rewrite add_lookup by exact Hne.
    assert (E : (length (OnlineMeanArray.means a) =? length v)%nat = true)
      by (apply Nat.eqb_eq; lia).
    rewrite E, Hx, Hm0, Hn. reflexivity.
Qed.

(** Under those conditions the vector accumulator that starts from
    [new OnlineMeanArray(len)] holds, at every index, the arithmetic mean of
    the values supplied at that index. *)
Lemma OnlineMeanArray_correct (len i : nat) (vs : list (list num)) :
  Forall (fun v => length v = len /\ allFinite v) vs ->
  (i < len)%nat ->
  exists m,
    OnlineMeanArray.means (feedArray vs (OnlineMeanArray.new len)) !! i = Some m /\
    m == arith_mean (finites (column i vs)) /\
    OnlineMeanArray.n (feedArray vs (OnlineMeanArray.new len))
    = length (finites (column i vs)).
Proof.
  intros Hvs Hi.
  destruct (array_column len i vs (OnlineMeanArray.new len) 0) as [Hm Hn].
  - lia.
  - exact Hvs.
  - apply length_replicate.
  - apply lookup_replicate_2, Hi.
  - destruct (OnlineMean_correct (column i vs)) as [Hcn Hcm].
    eexists. split; [exact Hm|]. split; [exact Hcm|]. rewrite Hn. exact Hcn.
Qed.

(** C1.  The vector accumulator keeps one counter for the whole array and
    increments it before the elements are looked at, so a skipped non-finite
    element is counted all the same: fed [NaN,1,1,1,1,1] and then
    [2,1,1,1,1,1] after [begin()], the region-width field reports mean 1 at
    index 0 with counter 2, while the only finite value supplied at that
    index is 2 (arithmetic mean 2, one value). *)
Theorem vector_mean_counts_skipped_element :
  let calls :=
    [ (1, widthsOnly [NaN; Fin 1; Fin 1; Fin 1; Fin 1; Fin 1]);
      (2, widthsOnly [Fin 2; Fin 1; Fin 1; Fin 1; Fin 1; Fin 1]) ] in
  let field := SessionAverager.regionWidths (feed calls (SessionAverager.begin 0)) in
  let seen := finites (column 0 (suppliedArrays s_regionWidths calls)) in
  seen = [2] /\
  arith_mean seen == 2 /\
  OnlineMeanArray.n field = 2%nat /\
  exists m, OnlineMeanArray.means field !! 0%nat = Some m /\ m == 1 /\ ~ m == arith_mean seen.
Proof.
  cbv zeta. split; [reflexivity|]. split; [reflexivity|]. split; [reflexivity|].
  eexists. split; [reflexivity|]. split; [reflexivity|]. discriminate.
Qed.

(** C2.  On a length change the means are replaced by zeros of the new
    length but the counter is kept: a region-width field that has seen
    [1,1,1,1,1,1] and then receives [4,4,4] ends with means [2,2,2] and
    counter 2, whereas an accumulator that had seen nothing before [4,4,4]
    ends with means [4,4,4] and counter 1. *)
Theorem length_change_keeps_counter :
  let before := OnlineMeanArray.add (Some [Fin 1; Fin 1; Fin 1; Fin 1; Fin 1; Fin 1])
                  (OnlineMeanArray.new 6) in
  let after := OnlineMeanArray.add (Some [Fin 4; Fin 4; Fin 4]) before in
  let fresh := OnlineMeanArray.add (Some [Fin 4; Fin 4; Fin 4]) (OnlineMeanArray.new 3) in
  Forall2 Qeq (OnlineMeanArray.means after) [2; 2; 2] /\
  OnlineMeanArray.n after = 2%nat /\
  Forall2 Qeq (OnlineMeanArray.means fresh) [4; 4; 4] /\
  OnlineMeanArray.n fresh = 1%nat /\
  ~ Forall2 Qeq (OnlineMeanArray.means after) (OnlineMeanArray.means fresh).
Proof.
  cbv zeta. repeat split.
  - repeat constructor.
  - repeat constructor.
  - intros H. inversion H as [|m1 m2 l1 l2 Hm _]; subst. discriminate Hm.
Qed.

(** C5 (as amended).  After [begin()], the three region-width vectors
    [1,2,3,4,5,6], [3,2,1,0,1,2], [2,2,2,2,2,2] leave the mean vector
    [2,2,2,2,8/3,10/3], whatever else the three samples carry and whenever
    they arrive. *)
Theorem three_width_vectors_mean
    (t0 t1 t2 t3 : Q)
    (a1 b1 c1 d1 a2 b2 c2 d2 a3 b3 c3 d3 : option num)
    (e1 e2 e3 : option (gmap string num)) (p1 p2 p3 : option (list num)) :
  let v1 := [Fin 1; Fin 2; Fin 3; Fin 4; Fin 5; Fin 6] in
  let v2 := [Fin 3; Fin 2; Fin 1; Fin 0; Fin 1; Fin 2] in
  let v3 := [Fin 2; Fin 2; Fin 2; Fin 2; Fin 2; Fin 2] in
  let s := feed [ (t1, mkSample a1 b1 c1 d1 e1 (Some v1) p1);
                  (t2, mkSample a2 b2 c2 d2 e2 (Some v2) p2);
                  (t3, mkSample a3 b3 c3 d3 e3 (Some v3) p3) ]
             (SessionAverager.begin t0) in
  Forall2 Qeq (out_regionWidths (fst (SessionAverager.end_ t3 s)))
    [2; 2; 2; 2; 8 # 3; 10 # 3].
Proof.
  cbv zeta. unfold SessionAverager.end_. cbn [fst out_regionWidths].
  rewrite feed_regionWidths by reflexivity.
  vm_compute. repeat constructor.
Qed.

(** C5 as stated fails: the fifth entry of the mean vector is 8/3, not 3. *)
Lemma three_width_vectors_mean_not_3 :
  ~ Forall2 Qeq
      (out_regionWidths (fst (SessionAverager.end_ 3
         (feed [ (1, widthsOnly [Fin 1; Fin 2; Fin 3; Fin 4; Fin 5; Fin 6]);
                 (2, widthsOnly [Fin 3; Fin 2; Fin 1; Fin 0; Fin 1; Fin 2]);
                 (3, widthsOnly [Fin 2; Fin 2; Fin 2; Fin 2; Fin 2; Fin 2]) ]
            (SessionAverager.begin 0)))))
      [2; 2; 2; 2; 3; 10 # 3].
Proof.
  intros H. vm_compute in H.
  do 4 (apply Forall2_cons_1 in H as [_ H]).
  apply Forall2_cons_1 in H as [Hm _]. discriminate Hm.
Qed.

(** ** Counters *)

Lemma OnlineMean_add_n (x : num) (a : OnlineMean.t) :
  (OnlineMean.n a <= OnlineMean.n (OnlineMean.add x a) <= S (OnlineMean.n a))%nat.
Proof. destruct x; simpl; lia. Qed.

Lemma OnlineMeanArray_add_n (arr : option (list num)) (a : OnlineMeanArray.t) :
  (OnlineMeanArray.n a <= OnlineMeanArray.n (OnlineMeanArray.add arr a)
   <= S (OnlineMeanArray.n a))%nat.
Proof.
  destruct arr as [xs|]; simpl; [|lia].
  destruct (length xs =? 0)%nat; simpl; lia.
Qed.

Lemma countersBelow_reset : countersBelow 0 SessionAverager.reset.
Proof.
  unfold countersBelow. simpl. repeat split; try lia.
  intros k a Hk.
  repeat (apply lookup_insert_Some in Hk as [[_ <-]|[_ Hk]]; [simpl; lia|]).
  rewrite lookup_empty in Hk. discriminate.
Qed.

Lemma countersBelow_add (now : Q) (smp : Sample) (s : SessionAverager.t) :
  countersBelow (SessionAverager.samples s) s ->
  countersBelow (SessionAverager.samples (SessionAverager.add now smp s))
    (SessionAverager.add now smp s).
Proof.
  intros (H1 & H2 & H3 & H4 & H5 & H6 & H7).
  unfold SessionAverager.add.
  destruct (SessionAverager.active s); simpl; [|repeat split; assumption].
  unfold countersBelow. simpl.
  pose proof (OnlineMean_add_n (nullish0 (s_structure smp)) (SessionAverager.structure s)).
  pose proof (OnlineMean_add_n (nullish0 (s_balance smp)) (SessionAverager.balance s)).
  pose proof (OnlineMean_add_n (nullish0 (s_posture smp)) (SessionAverager.posture s)).
  pose proof (OnlineMean_add_n (nullish0 (s_velocity smp)) (SessionAverager.velocity s)).
  repeat split; try lia.
  - destruct (s_emotions smp) as [se|].
    + intros k a Hk. unfold SessionAverager.addEmotions in Hk.
      rewrite map_lookup_imap in Hk.
      destruct (SessionAverager.emotions s !! k) as [a0|] eqn:E; [|discriminate].
      simpl in Hk. injection Hk as <-.
      pose proof (H5 k a0 E) as Ha0. simpl in Ha0.
      pose proof (OnlineMean_add_n (nullish0 (se !! k)) a0). simpl. lia.
    + intros k a Hk. pose proof (H5 k a Hk) as Ha. simpl in *. lia.
  - destruct (s_regionWidths smp) as [xs|]; [|lia].
    etransitivity; [apply (proj2 (OnlineMeanArray_add_n (Some xs) _)) | lia].
  - destruct (s_segmentProfile smp) as [xs|]; [|lia].
    etransitivity; [apply (proj2 (OnlineMeanArray_add_n (Some xs) _)) | lia].
Qed.

Lemma countersBelow_exec (ops : list SessionOp) (s : SessionAverager.t) :
  countersBelow (SessionAverager.samples s) s ->
  countersBelow (SessionAverager.samples (foldl execOp s ops)) (foldl execOp s ops).
Proof.
  revert s. induction ops as [|o ops IH]; intros s Hs; [exact Hs|].
  simpl. apply IH. destruct o as [now|now smp|now]; simpl.
  - apply countersBelow_reset.
  - apply countersBelow_add, Hs.
  - exact Hs.
Qed.

(** C10.  In every state a session object can reach, [add] increments the
    top-level [samples] counter exactly when the accumulator is active,
    whatever the sample carries; every field counter is at most [samples],
    which is the count the [end()] snapshot reports; and the two differ
    after one [add] of a sample whose values are all non-finite or absent. *)
Theorem samples_counts_every_add (ops : list SessionOp) (now : Q) (smp : Sample) :
  let s := foldl execOp SessionAverager.reset ops in
  let hollow := mkSample (Some NaN) (Some PosInf) (Some NegInf) (Some NaN) None None None in
  let s1 := SessionAverager.add 1 hollow (SessionAverager.begin 0) in
  SessionAverager.samples (SessionAverager.add now smp s)
  = (if SessionAverager.active s then S (SessionAverager.samples s)
     else SessionAverager.samples s) /\
  countersBelow (SessionAverager.samples s) s /\
  out_samples (fst (SessionAverager.end_ now s)) = SessionAverager.samples s /\
  SessionAverager.samples s1 = 1%nat /\ countersBelow 0 s1.
Proof.
  cbv zeta. split; [|split; [|split; [|split]]].
  - unfold SessionAverager.add.
    destruct (SessionAverager.active (foldl execOp SessionAverager.reset ops)); reflexivity.
  - apply countersBelow_exec, countersBelow_reset.
  - reflexivity.
  - reflexivity.
  - apply countersBelow_reset.
Qed.

(** ** Comparisons, clamping and blending *)

Lemma Qlt_bool_iff (a b : Q) : Qlt_bool a b = true <-> a < b.
Proof.
  unfold Qlt_bool. rewrite negb_true_iff, <- not_true_iff_false, Qle_bool_iff.
  split; [apply Qnot_le_lt | apply Qlt_not_le].
Qed.

Lemma Qgt_bool_iff (a b : Q) : Qgt_bool a b = true <-> b < a.
Proof. apply Qlt_bool_iff. Qed.

Lemma constrain_range (n lo hi : Q) : lo <= hi -> lo <= constrain n lo hi <= hi.
Proof.
  intros H. unfold constrain. split.
  - apply Q.le_max_r.
  - apply Q.max_lub; [apply Q.le_min_r | exact H].
Qed.

Lemma clamp01_range (v : Q) : 0 <= clamp01 v <= 1.
Proof.
  unfold clamp01. split.
  - apply Q.le_max_l.
  - apply Q.max_lub; [lra | apply Q.le_min_l].
Qed.

Lemma lerp_between (a b t lo hi : Q) :
  0 <= t <= 1 -> lo <= a <= hi -> lo <= b <= hi -> lo <= lerp a b t <= hi.
Proof. unfold lerp. intros Ht Ha Hb. split; nra. Qed.

Lemma lerp_in05 (a b t : Q) : 0 <= t <= 1 -> in05 a -> in05 b -> in05 (lerp a b t).
Proof. apply lerp_between. Qed.

Lemma to05_in05 (v lo hi m : Q) : to05 v lo hi = Some m -> in05 m.
Proof.
  unfold to05. destruct (p5map v lo hi 0 5) as [r|]; [|discriminate].
  simpl. intros [= <-]. apply constrain_range. lra.
Qed.

(** ** The slider store *)

Lemma zeroOne_lookup (m : gmap string Q) (a k : string) :
  zeroOne m a !! k = if decide (k = a) then (fun _ => 0) <$> m !! k else m !! k.
Proof.
  unfold zeroOne. destruct (decide (k = a)) as [->|Hne].
  - destruct (m !! a) eqn:E; [rewrite lookup_insert_eq | rewrite E]; reflexivity.
  - destruct (m !! a); [apply lookup_insert_ne; congruence | reflexivity].
Qed.

Lemma foldl_zeroOne_lookup (names : list string) (m : gmap string Q) (k : string) :
  foldl zeroOne m names !! k
  = if decide (k ∈ names) then (fun _ => 0) <$> m !! k else m !! k.
Proof.
  revert m. induction names as [|a names IH]; intros m.
  - destruct (decide (k ∈ [])) as [H|_]; [inversion H | reflexivity].
  - change (foldl zeroOne m (a :: names)) with (foldl zeroOne (zeroOne m a) names).
    rewrite IH, zeroOne_lookup.
    destruct (decide (k ∈ names)) as [Hin|Hnin];
      destruct (decide (k = a)) as [->|Hne];
      destruct (decide (_ ∈ _ :: names)) as [Hc|Hc];
      try reflexivity.
    + destruct (m !! a); reflexivity.
    + exfalso. apply Hc, elem_of_cons. auto.
    + exfalso. apply Hc, elem_of_cons. auto.
    + exfalso. apply Hc, elem_of_cons. auto.
    + apply elem_of_cons in Hc as [?|?]; contradiction.
Qed.

Lemma resetAll_emotionSliders (env : Env) (opts : ResetOpts) (s : State) :
  emotionSliders (resetAll env opts s)
  = foldl zeroOne
      (emotionSliders (if stopTrackingNow opts then stopTracking s else s))
      emotionNames.
Proof. unfold resetAll. destruct (resetPoseCaches opts); reflexivity. Qed.

Lemma resetAll_regionSliders (env : Env) (opts : ResetOpts) (s : State) :
  regionSliders (resetAll env opts s)
  = foldl zeroOne
      (regionSliders (if stopTrackingNow opts then stopTracking s else s))
      (regionNames ++ ["spine"%string]).
Proof. unfold resetAll. destruct (resetPoseCaches opts); reflexivity. Qed.

Lemma resetAll_emotion (env : Env) (opts : ResetOpts) (s : State) (k : string) (v : Q) :
  k ∈ emotionNames -> emotionSliders (resetAll env opts s) !! k = Some v -> v = 0.
Proof.
  intros Hk. rewrite resetAll_emotionSliders, foldl_zeroOne_lookup.
  rewrite decide_True by exact Hk.
  destruct (emotionSliders _ !! k); simpl; congruence.
Qed.

Lemma resetAll_region (env : Env) (opts : ResetOpts) (s : State) (k : string) (v : Q) :
  k ∈ regionNames ++ ["spine"%string] ->
  regionSliders (resetAll env opts s) !! k = Some v -> v = 0.
Proof.
  intros Hk. rewrite resetAll_regionSliders, foldl_zeroOne_lookup.
  rewrite decide_True by exact Hk.
  destruct (regionSliders _ !! k); simpl; congruence.
Qed.

Lemma resetAll_block (env : Env) (opts : ResetOpts) (s : State) :
  blockIncomingUntil (resetAll env opts s) = millis env + RESET_INPUT_BLOCK_MS.
Proof. reflexivity. Qed.

(** C6.  After [resetAll] at clock [millis env0], an [applySliders] call
    without [force] whose clock reading is still below
    [millis env0 + 600] returns at its first test: the state is the one the
    reset left, in which every emotion slider and every region slider
    (spine included) holds 0, whatever values the call carried. *)
Theorem apply_within_cooldown_ignored
    (env0 env1 : Env) (opts : ResetOpts) (s : State)
    (emotion region : list (string * Q)) :
  millis env1 < millis env0 + RESET_INPUT_BLOCK_MS ->
  let s1 := resetAll env0 opts s in
  let s2 := applySliders env1 emotion region false s1 in
  s2 = s1 /\
  (forall k v, k ∈ emotionNames -> emotionSliders s2 !! k = Some v -> v = 0) /\
  (forall k v, k ∈ regionNames ++ ["spine"%string] ->
     regionSliders s2 !! k = Some v -> v = 0).
Proof.
  intros Hlt s1 s2.
  assert (E : s2 = s1).
  { subst s2. unfold applySliders. subst s1. rewrite resetAll_block.
    apply Qlt_bool_iff in Hlt. rewrite Hlt. reflexivity. }
  rewrite E. subst s1. split; [reflexivity|]. split.
  - intros k v. apply resetAll_emotion.
  - intros k v. apply resetAll_region.
Qed.

(** ** The per-part cache *)

Section PartCache.
Context {M : JSMath}.

Lemma point_eta (p : Point.t) : Point.mk (Point.x p) (Point.y p) = p.
Proof. destruct p; reflexivity. Qed.

Lemma regionStep_cache (d : Q) (pose : Pose) (acc : Q * nat * gmap string Point.t)
    (name : string) :
  snd (regionStep d pose acc name) = cacheStep pose (snd acc) name.
Proof.
  destruct acc as [[sum n] c]. unfold regionStep, cacheStep, get.
  destruct (findPart pose name) as [k|]; simpl; [|reflexivity].
  rewrite point_eta. destruct (c !! name); reflexivity.
Qed.

Lemma foldl_regionStep_cache (d : Q) (pose : Pose) (parts : list string)
    (acc : Q * nat * gmap string Point.t) :
  snd (foldl (regionStep d pose) acc parts) = foldl (cacheStep pose) (snd acc) parts.
Proof.
  revert acc. induction parts as [|a parts IH]; intros acc; [reflexivity|].
  simpl. rewrite IH, regionStep_cache. reflexivity.
Qed.

Lemma regionVelocity_cache (env : Env) (pose : Pose) (parts : list string)
    (cache : gmap string Point.t) :
  snd (regionVelocity env pose parts cache) = foldl (cacheStep pose) cache parts.
Proof.
  unfold regionVelocity.
  pose proof (foldl_regionStep_cache (diag env) pose parts (0, 0%nat, cache)) as H.
  destruct (foldl (regionStep (diag env) pose) (0, 0%nat, cache) parts) as [[sum n] c].
  exact H.
Qed.

Lemma foldl_cacheStep_lookup (pose : Pose) (parts : list string)
    (cache : gmap string Point.t) (name : string) :
  foldl (cacheStep pose) cache parts !! name
  = match get pose name with
    | Some pos => if decide (name ∈ parts) then Some pos else cache !! name
    | None => cache !! name
    end.
Proof.
  revert cache. induction parts as [|a parts IH]; intros cache.
  - simpl. destruct (get pose name); [|reflexivity].
    destruct (decide (name ∈ [])) as [H|_]; [inversion H | reflexivity].
  - simpl. rewrite IH. unfold cacheStep.
    destruct (get pose name) as [pos|] eqn:Hn.
    + destruct (decide (name ∈ parts)) as [Hin|Hnin].
      * rewrite decide_True by (apply elem_of_cons; auto). reflexivity.
      * destruct (decide (name = a)) as [Heq|Hne].
        -- rewrite decide_True by (apply elem_of_cons; auto).
           subst a. rewrite Hn. apply lookup_insert_eq.
        -- rewrite decide_False by (intros [?|?]%elem_of_cons; contradiction).
           destruct (get pose a); [apply lookup_insert_ne; congruence | reflexivity].
    + destruct (get pose a) as [pos|] eqn:Ha; [|reflexivity].
      apply lookup_insert_ne. intros ->. congruence.
Qed.

(** Every call overwrites the entry of each part it finds with the current
    position and touches no other entry. *)
Lemma regionVelocity_lookup (env : Env) (pose : Pose) (parts : list string)
    (cache : gmap string Point.t) (name : string) :
  snd (regionVelocity env pose parts cache) !! name
  = match get pose name with
    | Some pos => if decide (name ∈ parts) then Some pos else cache !! name
    | None => cache !! name
    end.
Proof. rewrite regionVelocity_cache. apply foldl_cacheStep_lookup. Qed.

Lemma fresh_after (env : Env) (pose : Pose) (parts : list string)
    (cache : gmap string Point.t) (name : string) :
  name ∈ parts \/ fresh cache pose name ->
  fresh (snd (regionVelocity env pose parts cache)) pose name.
Proof.
  intros H pos prev Hpos. rewrite regionVelocity_lookup, Hpos.
  destruct (decide (name ∈ parts)) as [Hin|Hnin].
  - congruence.
  - destruct H as [?|Hf]; [contradiction|]. intros Hc. exact (Hf pos prev Hpos Hc).
Qed.

Lemma fresh_cacheStep (pose : Pose) (cache : gmap string Point.t) (a name : string) :
  fresh cache pose name -> fresh (cacheStep pose cache a) pose name.
Proof.
  intros Hf pos prev Hpos. unfold cacheStep.
  destruct (get pose a) as [pa|] eqn:Ha; [|apply Hf, Hpos].
  destruct (decide (a = name)) as [->|Hne].
  - rewrite lookup_insert_eq. congruence.
  - rewrite lookup_insert_ne by exact Hne. apply Hf, Hpos.
Qed.

Lemma contribution_fresh (d : Q) (pose : Pose) (cache : gmap string Point.t)
    (name : string) (t : Q) :
  fresh cache pose name -> contribution d pose cache name = Some t -> t == 0.
Proof.
  intros Hf. unfold contribution.
  destruct (findPart pose name) as [k|] eqn:Hk; [|discriminate]. simpl.
  destruct (cache !! name) as [prev|] eqn:Hc; [|discriminate]. simpl.
  intros [= <-].
  assert (prev = position k) as ->.
  { apply (Hf (position k) prev); [unfold get; rewrite Hk; reflexivity | exact Hc]. }
  apply hypot_zero; unfold Qdiv; ring.
Qed.

(** How [regionStep] uses the contribution of a part. *)
Lemma regionStep_contribution (d : Q) (pose : Pose) (sum : Q) (n : nat)
    (cache : gmap string Point.t) (name : string) :
  regionStep d pose (sum, n, cache) name
  = match contribution d pose cache name with
    | Some t => (sum + t, S n, cacheStep pose cache name)
    | None => (sum, n, cacheStep pose cache name)
    end.
Proof.
  unfold regionStep, contribution, cacheStep, get.
  destruct (findPart pose name) as [k|]; simpl; [|reflexivity].
  rewrite point_eta. destruct (cache !! name); reflexivity.
Qed.

Lemma foldl_regionStep_zero (d : Q) (pose : Pose) (parts : list string)
    (sum : Q) (n : nat) (cache : gmap string Point.t) :
  (forall name, name ∈ parts -> fresh cache pose name) ->
  sum == 0 ->
  fst (fst (foldl (regionStep d pose) (sum, n, cache) parts)) == 0.
Proof.
  revert sum n cache. induction parts as [|a parts IH]; intros sum n cache Hf Hs.
  - exact Hs.
  - change (foldl (regionStep d pose) (sum, n, cache) (a :: parts))
      with (foldl (regionStep d pose) (regionStep d pose (sum, n, cache) a) parts).
    rewrite regionStep_contribution.
    assert (Hf' : forall name, name ∈ parts -> fresh (cacheStep pose cache a) pose name).
    { intros name Hin. apply fresh_cacheStep, Hf, elem_of_cons. auto. }
    destruct (contribution d pose cache a) as [t|] eqn:Ht.
    + apply IH; [exact Hf'|].
      apply contribution_fresh in Ht; [|apply Hf, elem_of_cons; auto].
      rewrite Hs, Ht. reflexivity.
    + apply IH; assumption.
Qed.

(** A call that finds every part it reads already cached at its current
    position returns exactly 0. *)
Lemma regionVelocity_zero (env : Env) (pose : Pose) (parts : list string)
    (cache : gmap string Point.t) :
  (forall name, name ∈ parts -> fresh cache pose name) ->
  fst (regionVelocity env pose parts cache) == 0.
Proof.
  intros Hf. unfold regionVelocity.
  pose proof (foldl_regionStep_zero (diag env) pose parts 0 0%nat cache Hf (Qeq_refl 0)) as H.
  destruct (foldl (regionStep (diag env) pose) (0, 0%nat, cache) parts) as [[sum n] c].
  simpl in *. destruct (0 <? n)%nat; [|reflexivity].
  rewrite H. unfold Qdiv. ring.
Qed.

Lemma regionVelocity_nil (env : Env) (pose : Pose) (cache : gmap string Point.t) :
  regionVelocity env pose [] cache = (0, cache).
Proof. reflexivity. Qed.

End PartCache.

(** ** The blocks of the region coupler *)

Section Blocks.
Context {M : JSMath}.

Lemma set_prevByPart_same (s : State) : set_prevByPart (prevByPart s) s = s.
Proof. destruct s; reflexivity. Qed.

Lemma lerpOf_range (b : Block) : 0 <= lerpOf b <= 1.
Proof. destruct b; unfold lerpOf; split; vm_compute; discriminate. Qed.

Ltac ready_yes :=
  let name := fresh "name" in
  let Hin := fresh "Hin" in
  intros name Hin; simpl in Hin;
  repeat (apply elem_of_cons in Hin as [->|Hin]; [eauto|]);
  inversion Hin.

Ltac ready_no part :=
  let Hr := fresh "Hr" in
  intros Hr;
  destruct (Hr part) as [? ?];
    [apply list_elem_of_In; simpl; tauto | congruence].

Ltac skipped part := left; split; [ready_no part | congruence].

Ltac bind_inv H x E := apply bind_Some in H as (x & E & H).

Ltac ran H ERV rs' Hrs :=
  injection H as <-;
  eexists _, rs';
  split; [intros _; apply constrain_range; lra|];
  split; [exact Hrs|]; simpl; rewrite ERV; reflexivity.

(** A block either fails its test and changes nothing, or passes it and
    does what [blockRan] says. *)
Lemma runBlock_spec (b : Block) (env : Env) (pose : Pose) (s s' : State) :
  runBlock b env pose s = Some s' ->
  (~ ready b pose /\ s' = s) \/ (ready b pose /\ blockRan b env pose s s').
Proof.
  intros H. destruct b; simpl in H.
  - right. split; [ready_yes|].
    unfold coupleHead in H.
    destruct (regionVelocity env pose regionKeypoints.head (prevByPart s))
      as [v cache] eqn:ERV.
    bind_inv H val Hval. bind_inv H rs' Hrs. injection H as <-.
    exists val, rs'. split; [intros _; eapply to05_in05, Hval|].
    split; [exact Hrs|]. simpl. rewrite ERV. reflexivity.
  - right. split; [ready_yes|].
    unfold coupleNeck in H.
    destruct (regionVelocity env pose regionKeypoints.neck (prevByPart s))
      as [v cache] eqn:ERV.
    bind_inv H val Hval. bind_inv H rs' Hrs. injection H as <-.
    exists val, rs'. split; [intros _; eapply to05_in05, Hval|].
    split; [exact Hrs|]. simpl. rewrite ERV. reflexivity.
  - unfold coupleArmsHands in H.
    destruct (get pose "leftWrist") as [lw|] eqn:Elw; [|skipped "leftWrist"%string].
    destruct (get pose "rightWrist") as [rw|] eqn:Erw; [|skipped "rightWrist"%string].
    destruct (get pose "leftShoulder") as [ls|] eqn:Els; [|skipped "leftShoulder"%string].
    destruct (get pose "rightShoulder") as [rs|] eqn:Ers; [|skipped "rightShoulder"%string].
    right. split; [ready_yes|].
    cbv zeta in H. bind_inv H base Hbase.
    destruct (regionVelocity env pose regionKeypoints.armsHands (prevByPart s))
      as [v cache] eqn:ERV.
    bind_inv H bo Hbo. bind_inv H rs' Hrs. ran H ERV rs' Hrs.
  - unfold coupleChest in H.
    destruct (get pose "leftShoulder") as [ls|] eqn:Els; [|skipped "leftShoulder"%string].
    destruct (get pose "rightShoulder") as [rs|] eqn:Ers; [|skipped "rightShoulder"%string].
    right. split; [ready_yes|].
    cbv zeta in H. bind_inv H openness Hopen. bind_inv H openVal HopenVal.
    destruct (regionVelocity env pose regionKeypoints.chest (prevByPart s))
      as [v cache] eqn:ERV.
    bind_inv H vVal HvVal. bind_inv H rs' Hrs. ran H ERV rs' Hrs.
  - unfold coupleAbdomen in H.
    destruct (get pose "leftShoulder") as [ls|] eqn:Els; [|skipped "leftShoulder"%string].
    destruct (get pose "rightShoulder") as [rs|] eqn:Ers; [|skipped "rightShoulder"%string].
    destruct (get pose "leftHip") as [lh|] eqn:Elh; [|skipped "leftHip"%string].
    destruct (get pose "rightHip") as [rh|] eqn:Erh; [|skipped "rightHip"%string].
    right. split; [ready_yes|].
    cbv zeta in H. bind_inv H t Ht.
    destruct (regionVelocity env pose regionKeypoints.abdomen (prevByPart s))
      as [v cache] eqn:ERV.
    bind_inv H vVal HvVal. bind_inv H rs' Hrs. ran H ERV rs' Hrs.
  - unfold coupleLegsFeet in H.
    destruct (get pose "leftAnkle") as [la|] eqn:Ela; [|skipped "leftAnkle"%string].
    destruct (get pose "rightAnkle") as [ra|] eqn:Era; [|skipped "rightAnkle"%string].
    destruct (get pose "leftHip") as [lh|] eqn:Elh; [|skipped "leftHip"%string].
    destruct (get pose "rightHip") as [rh|] eqn:Erh; [|skipped "rightHip"%string].
    right. split; [ready_yes|].
    cbv zeta in H. bind_inv H spreadVal Hspread.
    destruct (regionVelocity env pose regionKeypoints.legsFeet (prevByPart s))
      as [v cache] eqn:ERV.
    bind_inv H vVal HvVal. bind_inv H rs' Hrs. ran H ERV rs' Hrs.
  - unfold coupleSpine in H.
    destruct (get pose "leftShoulder") as [ls|] eqn:Els; [|skipped "leftShoulder"%string].
    destruct (get pose "rightShoulder") as [rs|] eqn:Ers; [|skipped "rightShoulder"%string].
    right. split; [ready_yes|].
    cbv zeta in H. bind_inv H spineVal Hspine. bind_inv H rs' Hrs.
    injection H as <-. exists spineVal, rs'.
    split; [intros Hne; contradiction|]. split; [exact Hrs|].
    simpl. rewrite set_prevByPart_same. reflexivity.
Qed.

Lemma coupleRegionsToPose_blocks (env : Env) (pose : Pose) (s : State) :
  coupleRegionsToPose env pose s = runBlocks env pose blockOrder s.
Proof.
  unfold coupleRegionsToPose, blockOrder. simpl.
  destruct (coupleHead env pose s) as [s1|]; simpl; [|reflexivity].
  destruct (coupleNeck env pose s1) as [s2|]; simpl; [|reflexivity].
  destruct (coupleArmsHands env pose s2) as [s3|]; simpl; [|reflexivity].
  destruct (coupleChest env pose s3) as [s4|]; simpl; [|reflexivity].
  destruct (coupleAbdomen env pose s4) as [s5|]; simpl; [|reflexivity].
  destruct (coupleLegsFeet env pose s5) as [s6|]; simpl; [|reflexivity].
  destruct (coupleSpine env pose s6); reflexivity.
Qed.

Lemma runBlocks_app (env : Env) (pose : Pose) (bs1 bs2 : list Block) (s : State) :
  runBlocks env pose (bs1 ++ bs2) s
  = runBlocks env pose bs1 s ≫= runBlocks env pose bs2.
Proof.
  revert s. induction bs1 as [|b bs1 IH]; intros s; [reflexivity|].
  simpl. destruct (runBlock b env pose s) as [s1|]; simpl; [apply IH | reflexivity].
Qed.

Lemma lerpSlider_lookup (r : string) (val t : Q) (m m' : gmap string Q) (k : string) :
  lerpSlider r val t m = Some m' ->
  m' !! k = if decide (k = r) then (fun cur => lerp cur val t) <$> m !! k else m !! k.
Proof.
  unfold lerpSlider. intros H. apply bind_Some in H as (cur & Hcur & [= <-]).
  destruct (decide (k = r)) as [->|Hne].
  - rewrite lookup_insert_eq, Hcur. reflexivity.
  - apply lookup_insert_ne. congruence.
Qed.

Lemma sliderOf_inj (b1 b2 : Block) : sliderOf b1 = sliderOf b2 -> b1 = b2.
Proof. destruct b1, b2; simpl; intros H; try reflexivity; discriminate H. Qed.

Lemma sliderOf_region (b : Block) : sliderOf b ∈ regionNames <-> b <> Spine.
Proof.
  split.
  - intros Hin ->. apply list_elem_of_In in Hin. simpl in Hin.
    repeat (destruct Hin as [Hin|Hin]; [discriminate Hin|]). exact Hin.
  - intros Hne. apply list_elem_of_In.
    destruct b; simpl; tauto.
Qed.

Lemma region_is_slider (r : string) : r ∈ regionNames -> exists b, r = sliderOf b /\ b <> Spine.
Proof.
  unfold regionNames. intros Hin.
  repeat (apply elem_of_cons in Hin as [->|Hin];
          [match goal with
           | |- exists b, ?r = sliderOf b /\ _ =>
               first [ exists Head; split; [reflexivity | discriminate]
                     | exists Neck; split; [reflexivity | discriminate]
                     | exists ArmsHands; split; [reflexivity | discriminate]
                     | exists Chest; split; [reflexivity | discriminate]
                     | exists Abdomen; split; [reflexivity | discriminate]
                     | exists LegsFeet; split; [reflexivity | discriminate] ]
           end|]).
  inversion Hin.
Qed.

(** A block writes no slider but its own and leaves the emotion store, the
    global cache and the clock of the cooldown alone. *)
Lemma runBlock_frame (b : Block) (env : Env) (pose : Pose) (s s' : State) :
  runBlock b env pose s = Some s' ->
  emotionSliders s' = emotionSliders s /\
  prevKeypoints s' = prevKeypoints s /\
  blockIncomingUntil s' = blockIncomingUntil s /\
  forall k, k <> sliderOf b -> regionSliders s' !! k = regionSliders s !! k.
Proof.
  intros H. apply runBlock_spec in H as [[_ ->]|[_ (val & rs' & _ & Hrs & ->)]].
  - repeat split.
  - repeat split. intros k Hk. simpl.
    rewrite (lerpSlider_lookup _ _ _ _ _ k Hrs), decide_False by exact Hk. reflexivity.
Qed.

Lemma runBlock_range (b : Block) (env : Env) (pose : Pose) (s s' : State) :
  runBlock b env pose s = Some s' -> slidersInRange s -> slidersInRange s'.
Proof.
  intros H [He Hr].
  pose proof (runBlock_frame _ _ _ _ _ H) as (Ee & _ & _ & Hframe).
  split; [rewrite Ee; exact He|].
  intros r v Hin Hv.
  destruct (decide (r = sliderOf b)) as [->|Hne].
  - apply runBlock_spec in H as [[_ ->]|[_ (val & rs' & Hval & Hrs & ->)]].
    + exact (Hr _ _ Hin Hv).
    + simpl in Hv. rewrite (lerpSlider_lookup _ _ _ _ _ _ Hrs), decide_True in Hv by reflexivity.
      destruct (regionSliders s !! sliderOf b) as [cur|] eqn:Ecur; [|discriminate].
      injection Hv as <-. apply lerp_in05.
      * apply lerpOf_range.
      * exact (Hr _ _ Hin Ecur).
      * apply Hval, sliderOf_region, Hin.
  - rewrite Hframe in Hv by exact Hne. exact (Hr _ _ Hin Hv).
Qed.

Lemma runBlocks_range (env : Env) (pose : Pose) (bs : list Block) (s s' : State) :
  runBlocks env pose bs s = Some s' -> slidersInRange s -> slidersInRange s'.
Proof.
  revert s. induction bs as [|b bs IH]; intros s H Hs.
  - injection H as <-. exact Hs.
  - simpl in H. apply bind_Some in H as (s1 & H1 & H).
    eapply IH; [exact H|]. eapply runBlock_range; eassumption.
Qed.

(** A block whose test fails leaves its slider at the stored value through
    the whole call. *)
Lemma runBlocks_skipped (env : Env) (pose : Pose) (bs : list Block) (s s' : State)
    (b : Block) :
  runBlocks env pose bs s = Some s' -> ~ ready b pose ->
  regionSliders s' !! sliderOf b = regionSliders s !! sliderOf b.
Proof.
  revert s. induction bs as [|b0 bs IH]; intros s H Hnr.
  - injection H as <-. reflexivity.
  - simpl in H. apply bind_Some in H as (s1 & H1 & H).
    rewrite (IH _ H Hnr).
    destruct (decide (b0 = b)) as [->|Hne].
    + apply runBlock_spec in H1 as [[_ ->]|[Hr _]]; [reflexivity | contradiction].
    + apply runBlock_frame in H1 as (_ & _ & _ & Hframe). apply Hframe.
      intros E. apply sliderOf_inj in E. congruence.
Qed.

End Blocks.

(** ** The affect mapper *)

Section Affect.
Context {M : JSMath}.

Lemma filter_length_0 (pose : Pose) :
  (length (List.filter confident (keypoints pose)) =? 0)%nat = true <->
  List.filter confident (keypoints pose) = [].
Proof.
  rewrite Nat.eqb_eq. destruct (List.filter confident (keypoints pose)); simpl.
  - tauto.
  - split; discriminate.
Qed.

Lemma mapRange_in05 (v : Q) (r : TUNE.range) (p : Q) : mapRange v r = Some p -> in05 p.
Proof.
  unfold mapRange. intros H. apply bind_Some in H as (m & _ & [= <-]).
  apply constrain_range. lra.
Qed.

Lemma blendSlider_range (k : string) (p : Q) (m m' : gmap string Q) :
  blendSlider k p m = Some m' -> in05 p ->
  map_Forall (fun _ v => in05 v) m -> map_Forall (fun _ v => in05 v) m'.
Proof.
  unfold blendSlider. intros H Hp Hm.
  apply bind_Some in H as (cur & Hcur & [= <-]).
  apply map_Forall_insert_2; [|exact Hm].
  apply lerp_in05; [vm_compute; split; discriminate | exact (Hm _ _ Hcur) | exact Hp].
Qed.

(** [updatePoseFactors] either returns at the empty-filter test with the
    state as it was, or replaces the global cache by the filtered keypoints
    of the frame and blends the six emotions; it never touches the region
    store, the per-part cache or the cooldown clock. *)
Lemma updatePoseFactors_spec (env : Env) (pose : Pose) (s s' : State) :
  updatePoseFactors env pose s = Some s' ->
  (List.filter confident (keypoints pose) = [] /\ s' = s) \/
  (List.filter confident (keypoints pose) <> [] /\
   regionSliders s' = regionSliders s /\
   prevByPart s' = prevByPart s /\
   blockIncomingUntil s' = blockIncomingUntil s /\
   trackingStarted s' = trackingStarted s /\
   prevKeypoints s' = Some (tracked pose) /\
   emotionsBlended (emotionSliders s) (emotionSliders s')).
Proof.
  unfold updatePoseFactors. intros H.
  destruct (length (List.filter confident (keypoints pose)) =? 0)%nat eqn:E.
  - left. apply filter_length_0 in E. split; [exact E | congruence].
  - right. split.
    { intros E0. apply filter_length_0 in E0. congruence. }
    cbv zeta in H.
    apply bind_Some in H as (vn & _ & H).
    apply bind_Some in H as (bn & _ & H).
    apply bind_Some in H as (structure & _ & H).
    apply bind_Some in H as (bal & _ & H).
    apply bind_Some in H as (lean & _ & H).
    apply bind_Some in H as (avgY & _ & H).
    apply bind_Some in H as (pAnxiety & HpA & H).
    apply bind_Some in H as (pCalm & HpC & H).
    apply bind_Some in H as (pSadness & HpS & H).
    apply bind_Some in H as (pFear & HpF & H).
    apply bind_Some in H as (pJoy & HpJ & H).
    apply bind_Some in H as (e1 & He1 & H).
    apply bind_Some in H as (e2 & He2 & H).
    apply bind_Some in H as (e3 & He3 & H).
    apply bind_Some in H as (e4 & He4 & H).
    apply bind_Some in H as (e5 & He5 & H).
    apply bind_Some in H as (e6 & He6 & H).
    injection H as <-. simpl.
    repeat (split; [reflexivity|]).
    exists pAnxiety, pCalm, pSadness, pFear, pJoy, (clamp01 bn * 5), e1, e2, e3, e4, e5.
    pose proof (clamp01_range bn) as Hc.
    pose proof (mapRange_in05 _ _ _ HpA) as [? ?].
    pose proof (mapRange_in05 _ _ _ HpC) as [? ?].
    pose proof (mapRange_in05 _ _ _ HpS) as [? ?].
    pose proof (mapRange_in05 _ _ _ HpF) as [? ?].
    pose proof (mapRange_in05 _ _ _ HpJ) as [? ?].
    repeat split; try assumption; lra.
Qed.

Lemma updatePoseFactors_range (env : Env) (pose : Pose) (s s' : State) :
  updatePoseFactors env pose s = Some s' -> slidersInRange s -> slidersInRange s'.
Proof.
  intros H [He Hr].
  apply updatePoseFactors_spec in H
    as [[_ ->]|(_ & Er & _ & _ & _ & _ & Hb)]; [split; assumption|].
  split; [|rewrite Er; exact Hr].
  destruct Hb as (pA & pC & pS & pF & pJ & pG & e1 & e2 & e3 & e4 & e5 &
                  HA & HC & HS & HF & HJ & HG & B1 & B2 & B3 & B4 & B5 & B6).
  eapply blendSlider_range; [exact B6 | exact HG |].
  eapply blendSlider_range; [exact B5 | exact HJ |].
  eapply blendSlider_range; [exact B4 | exact HF |].
  eapply blendSlider_range; [exact B3 | exact HS |].
  eapply blendSlider_range; [exact B2 | exact HC |].
  eapply blendSlider_range; [exact B1 | exact HA | exact He].
Qed.

(** The follow tracker writes nothing but the follow transform. *)
Lemma updatePoseTransform_frame (env : Env) (pose : Pose) (s : State) :
  prevByPart (updatePoseTransform env pose s) = prevByPart s /\
  prevKeypoints (updatePoseTransform env pose s) = prevKeypoints s /\
  emotionSliders (updatePoseTransform env pose s) = emotionSliders s /\
  regionSliders (updatePoseTransform env pose s) = regionSliders s.
Proof.
  unfold updatePoseTransform.
  destruct (getFirst pose "leftShoulder"), (getFirst pose "rightShoulder"),
    (getFirst pose "leftHip"), (getFirst pose "rightHip"); repeat split.
Qed.

Lemma updatePoseAnchor_frame (env : Env) (pose : Pose) (s : State) :
  prevByPart (updatePoseAnchor env pose s) = prevByPart s /\
  prevKeypoints (updatePoseAnchor env pose s) = prevKeypoints s /\
  emotionSliders (updatePoseAnchor env pose s) = emotionSliders s /\
  regionSliders (updatePoseAnchor env pose s) = regionSliders s.
Proof.
  unfold updatePoseAnchor.
  destruct (getFirst pose "leftShoulder"), (getFirst pose "rightShoulder"),
    (getFirst pose "leftHip"), (getFirst pose "rightHip"); repeat split.
Qed.

End Affect.

(** ** External writes *)

Lemma applyOne_lookup (m : gmap string Q) (kv : string * Q) (k : string) :
  applyOne m kv !! k
  = if decide (k = fst kv) then (fun cur => lerp cur (snd kv) 0.35) <$> m !! k
    else m !! k.
Proof.
  unfold applyOne. destruct (decide (k = fst kv)) as [->|Hne].
  - destruct (m !! fst kv) eqn:E; [rewrite lookup_insert_eq | rewrite E]; reflexivity.
  - destruct (m !! fst kv); [apply lookup_insert_ne; congruence | reflexivity].
Qed.

Lemma foldl_applyOne_range (P : string -> Prop) (l : list (string * Q))
    (m : gmap string Q) :
  Forall (fun kv => P (fst kv) -> in05 (snd kv)) l ->
  (forall k v, P k -> m !! k = Some v -> in05 v) ->
  forall k v, P k -> foldl applyOne m l !! k = Some v -> in05 v.
Proof.
  revert m. induction l as [|kv l IH]; intros m Hl Hm k v Hk Hv.
  - exact (Hm k v Hk Hv).
  - apply Forall_cons in Hl as [Hkv Hl].
    simpl in Hv. eapply (IH _ Hl); [|exact Hk|exact Hv].
    intros k' v' Hk' Hv'. rewrite applyOne_lookup in Hv'.
    destruct (decide (k' = fst kv)) as [->|Hne]; [|exact (Hm _ _ Hk' Hv')].
    destruct (m !! fst kv) as [cur|] eqn:Ecur; [|discriminate].
    injection Hv' as <-. apply lerp_in05.
    + split; vm_compute; discriminate.
    + exact (Hm _ _ Hk' Ecur).
    + exact (Hkv Hk').
Qed.

Lemma applySliders_range (env : Env) (emotion region : list (string * Q))
    (force : bool) (s : State) :
  Forall (fun kv => in05 (snd kv)) emotion ->
  Forall (fun kv => fst kv ∈ regionNames -> in05 (snd kv)) region ->
  slidersInRange s -> slidersInRange (applySliders env emotion region force s).
Proof.
  intros Hem Hrg [He Hr]. unfold applySliders.
  destruct (negb force && Qlt_bool (millis env) (blockIncomingUntil s));
    [split; assumption|].
  split; simpl.
  - intros k v Hv.
    eapply (foldl_applyOne_range (fun _ => True)); [| |exact I|exact Hv].
    + eapply Forall_impl; [exact Hem|]. intros kv H _. exact H.
    + intros k' v' _ Hv'. exact (He _ _ Hv').
  - intros r v Hin Hv.
    eapply (foldl_applyOne_range (fun k => k ∈ regionNames)); [exact Hrg| |exact Hin|exact Hv].
    exact Hr.
Qed.

(** ** When a tick stays in the exact fragment *)

Section Definedness.
Context {M : JSMath}.

Lemma fdiv_Some (a b : Q) : ~ b == 0 -> fdiv a b = Some (a / b).
Proof.
  intros Hb. unfold fdiv. destruct (Qeq_bool b 0) eqn:E; [|reflexivity].
  apply Qeq_bool_iff in E. contradiction.
Qed.

Lemma p5map_Some (n a b c d : Q) :
  ~ b - a == 0 -> p5map n a b c d = Some ((n - a) / (b - a) * (d - c) + c).
Proof. intros H. unfold p5map. rewrite fdiv_Some by exact H. reflexivity. Qed.

Lemma to05_Some (v lo hi : Q) : ~ hi - lo == 0 -> is_Some (to05 v lo hi).
Proof. intros H. unfold to05. rewrite p5map_Some by exact H. simpl. eauto. Qed.

Lemma mapRange_Some (v : Q) (r : TUNE.range) :
  ~ TUNE.inMax r - TUNE.inMin r == 0 -> is_Some (mapRange v r).
Proof. intros H. unfold mapRange. rewrite p5map_Some by exact H. simpl. eauto. Qed.

Lemma blendSlider_Some (k : string) (p : Q) (m : gmap string Q) :
  is_Some (m !! k) ->
  exists m', blendSlider k p m = Some m' /\
             forall k', is_Some (m !! k') -> is_Some (m' !! k').
Proof.
  intros [cur Hcur]. unfold blendSlider. rewrite Hcur. simpl.
  eexists. split; [reflexivity|]. intros k' Hk'.
  destruct (decide (k = k')) as [->|Hne].
  - rewrite lookup_insert_eq. eauto.
  - rewrite lookup_insert_ne by exact Hne. exact Hk'.
Qed.

Lemma is_Some_bind {A B : Type} (m : option A) (f : A -> option B) :
  is_Some m -> (forall x, m = Some x -> is_Some (f x)) -> is_Some (m ≫= f).
Proof. intros [x ->] H. simpl. apply H. reflexivity. Qed.

Lemma p5map_is_Some (n a b c d : Q) : ~ b - a == 0 -> is_Some (p5map n a b c d).
Proof. intros H. rewrite p5map_Some by exact H. eauto. Qed.

Lemma blendSlider_keys (k : string) (p : Q) (m m' : gmap string Q) (k' : string) :
  blendSlider k p m = Some m' -> is_Some (m !! k') -> is_Some (m' !! k').
Proof.
  unfold blendSlider. intros H Hk'. apply bind_Some in H as (cur & Hcur & [= <-]).
  destruct (decide (k = k')) as [->|Hne].
  - rewrite lookup_insert_eq. eauto.
  - rewrite lookup_insert_ne by exact Hne. exact Hk'.
Qed.

Lemma blendSlider_is_Some (k : string) (p : Q) (m : gmap string Q) :
  is_Some (m !! k) -> is_Some (blendSlider k p m).
Proof. intros [cur Hcur]. unfold blendSlider. rewrite Hcur. simpl. eauto. Qed.

(** [updatePoseFactors] returns a state when the four named torso parts
    are there, the shoulders do not coincide (the span divides when both
    wrists are there), [Math.PI] is not 0, the canvas height the sadness
    range falls back to is not 0, and the six emotion sliders exist. *)
Lemma updatePoseFactors_defined (env : Env) (pose : Pose) (s : State)
    (Ls Rs Lh Rh : Point.t) :
  leftShoulder pose = Some Ls -> rightShoulder pose = Some Rs ->
  leftHip pose = Some Lh -> rightHip pose = Some Rh ->
  ~ dist (Point.x Ls) (Point.y Ls) (Point.x Rs) (Point.y Rs) == 0 ->
  ~ PI == 0 ->
  ~ match sadnessInMax s with Some v => v | None => height env end == 0 ->
  (forall k, k ∈ emotionNames -> is_Some (emotionSliders s !! k)) ->
  is_Some (updatePoseFactors env pose s).
Proof.
  intros HLs HRs HLh HRh Hspan Hpi Hmax Hsl.
  assert (Hk : forall k, In k emotionNames -> is_Some (emotionSliders s !! k))
    by (intros k Hin; apply Hsl, list_elem_of_In, Hin).
  unfold updatePoseFactors.
  destruct (length (List.filter confident (keypoints pose)) =? 0)%nat; [eauto|].
  cbv zeta.
  apply is_Some_bind; [apply p5map_is_Some; vm_compute; discriminate | intros vn _].
  apply is_Some_bind; [apply p5map_is_Some; vm_compute; discriminate | intros bn _].
  apply is_Some_bind; [|intros st _].
  { unfold structureOf. rewrite HLs, HRs.
    destruct (leftWrist pose) as [Lw|]; [|eauto].
    destruct (rightWrist pose) as [Rw|]; [|eauto].
    rewrite !fdiv_Some by exact Hspan.
    apply is_Some_bind; [eauto | intros lw _].
    apply is_Some_bind; [eauto | intros rw _].
    apply is_Some_bind; [apply p5map_is_Some; vm_compute; discriminate | intros m _].
    eauto. }
  apply is_Some_bind; [|intros bal _].
  { unfold balanceOf. rewrite HLs, HRs, HLh, HRh. simpl. eauto. }
  apply is_Some_bind; [|intros lean _].
  { unfold leanOf. rewrite HLs, HRs, HLh, HRh.
    apply is_Some_bind; [|intros m _; eauto].
    apply p5map_is_Some. intros E. apply Hpi.
    assert (E' : PI / 6 == 0) by (rewrite <- E; ring).
    assert (E6 : PI == PI / 6 * 6) by field.
    rewrite E6, E'. ring. }
  apply is_Some_bind; [|intros avgY _].
  { unfold avgYOf. rewrite HLs, HRs. simpl. eauto. }
  apply is_Some_bind; [apply mapRange_Some; vm_compute; discriminate | intros pA _].
  apply is_Some_bind; [apply mapRange_Some; vm_compute; discriminate | intros pC _].
  apply is_Some_bind; [|intros pS _].
  { apply mapRange_Some. simpl. intros E. apply Hmax.
    unfold TUNE.emotions.sadnessFromAvgY_inMin in E. lra. }
  apply is_Some_bind; [apply mapRange_Some; vm_compute; discriminate | intros pF _].
  apply is_Some_bind; [apply mapRange_Some; vm_compute; discriminate | intros pJ _].
  apply is_Some_bind; [apply blendSlider_is_Some, Hk; simpl; tauto | intros e1 H1].
  apply is_Some_bind;
    [apply blendSlider_is_Some, (blendSlider_keys _ _ _ _ _ H1), Hk; simpl; tauto
    | intros e2 H2].
  apply is_Some_bind;
    [apply blendSlider_is_Some, (blendSlider_keys _ _ _ _ _ H2),
       (blendSlider_keys _ _ _ _ _ H1), Hk; simpl; tauto
    | intros e3 H3].
  apply is_Some_bind;
    [apply blendSlider_is_Some, (blendSlider_keys _ _ _ _ _ H3),
       (blendSlider_keys _ _ _ _ _ H2), (blendSlider_keys _ _ _ _ _ H1), Hk; simpl; tauto
    | intros e4 H4].
  apply is_Some_bind;
    [apply blendSlider_is_Some, (blendSlider_keys _ _ _ _ _ H4),
       (blendSlider_keys _ _ _ _ _ H3), (blendSlider_keys _ _ _ _ _ H2),
       (blendSlider_keys _ _ _ _ _ H1), Hk; simpl; tauto
    | intros e5 H5].
  apply is_Some_bind;
    [apply blendSlider_is_Some, (blendSlider_keys _ _ _ _ _ H5),
       (blendSlider_keys _ _ _ _ _ H4), (blendSlider_keys _ _ _ _ _ H3),
       (blendSlider_keys _ _ _ _ _ H2), (blendSlider_keys _ _ _ _ _ H1), Hk; simpl; tauto
    | intros e6 H6].
  eauto.
Qed.

Lemma lerpSlider_is_Some (r : string) (val t : Q) (m : gmap string Q) :
  is_Some (m !! r) -> is_Some (lerpSlider r val t m).
Proof. intros [cur Hcur]. unfold lerpSlider. rewrite Hcur. simpl. eauto. Qed.

Ltac to05_ok := apply to05_Some; vm_compute; discriminate.

(** A block returns a state when its slider exists and, for the chest block
    with both wrists found, the found shoulders do not coincide. *)
Lemma runBlock_defined (b : Block) (env : Env) (pose : Pose) (s : State) :
  is_Some (regionSliders s !! sliderOf b) ->
  (forall ls rs, get pose "leftShoulder" = Some ls -> get pose "rightShoulder" = Some rs ->
     ~ dist (Point.x ls) (Point.y ls) (Point.x rs) (Point.y rs) == 0) ->
  is_Some (runBlock b env pose s).
Proof.
  intros Hsl Hspan. destruct b; simpl in *.
  - unfold coupleHead.
    destruct (regionVelocity env pose regionKeypoints.head (prevByPart s)) as [v cache].
    apply is_Some_bind; [to05_ok | intros val _].
    apply is_Some_bind; [apply lerpSlider_is_Some, Hsl | intros rs' _]. eauto.
  - unfold coupleNeck.
    destruct (regionVelocity env pose regionKeypoints.neck (prevByPart s)) as [v cache].
    apply is_Some_bind; [to05_ok | intros val _].
    apply is_Some_bind; [apply lerpSlider_is_Some, Hsl | intros rs' _]. eauto.
  - unfold coupleArmsHands.
    destruct (get pose "leftWrist"); [|eauto]. destruct (get pose "rightWrist"); [|eauto].
    destruct (get pose "leftShoulder"); [|eauto]. destruct (get pose "rightShoulder"); [|eauto].
    cbv zeta. apply is_Some_bind; [to05_ok | intros base _].
    destruct (regionVelocity env pose regionKeypoints.armsHands (prevByPart s)) as [v cache].
    apply is_Some_bind; [to05_ok | intros bo _].
    apply is_Some_bind; [apply lerpSlider_is_Some, Hsl | intros rs' _]. eauto.
  - unfold coupleChest.
    destruct (get pose "leftShoulder") as [ls|]; [|eauto].
    destruct (get pose "rightShoulder") as [rs|]; [|eauto].
    cbv zeta. apply is_Some_bind; [|intros openness _].
    { destruct (get pose "leftWrist"); [|eauto]. destruct (get pose "rightWrist"); [|eauto].
      rewrite !fdiv_Some by (apply Hspan; reflexivity). simpl. eauto. }
    apply is_Some_bind; [to05_ok | intros openVal _].
    destruct (regionVelocity env pose regionKeypoints.chest (prevByPart s)) as [v cache].
    apply is_Some_bind; [to05_ok | intros vVal _].
    apply is_Some_bind; [apply lerpSlider_is_Some, Hsl | intros rs' _]. eauto.
  - unfold coupleAbdomen.
    destruct (get pose "leftShoulder"); [|eauto]. destruct (get pose "rightShoulder"); [|eauto].
    destruct (get pose "leftHip"); [|eauto]. destruct (get pose "rightHip"); [|eauto].
    cbv zeta. apply is_Some_bind; [to05_ok | intros tl _].
    destruct (regionVelocity env pose regionKeypoints.abdomen (prevByPart s)) as [v cache].
    apply is_Some_bind; [to05_ok | intros vVal _].
    apply is_Some_bind; [apply lerpSlider_is_Some, Hsl | intros rs' _]. eauto.
  - unfold coupleLegsFeet.
    destruct (get pose "leftAnkle"); [|eauto]. destruct (get pose "rightAnkle"); [|eauto].
    destruct (get pose "leftHip"); [|eauto]. destruct (get pose "rightHip"); [|eauto].
    cbv zeta. apply is_Some_bind; [to05_ok | intros spreadVal _].
    destruct (regionVelocity env pose regionKeypoints.legsFeet (prevByPart s)) as [v cache].
    apply is_Some_bind; [to05_ok | intros vVal _].
    apply is_Some_bind; [apply lerpSlider_is_Some, Hsl | intros rs' _]. eauto.
  - unfold coupleSpine.
    destruct (get pose "leftShoulder"); [|eauto]. destruct (get pose "rightShoulder"); [|eauto].
    cbv zeta. apply is_Some_bind; [|intros spineVal _].
    { apply p5map_is_Some. vm_compute. discriminate. }
    apply is_Some_bind; [apply lerpSlider_is_Some, Hsl | intros rs' _]. eauto.
Qed.

Lemma runBlock_keys (b : Block) (env : Env) (pose : Pose) (s s' : State) (k : string) :
  runBlock b env pose s = Some s' ->
  is_Some (regionSliders s !! k) -> is_Some (regionSliders s' !! k).
Proof.
  intros H Hk. apply runBlock_spec in H as [[_ ->]|[_ (val & rs' & _ & Hrs & ->)]]; [exact Hk|].
  simpl. rewrite (lerpSlider_lookup _ _ _ _ _ k Hrs).
  destruct (decide (k = sliderOf b)); [|exact Hk].
  destruct Hk as [cur ->]. simpl. eauto.
Qed.

(** [coupleRegionsToPose] returns a state when the seven region sliders
    exist and the shoulders it finds do not coincide. *)
Lemma coupleRegionsToPose_defined (env : Env) (pose : Pose) (s : State) :
  (forall b, is_Some (regionSliders s !! sliderOf b)) ->
  (forall ls rs, get pose "leftShoulder" = Some ls -> get pose "rightShoulder" = Some rs ->
     ~ dist (Point.x ls) (Point.y ls) (Point.x rs) (Point.y rs) == 0) ->
  is_Some (coupleRegionsToPose env pose s).
Proof.
  intros Hsl Hspan. rewrite coupleRegionsToPose_blocks.
  generalize blockOrder. intros bs. revert s Hsl.
  induction bs as [|b bs IH]; intros s Hsl; [simpl; eauto|].
  simpl. apply is_Some_bind; [apply runBlock_defined; auto|].
  intros s1 H1. apply IH. intros b'. eapply runBlock_keys; [exact H1 | apply Hsl].
Qed.

End Definedness.

(** ** Range of the slider store *)

Section Range.
Context {M : JSMath}.

(** Each write keeps the store in range: a pose-driven write always, an
    [applySliders] write when the supplied values are in range. *)
Lemma write_keeps_range
    (env : Env) (pose : Pose) (emotion region : list (string * Q))
    (force : bool) (s : State) :
  slidersInRange s ->
  (forall s', updatePoseFactors env pose s = Some s' -> slidersInRange s') /\
  (forall s', coupleRegionsToPose env pose s = Some s' -> slidersInRange s') /\
  (Forall (fun kv => in05 (snd kv)) emotion ->
   Forall (fun kv => fst kv ∈ regionNames -> in05 (snd kv)) region ->
   slidersInRange (applySliders env emotion region force s)).
Proof.
  intros Hs. split; [|split].
  - intros s' H. eapply updatePoseFactors_range; eassumption.
  - intros s' H. rewrite coupleRegionsToPose_blocks in H.
    eapply runBlocks_range; eassumption.
  - intros He Hr. apply applySliders_range; assumption.
Qed.

Lemma onPose_range (env : Env) (pose : Pose) (s s' : State) :
  onPose env pose s = Some s' -> slidersInRange s -> slidersInRange s'.
Proof.
  unfold onPose. intros H Hs.
  destruct (negb (trackingStarted s)); [congruence|].
  apply bind_Some in H as (s1 & H1 & H).
  apply bind_Some in H as (s2 & H2 & [= <-]).
  destruct (write_keeps_range env pose [] [] false s Hs) as (Hf & _ & _).
  specialize (Hf s1 H1).
  assert (Ht : slidersInRange (updatePoseTransform env pose s1)).
  { destruct (updatePoseTransform_frame env pose s1) as (_ & _ & Ee & Er).
    destruct Hf as [He Hr]. split; [rewrite Ee; exact He | rewrite Er; exact Hr]. }
  destruct (write_keeps_range env pose [] [] false _ Ht) as (_ & Hc & _).
  specialize (Hc s2 H2).
  destruct (updatePoseAnchor_frame env pose s2) as (_ & _ & Ee & Er).
  destruct Hc as [He Hr]. split; [rewrite Ee; exact He | rewrite Er; exact Hr].
Qed.

Lemma resetAll_range (env : Env) (opts : ResetOpts) (s : State) :
  slidersInRange s -> slidersInRange (resetAll env opts s).
Proof.
  intros [He Hr].
  assert (Es : emotionSliders (if stopTrackingNow opts then stopTracking s else s)
               = emotionSliders s /\
               regionSliders (if stopTrackingNow opts then stopTracking s else s)
               = regionSliders s).
  { unfold stopTracking.
    destruct (stopTrackingNow opts), (negb (trackingStarted s)); split; reflexivity. }
  destruct Es as [Ee Er]. split.
  - intros k v Hv. rewrite resetAll_emotionSliders, foldl_zeroOne_lookup, Ee in Hv.
    destruct (decide (k ∈ emotionNames)); [|exact (He k v Hv)].
    destruct (emotionSliders s !! k); [|discriminate].
    injection Hv as <-. split; [apply Qle_refl | discriminate].
  - intros r v Hin Hv. rewrite resetAll_regionSliders, foldl_zeroOne_lookup, Er in Hv.
    destruct (decide (r ∈ regionNames ++ ["spine"%string])); [|exact (Hr r v Hin Hv)].
    destruct (regionSliders s !! r); [|discriminate].
    injection Hv as <-. split; [apply Qle_refl | discriminate].
Qed.

Lemma step_range (e : Event) (s s' : State) :
  suppliedInRange e -> step s e = Some s' -> slidersInRange s -> slidersInRange s'.
Proof.
  destruct e as [|env pose|env emotion region force|env opts]; simpl; intros Hin H Hs.
  - injection H as <-. unfold startTracking.
    destruct (trackingStarted s); [exact Hs|]. exact Hs.
  - eapply onPose_range; eassumption.
  - injection H as <-. destruct Hin as [Hem Hrg].
    apply applySliders_range; assumption.
  - injection H as <-. apply resetAll_range, Hs.
Qed.

(** C3 (as amended).  Along every finite sequence of events (tracking
    switched on, detector frames, external [applySliders] writes, resets)
    that starts in a state whose stored emotion values and region widths
    are in [0,5], they are in [0,5] after every event, provided that the
    values the external writes supply are themselves in [0,5]
    ([applySliders] blends the supplied value in without clamping it), and
    that every tick completes within the finite numbers: no tick throws,
    reads a coordinate of a missing shoulder or hip, or divides by zero.
    (A tick that divides zero by zero goes on with [NaN] in the source and
    is no part of the statement; the keys of a write are names of sliders
    or of nothing, see [applyOne].) *)
Theorem sliders_stay_in_range (es : list Event) (s0 s : State) :
  slidersInRange s0 ->
  Forall suppliedInRange es ->
  run es s0 = Some s ->
  slidersInRange s.
Proof.
  intros Hs0 Hes. revert s0 Hs0.
  induction Hes as [|e es He Hes IH]; intros s0 Hs0 H.
  - injection H as <-. exact Hs0.
  - simpl in H. apply bind_Some in H as (s1 & H1 & H).
    apply (IH s1); [|exact H]. eapply step_range; eassumption.
Qed.

(** C4 (as amended).  For the arms and hands, chest, abdomen, legs and feet
    and spine blocks: when a keypoint that the test around the block names
    is not found above the threshold, the slider of that block holds after
    [coupleRegionsToPose] the value it held before.  (The head and neck
    blocks have no test; [required] is empty for them.) *)
Theorem guarded_region_keeps_value
    (env : Env) (pose : Pose) (s s' : State) (b : Block) (name : string) :
  coupleRegionsToPose env pose s = Some s' ->
  name ∈ required b ->
  get pose name = None ->
  regionSliders s' !! sliderOf b = regionSliders s !! sliderOf b.
Proof.
  intros H Hin Hnone. rewrite coupleRegionsToPose_blocks in H.
  eapply runBlocks_skipped; [exact H|].
  intros Hr. destruct (Hr name Hin) as [pos Hpos]. congruence.
Qed.

Lemma findPart_none_get (pose : Pose) (name : string) :
  findPart pose name = None <-> get pose name = None.
Proof. unfold get. destruct (findPart pose name); simpl; split; congruence. Qed.

Lemma foldl_cacheStep_none (pose : Pose) (parts : list string) (cache : gmap string Point.t) :
  (forall name, name ∈ parts -> get pose name = None) ->
  foldl (cacheStep pose) cache parts = cache.
Proof.
  revert cache. induction parts as [|a parts IH]; intros cache Hn; [reflexivity|].
  simpl. unfold cacheStep at 2. rewrite (Hn a) by (apply elem_of_cons; auto).
  apply IH. intros name Hin. apply Hn, elem_of_cons. auto.
Qed.

Lemma foldl_regionStep_none (d : Q) (pose : Pose) (parts : list string)
    (acc : Q * nat * gmap string Point.t) :
  (forall name, name ∈ parts -> get pose name = None) ->
  foldl (regionStep d pose) acc parts = acc.
Proof.
  revert acc. induction parts as [|a parts IH]; intros acc Hn; [reflexivity|].
  change (foldl (regionStep d pose) acc (a :: parts))
    with (foldl (regionStep d pose) (regionStep d pose acc a) parts).
  assert (E : regionStep d pose acc a = acc).
  { destruct acc as [[sum n] c]. unfold regionStep.
    assert (Ha : findPart pose a = None)
      by (apply findPart_none_get, Hn, elem_of_cons; auto).
    rewrite Ha. reflexivity. }
  rewrite E. apply IH. intros name Hin. apply Hn, elem_of_cons. auto.
Qed.

(** A call that finds none of its parts returns 0 and leaves the cache as
    it was. *)
Lemma regionVelocity_none (env : Env) (pose : Pose) (parts : list string)
    (cache : gmap string Point.t) :
  (forall name, name ∈ parts -> get pose name = None) ->
  regionVelocity env pose parts cache = (0, cache).
Proof.
  intros Hn. unfold regionVelocity. rewrite foldl_regionStep_none by exact Hn.
  reflexivity.
Qed.

(** The head and neck blocks run on every frame: when none of their
    keypoints is found the velocity is 0, the estimate is 0, and the stored
    value is blended toward 0. *)
Lemma unguarded_block_decays (b : Block) (env : Env) (pose : Pose) (s s' : State) :
  b = Head \/ b = Neck ->
  (forall name, name ∈ partsOf b -> get pose name = None) ->
  runBlock b env pose s = Some s' ->
  regionSliders s' !! sliderOf b
  = (fun cur => lerp cur 0 (lerpOf b)) <$> regionSliders s !! sliderOf b.
Proof.
  intros [-> | ->] Hn H; simpl in *.
  - unfold coupleHead in H. rewrite regionVelocity_none in H by exact Hn.
    change (to05 0 TUNE.coupling.head.velMin TUNE.coupling.head.velMax)
      with (Some 0) in H.
    simpl in H. apply bind_Some in H as (rs' & Hrs & [= <-]). simpl.
    rewrite (lerpSlider_lookup _ _ _ _ _ _ Hrs), decide_True by reflexivity.
    reflexivity.
  - unfold coupleNeck in H. rewrite regionVelocity_none in H by exact Hn.
    change (to05 0 TUNE.coupling.neck.velMin TUNE.coupling.neck.velMax)
      with (Some 0) in H.
    simpl in H. apply bind_Some in H as (rs' & Hrs & [= <-]). simpl.
    rewrite (lerpSlider_lookup _ _ _ _ _ _ Hrs), decide_True by reflexivity.
    reflexivity.
Qed.

End Range.

(** ** Two ticks on the same filtered keypoints *)

Section Ticks.
Context {M : JSMath}.

Lemma confident_iff (k : Keypoint) :
  confident k = true <-> TUNE.velocity.kpMinScore < score k.
Proof. apply Qgt_bool_iff. Qed.

(** Every lookup of the coupler sees the frame through its filtered
    keypoints only. *)
Lemma get_tracked (pose : Pose) (name : string) :
  get pose name
  = snd <$> List.find (fun e => String.eqb (fst e) name) (tracked pose).
Proof.
  unfold get, findPart, tracked.
  induction (keypoints pose) as [|k ks IH]; [reflexivity|].
  simpl. destruct (confident k) eqn:Ec; simpl.
  - rewrite andb_true_r. destruct (String.eqb (part k) name); [reflexivity | exact IH].
  - rewrite andb_false_r. exact IH.
Qed.

Lemma get_same (p1 p2 : Pose) (name : string) :
  tracked p2 = tracked p1 -> get p2 name = get p1 name.
Proof. intros E. rewrite !get_tracked, E. reflexivity. Qed.

Lemma tracked_nil_get (pose : Pose) (name : string) :
  List.filter confident (keypoints pose) = [] -> get pose name = None.
Proof. intros E. rewrite get_tracked. unfold tracked. rewrite E. reflexivity. Qed.

Lemma find_unique (l : list (string * Point.t)) (a : string) (b : Point.t) :
  NoDup (map fst l) -> (a, b) ∈ l ->
  List.find (fun e => String.eqb (fst e) a) l = Some (a, b).
Proof.
  induction l as [|[a0 b0] l IH]; intros Hnd Hin; [inversion Hin|].
  simpl in *. apply NoDup_cons in Hnd as [Hnotin Hnd].
  apply elem_of_cons in Hin as [[= -> ->]|Hin].
  - rewrite String.eqb_refl. reflexivity.
  - destruct (String.eqb a0 a) eqn:E.
    + apply String.eqb_eq in E as ->. exfalso. apply Hnotin.
      apply list_elem_of_fmap. exists (a, b). split; [reflexivity | exact Hin].
    + apply IH; assumption.
Qed.

Lemma foldl_velStep_zero (pk : list (string * Point.t)) (d : Q) (kp : list Keypoint)
    (sum : Q) (n : nat) :
  NoDup (map fst pk) ->
  (forall k, k ∈ kp -> (part k, position k) ∈ pk) ->
  sum == 0 ->
  fst (foldl (velStep pk d) (sum, n) kp) == 0.
Proof.
  intros Hnd. revert sum n. induction kp as [|k kp IH]; intros sum n Hin Hs.
  - exact Hs.
  - change (foldl (velStep pk d) (sum, n) (k :: kp))
      with (foldl (velStep pk d) (velStep pk d (sum, n) k) kp).
    unfold velStep at 2.
    rewrite (find_unique pk (part k) (position k) Hnd)
      by (apply Hin, elem_of_cons; auto).
    simpl. apply IH.
    + intros k' Hk'. apply Hin, elem_of_cons. auto.
    + rewrite Hs. rewrite hypot_zero; [reflexivity | unfold Qdiv; ring ..].
Qed.

(** The raw global velocity of a frame measured against its own filtered
    keypoints is 0. *)
Lemma velAvg_same (env : Env) (pose : Pose) (prev : list (string * Point.t)) :
  prev = tracked pose -> NoDup (map fst (tracked pose)) ->
  velAvg env (Some prev) (List.filter confident (keypoints pose)) == 0.
Proof.
  intros -> Hnd. unfold velAvg.
  pose proof (foldl_velStep_zero (tracked pose) (diag env)
                (List.filter confident (keypoints pose)) 0 0%nat Hnd) as H.
  destruct (foldl (velStep (tracked pose) (diag env)) (0, 0%nat)
              (List.filter confident (keypoints pose))) as [sum n].
  simpl in H. destruct (0 <? n)%nat; [|reflexivity].
  rewrite H; [unfold Qdiv; ring | | reflexivity].
  intros k Hk. unfold tracked. apply list_elem_of_fmap. exists k. split; [reflexivity | exact Hk].
Qed.

Lemma velAvg_nil (env : Env) (prev : option (list (string * Point.t))) :
  velAvg env prev [] = 0.
Proof. destruct prev; reflexivity. Qed.

Lemma runBlock_cache (b : Block) (env : Env) (pose : Pose) (s s' : State) :
  runBlock b env pose s = Some s' ->
  (~ ready b pose /\ prevByPart s' = prevByPart s) \/
  (ready b pose /\
   prevByPart s' = snd (regionVelocity env pose (partsOf b) (prevByPart s))).
Proof.
  intros H. apply runBlock_spec in H as [[Hn ->]|[Hr (val & rs' & _ & _ & ->)]].
  - left. split; [exact Hn | reflexivity].
  - right. split; [exact Hr | reflexivity].
Qed.

(** Through any run of blocks on one frame, a cache entry that agrees with
    the frame keeps agreeing, and every part of a block that passed its
    test agrees afterwards. *)
Lemma runBlocks_fresh (env : Env) (pose : Pose) (bs : list Block) (s s' : State) :
  runBlocks env pose bs s = Some s' ->
  (forall name, fresh (prevByPart s) pose name -> fresh (prevByPart s') pose name) /\
  (forall b name, b ∈ bs -> ready b pose -> name ∈ partsOf b ->
     fresh (prevByPart s') pose name).
Proof.
  revert s. induction bs as [|b0 bs IH]; intros s H.
  - injection H as <-. split; [auto|]. intros b name Hb. inversion Hb.
  - simpl in H. apply bind_Some in H as (s1 & H1 & H).
    destruct (IH _ H) as [Hpres Hown].
    assert (Hstep : forall name, fresh (prevByPart s) pose name ->
                                 fresh (prevByPart s1) pose name).
    { intros name Hf. apply runBlock_cache in H1 as [[_ ->]|[_ ->]]; [exact Hf|].
      apply fresh_after. right. exact Hf. }
    split.
    + intros name Hf. apply Hpres, Hstep, Hf.
    + intros b name Hb Hr Hin.
      apply elem_of_cons in Hb as [->|Hb]; [|exact (Hown b name Hb Hr Hin)].
      apply Hpres.
      apply runBlock_cache in H1 as [[Hn _]|[_ ->]]; [contradiction|].
      apply fresh_after. left. exact Hin.
Qed.

Lemma runBlocks_prevKeypoints (env : Env) (pose : Pose) (bs : list Block) (s s' : State) :
  runBlocks env pose bs s = Some s' -> prevKeypoints s' = prevKeypoints s.
Proof.
  revert s. induction bs as [|b0 bs IH]; intros s H.
  - injection H as <-. reflexivity.
  - simpl in H. apply bind_Some in H as (s1 & H1 & H).
    rewrite (IH _ H). apply runBlock_frame in H1 as (_ & E & _). exact E.
Qed.

Lemma runBlocks_cache_none (env : Env) (pose : Pose) (bs : list Block) (s s' : State) :
  (forall name, get pose name = None) ->
  runBlocks env pose bs s = Some s' -> prevByPart s' = prevByPart s.
Proof.
  intros Hn. revert s. induction bs as [|b0 bs IH]; intros s H.
  - injection H as <-. reflexivity.
  - simpl in H. apply bind_Some in H as (s1 & H1 & H).
    rewrite (IH _ H).
    apply runBlock_cache in H1 as [[_ E]|[_ E]]; [exact E|].
    rewrite E, regionVelocity_none; [reflexivity | auto].
Qed.

(** What a whole tick leaves in the two caches. *)
Lemma onPose_caches (env : Env) (pose : Pose) (s s' : State) :
  trackingStarted s = true ->
  onPose env pose s = Some s' ->
  (prevKeypoints s' = Some (tracked pose) \/
   List.filter confident (keypoints pose) = [] /\ prevKeypoints s' = prevKeypoints s) /\
  (forall b name, ready b pose -> name ∈ partsOf b -> fresh (prevByPart s') pose name).
Proof.
  intros Ht H. unfold onPose in H. rewrite Ht in H. simpl in H.
  apply bind_Some in H as (s1 & H1 & H).
  apply bind_Some in H as (s2 & H2 & [= <-]).
  rewrite coupleRegionsToPose_blocks in H2.
  destruct (updatePoseAnchor_frame env pose s2) as (Ec & Ek & _).
  destruct (updatePoseTransform_frame env pose s1) as (Ec1 & Ek1 & _).
  split.
  - rewrite Ek, (runBlocks_prevKeypoints _ _ _ _ _ H2), Ek1.
    apply updatePoseFactors_spec in H1 as [[E ->]|(_ & _ & _ & _ & _ & E & _)]; auto.
  - intros b name Hr Hin. rewrite Ec.
    apply (proj2 (runBlocks_fresh _ _ _ _ _ H2) b name); [|exact Hr|exact Hin].
    apply list_elem_of_In. destruct b; simpl; tauto.
Qed.

Lemma ready_same (p1 p2 : Pose) (b : Block) :
  tracked p2 = tracked p1 -> ready b p2 -> ready b p1.
Proof.
  intros E Hr name Hin. rewrite <- (get_same p1 p2 name E). exact (Hr name Hin).
Qed.

Lemma fresh_same (p1 p2 : Pose) (cache : gmap string Point.t) (name : string) :
  tracked p2 = tracked p1 -> fresh cache p1 name -> fresh cache p2 name.
Proof.
  intros E Hf pos prev Hpos. rewrite (get_same p1 p2 name E) in Hpos.
  exact (Hf pos prev Hpos).
Qed.

(** C7.  Two consecutive ticks, the second on a frame whose keypoints
    above the threshold have the names and positions of the first (each
    name once): the raw global velocity [velAvg] of the second tick is
    exactly 0, and so is the value [regionVelocity] returns to every block
    of the second tick that passes its test, in the state in which the
    block is entered. *)
Theorem still_frame_zero_velocity
    (env1 env2 : Env) (p1 p2 : Pose) (s0 s1 : State) :
  trackingStarted s0 = true ->
  onPose env1 p1 s0 = Some s1 ->
  tracked p2 = tracked p1 ->
  NoDup (map fst (tracked p2)) ->
  velAvg env2 (prevKeypoints s1) (List.filter confident (keypoints p2)) == 0 /\
  forall sa pre b post sb,
    updatePoseFactors env2 p2 s1 = Some sa ->
    blockOrder = pre ++ b :: post ->
    runBlocks env2 p2 pre (updatePoseTransform env2 p2 sa) = Some sb ->
    ready b p2 ->
    fst (regionVelocity env2 p2 (partsOf b) (prevByPart sb)) == 0.
Proof.
  intros Ht H1 Esame Hnd.
  destruct (onPose_caches _ _ _ _ Ht H1) as [Hk Hc].
  split.
  - destruct Hk as [Hk|[Hnil Hk]].
    + rewrite Hk. apply velAvg_same; [symmetry; exact Esame | exact Hnd].
    + assert (E2 : List.filter confident (keypoints p2) = []).
      { apply (f_equal (@length _)) in Esame. unfold tracked in Esame.
        rewrite !length_map, Hnil in Esame.
        destruct (List.filter confident (keypoints p2)); [reflexivity | discriminate]. }
      rewrite E2, velAvg_nil. reflexivity.
  - intros sa pre b post sb Ha Eorder Hpre Hr.
    apply regionVelocity_zero. intros name Hin.
    apply (proj1 (runBlocks_fresh _ _ _ _ _ Hpre)).
    rewrite (proj1 (updatePoseTransform_frame env2 p2 sa)).
    assert (Esa : prevByPart sa = prevByPart s1).
    { apply updatePoseFactors_spec in Ha as [[_ ->]|(_ & _ & E & _)]; [reflexivity | exact E]. }
    rewrite Esa. apply (fresh_same p1 p2 _ _ Esame).
    apply (Hc b name); [|exact Hin]. exact (ready_same p1 p2 b Esame Hr).
Qed.

(** C8 (as amended).  The filter keeps exactly the keypoints whose score
    is strictly above the threshold.  On a frame none of whose keypoints
    passes, [updatePoseFactors] returns at once with the whole state as it
    was (no velocity is computed and the smoothed velocity keeps its
    value), every [regionVelocity] call returns 0 and leaves the per-part
    cache as it was, and so does the whole of [coupleRegionsToPose]. *)
Theorem empty_filter_leaves_caches
    (env : Env) (pose : Pose) (s : State) (parts : list string)
    (cache : gmap string Point.t) :
  List.filter confident (keypoints pose) = [] ->
  (forall k, confident k = true <-> TUNE.velocity.kpMinScore < score k) /\
  updatePoseFactors env pose s = Some s /\
  regionVelocity env pose parts cache = (0, cache) /\
  forall s', coupleRegionsToPose env pose s = Some s' ->
    prevByPart s' = prevByPart s /\ prevKeypoints s' = prevKeypoints s.
Proof.
  intros Hnil. split; [exact confident_iff|]. split; [|split].
  - unfold updatePoseFactors. rewrite Hnil. reflexivity.
  - apply regionVelocity_none. intros name _. apply tracked_nil_get, Hnil.
  - intros s' H. rewrite coupleRegionsToPose_blocks in H. split.
    + eapply runBlocks_cache_none; [|exact H]. intros name. apply tracked_nil_get, Hnil.
    + eapply runBlocks_prevKeypoints, H.
Qed.

End Ticks.

(** ** Interference between regions within a tick *)

Lemma chest_parts (name : string) :
  name ∈ regionKeypoints.chest <->
  name ∈ regionKeypoints.neck \/ name ∈ regionKeypoints.armsHands.
Proof.
  rewrite !list_elem_of_In. unfold regionKeypoints.chest, regionKeypoints.neck,
    regionKeypoints.armsHands. simpl. tauto.
Qed.

(** C9.  (1) A [regionVelocity] call leaves in the shared cache the current
    position of every part it finds.  (2) Hence, once a block that passed
    its test has run in a tick, each of its parts adds exactly 0 to the sum
    of any later [regionVelocity] call of the tick, in whichever state of
    the tick that call is made.  (3) The chest parts are the neck parts and
    the arms and hands parts, so when the arms and hands block has run the
    chest block obtains velocity 0 whatever the motion.  (4) The value
    depends on the order: on the frame [frameB] that follows [frameA], the
    chest parts measured first against the cache the tick on [frameA] left
    give a non-zero velocity, and measured after the neck and arms calls
    give 0. *)
Theorem shared_parts_zero_after_first_region :
  (forall (M : JSMath) env pose parts cache name pos,
     name ∈ parts -> get pose name = Some pos ->
     snd (regionVelocity env pose parts cache) !! name = Some pos) /\
  (forall (M : JSMath) env pose s pre b1 mid s2 name t,
     runBlocks env pose (pre ++ b1 :: mid) s = Some s2 ->
     ready b1 pose -> name ∈ partsOf b1 ->
     contribution (diag env) pose (prevByPart s2) name = Some t -> t == 0) /\
  (forall (M : JSMath) env pose s s3,
     runBlocks env pose [Head; Neck; ArmsHands] s = Some s3 ->
     ready ArmsHands pose ->
     fst (regionVelocity env pose (partsOf Chest) (prevByPart s3)) == 0) /\
  (let c := cacheAfterA in
   let c' := snd (regionVelocity env0 frameB (partsOf ArmsHands)
                    (snd (regionVelocity env0 frameB (partsOf Neck) c))) in
   Qeq_bool (fst (regionVelocity env0 frameB (partsOf Chest) c)) 0 = false /\
   Qeq_bool (fst (regionVelocity env0 frameB (partsOf Chest) c')) 0 = true).
Proof.
  split; [|split; [|split]].
  - intros M env pose parts cache name pos Hin Hpos.
    rewrite regionVelocity_lookup, Hpos, decide_True by exact Hin. reflexivity.
  - intros M env pose s pre b1 mid s2 name t Hrun Hr Hin Ht.
    eapply contribution_fresh; [|exact Ht].
    apply (proj2 (runBlocks_fresh _ _ _ _ _ Hrun) b1 name); [|exact Hr|exact Hin].
    apply elem_of_app. right. apply elem_of_cons. auto.
  - intros M env pose s s3 Hrun Hr.
    apply regionVelocity_zero. intros name Hin.
    apply chest_parts in Hin as [Hin|Hin].
    + apply (proj2 (runBlocks_fresh _ _ _ _ _ Hrun) Neck name); [| |exact Hin].
      * apply list_elem_of_In. simpl. tauto.
      * intros n Hn. inversion Hn.
    + apply (proj2 (runBlocks_fresh _ _ _ _ _ Hrun) ArmsHands name); [|exact Hr|exact Hin].
      apply list_elem_of_In. simpl. tauto.
  - split; vm_compute; reflexivity.
Qed.

(** ** Checking concrete states *)

Lemma in05b_spec (v : Q) : in05b v = true -> in05 v.
Proof.
  unfold in05b, in05. intros H. apply andb_true_iff in H as [H1 H2].
  split; apply Qle_bool_iff; assumption.
Qed.

Lemma slidersInRangeb_spec (s : State) : slidersInRangeb s = true -> slidersInRange s.
Proof.
  unfold slidersInRangeb, slidersInRange. intros H.
  apply andb_true_iff in H as [He Hr]. split.
  - intros k v Hkv. rewrite forallb_forall in He.
    apply (in05b_spec v), (He (k, v)), list_elem_of_In, elem_of_map_to_list, Hkv.
  - intros r v Hin Hv. rewrite forallb_forall in Hr.
    apply list_elem_of_In in Hin. specialize (Hr r Hin). rewrite Hv in Hr.
    apply in05b_spec, Hr.
Qed.

(** ** Counterexamples to the claims as stated *)

(** C3 as stated fails: from the state [setup] leaves (all sliders 0, in
    range), one external write of anxiety 100 stores 35. *)
Lemma apply_out_of_range :
  slidersInRange setup /\
  emotionSliders (applySliders env0 [("anxiety"%string, 100)] [] false setup)
    !! "anxiety"%string = Some (0.35 * (100 - 0) + 0) /\
  ~ slidersInRange (applySliders env0 [("anxiety"%string, 100)] [] false setup).
Proof.
  split; [|split].
  - apply slidersInRangeb_spec. vm_compute. reflexivity.
  - reflexivity.
  - intros [He _].
    assert (Hv : emotionSliders (applySliders env0 [("anxiety"%string, 100)] [] false setup)
                 !! "anxiety"%string = Some (0.35 * (100 - 0) + 0)) by reflexivity.
    destruct (He _ _ Hv) as [_ H5]. vm_compute in H5. apply H5. reflexivity.
Qed.

(** C4 as stated fails for the head: a tick on [frameA], where every head
    keypoint is found, leaves the head slider of [wide] at 4.5; the next
    tick, on [frameNoHead], where no head keypoint is found and nothing
    else moved, leaves it at 4.05 instead of 4.5. *)
Lemma head_decays_without_keypoints :
  let head (s : State) := regionSliders s !! "head"%string in
  (forall name, name ∈ partsOf Head -> is_Some (get frameA name)) /\
  (forall name, name ∈ partsOf Head -> get frameNoHead name = None) /\
  Qred <$> (run (M := QMath) [EvPose env0 frameA] wide ≫= head) = Some (9 # 2) /\
  Qred <$> (run (M := QMath) [EvPose env0 frameA; EvPose env300 frameNoHead] wide ≫= head)
  = Some (81 # 20).
Proof.
  cbv zeta. split; [|split; [|split]].
  - intros name Hin. apply list_elem_of_In in Hin. simpl in Hin.
    repeat (destruct Hin as [<-|Hin]; [vm_compute; eauto|]). contradiction.
  - intros name Hin. apply list_elem_of_In in Hin. simpl in Hin.
    repeat (destruct Hin as [<-|Hin]; [reflexivity|]). contradiction.
  - vm_compute. reflexivity.
  - vm_compute. reflexivity.
Qed.

(** C8 as stated fails at the threshold itself: a keypoint whose score is
    exactly 0.5 has a score greater than or equal to the threshold and is
    dropped by the filter; a frame of that keypoint alone is skipped. *)
Lemma score_at_threshold_dropped :
  let k := kp "nose" 320 100 0.5 in
  TUNE.velocity.kpMinScore <= score k /\
  List.filter confident [k] = [] /\
  updatePoseFactors (M := QMath) env0
    (mkPose [k] None None None None None None) started = Some started.
Proof.
  cbv zeta. split; [|split].
  - vm_compute. discriminate.
  - reflexivity.
  - reflexivity.
Qed.

(** ** The theorems at concrete inputs *)

Lemma sliders_stay_in_range_witness :
  exists s, run (M := QMath) session1 setup = Some s /\ slidersInRange s.
Proof.
  destruct (run (M := QMath) session1 setup) as [s|] eqn:E.
  - exists s. split; [reflexivity|].
    apply (sliders_stay_in_range (M := QMath) session1 setup s); [| |exact E].
    + apply slidersInRangeb_spec. vm_compute. reflexivity.
    + unfold session1.
      repeat (apply List.Forall_cons; [try exact I|]); [|apply List.Forall_nil].
      simpl. split.
      * apply List.Forall_cons; [apply in05b_spec; reflexivity | apply List.Forall_nil].
      * apply List.Forall_cons; [intros _; apply in05b_spec; reflexivity|].
        apply List.Forall_cons; [|apply List.Forall_nil].
        intros Hin. apply list_elem_of_In in Hin. simpl in Hin.
        repeat (destruct Hin as [Hin|Hin]; [discriminate Hin|]). contradiction.
  - vm_compute in E. discriminate E.
Defined.

Lemma guarded_region_keeps_value_witness :
  exists s', coupleRegionsToPose (M := QMath) env0 frameNoWrist wide = Some s' /\
    regionSliders s' !! sliderOf ArmsHands = regionSliders wide !! sliderOf ArmsHands.
Proof.
  destruct (coupleRegionsToPose (M := QMath) env0 frameNoWrist wide) as [s'|] eqn:E.
  - exists s'. split; [reflexivity|].
    apply (guarded_region_keeps_value (M := QMath) env0 frameNoWrist wide s'
             ArmsHands "leftWrist"%string E).
    + apply list_elem_of_In. simpl. tauto.
    + vm_compute. reflexivity.
  - vm_compute in E. discriminate E.
Defined.

Lemma apply_within_cooldown_ignored_witness :
  let s1 := resetAll env0 defaultResetOpts wide in
  let s2 := applySliders env300 [("anxiety"%string, 5)] [("head"%string, 3)] false s1 in
  s2 = s1 /\
  (forall k v, k ∈ emotionNames -> emotionSliders s2 !! k = Some v -> v = 0) /\
  (forall k v, k ∈ regionNames ++ ["spine"%string] ->
     regionSliders s2 !! k = Some v -> v = 0).
Proof.
  apply (apply_within_cooldown_ignored env0 env300 defaultResetOpts wide
           [("anxiety"%string, 5)] [("head"%string, 3)]).
  vm_compute. reflexivity.
Defined.

Lemma still_frame_zero_velocity_witness :
  exists s1, onPose (M := QMath) env0 frameA started = Some s1 /\
    velAvg env300 (prevKeypoints s1) (List.filter confident (keypoints frameA')) == 0 /\
    forall sa pre b post sb,
      updatePoseFactors env300 frameA' s1 = Some sa ->
      blockOrder = pre ++ b :: post ->
      runBlocks env300 frameA' pre (updatePoseTransform env300 frameA' sa) = Some sb ->
      ready b frameA' ->
      fst (regionVelocity env300 frameA' (partsOf b) (prevByPart sb)) == 0.
Proof.
  destruct (onPose (M := QMath) env0 frameA started) as [s1|] eqn:E.
  - exists s1. split; [reflexivity|].
    apply (still_frame_zero_velocity (M := QMath) env0 env300 frameA frameA' started s1).
    + reflexivity.
    + exact E.
    + reflexivity.
    + vm_compute. apply NoDup_ListNoDup.
      repeat (constructor; [simpl; intuition discriminate|]). constructor.
  - vm_compute in E. discriminate E.
Defined.

Lemma empty_filter_leaves_caches_witness :
  (forall k, confident k = true <-> TUNE.velocity.kpMinScore < score k) /\
  updatePoseFactors (M := QMath) env0 frameDim started = Some started /\
  regionVelocity env0 frameDim regionKeypoints.neck (prevByPart started)
  = (0, prevByPart started) /\
  forall s', coupleRegionsToPose env0 frameDim started = Some s' ->
    prevByPart s' = prevByPart started /\ prevKeypoints s' = prevKeypoints started.
Proof.
  apply (empty_filter_leaves_caches (M := QMath) env0 frameDim started
           regionKeypoints.neck (prevByPart started)).
  reflexivity.
Defined.

(** * More of the code *)

(** ** The session averager under the sketch's own sampler *)

Lemma feed_active (l : list (Q * Sample)) (s : SessionAverager.t) :
  SessionAverager.active (feed l s) = SessionAverager.active s.
Proof.
  revert s. induction l as [|c l IH]; intros s; [reflexivity|].
  rewrite feed_cons, IH. apply add_active.
Qed.

Lemma feed_samples (l : list (Q * Sample)) (s : SessionAverager.t) :
  SessionAverager.active s = true ->
  SessionAverager.samples (feed l s) = (SessionAverager.samples s + length l)%nat.
Proof.
  revert s. induction l as [|c l IH]; intros s Ha; simpl length.
  - simpl. lia.
  - rewrite feed_cons, IH by (rewrite add_active; exact Ha).
    unfold SessionAverager.add. rewrite Ha. simpl. lia.
Qed.

(** X2.  The vector half of the running-mean property, where it holds: while
    every region-width array has six finite elements and every
    segment-profile array three, each index of the two vector fields holds
    the arithmetic mean of the values supplied at that index, and the
    counter is the number of arrays. *)
Theorem session_vector_means (t0 : Q) (l : list (Q * Sample)) :
  wellFormed 6 (suppliedArrays s_regionWidths l) ->
  wellFormed 3 (suppliedArrays s_segmentProfile l) ->
  let s := feed l (SessionAverager.begin t0) in
  let ok (a : OnlineMeanArray.t) (len : nat) (vs : list (list num)) :=
    OnlineMeanArray.n a = length vs /\
    forall i, (i < len)%nat ->
      exists m, OnlineMeanArray.means a !! i = Some m /\
                m == arith_mean (finites (column i vs)) in
  ok (SessionAverager.regionWidths s) 6%nat (suppliedArrays s_regionWidths l) /\
  ok (SessionAverager.segmentProfile s) 3%nat (suppliedArrays s_segmentProfile l).
Proof.
  intros Hw Hp s ok. subst s ok. cbv beta.
  assert (Hcol : forall len vs i, wellFormed len vs -> (i < len)%nat ->
            length (finites (column i vs)) = length vs).
  { intros len vs i Hvs Hi. induction Hvs as [|v vs [Hlen Hfin] _ IH]; [reflexivity|].
    unfold column. simpl.
    destruct (lookup_lt_is_Some_2 v i) as [x Hx]; [lia|]. rewrite Hx.
    unfold allFinite in Hfin. rewrite Forall_forall in Hfin.
    specialize (Hfin x (list_elem_of_lookup_2 _ _ _ Hx)).
    destruct x; try discriminate. simpl. f_equal. exact IH. }
  assert (Hgen : forall len vs, (0 < len)%nat -> wellFormed len vs ->
            OnlineMeanArray.n (feedArray vs (OnlineMeanArray.new len)) = length vs /\
            forall i, (i < len)%nat ->
              exists m, OnlineMeanArray.means (feedArray vs (OnlineMeanArray.new len)) !! i
                        = Some m /\ m == arith_mean (finites (column i vs))).
  { intros len vs Hpos Hvs. split.
    - destruct (OnlineMeanArray_correct len 0 vs Hvs Hpos) as (m & _ & _ & Hn).
      rewrite Hn. apply (Hcol len); assumption.
    - intros i Hi.
      destruct (OnlineMeanArray_correct len i vs Hvs Hi) as (m & Hm & Hmean & _).
      exists m. split; assumption. }
  split.
  - rewrite feed_regionWidths by reflexivity. apply Hgen; [lia | exact Hw].
  - rewrite feed_segmentProfile by reflexivity. apply Hgen; [lia | exact Hp].
Qed.

(** X4.  [end()] freezes the session: the [add] calls that follow it change
    nothing, and a second [end()] leaves the same accumulator and reports
    the same sample count and means. *)
Theorem ended_session_ignores_adds
    (now now' : Q) (s : SessionAverager.t) (l : list (Q * Sample)) :
  let ended := snd (SessionAverager.end_ now s) in
  let again := SessionAverager.end_ now' (feed l ended) in
  feed l ended = ended /\
  snd again = ended /\
  out_samples (fst again) = out_samples (fst (SessionAverager.end_ now s)) /\
  out_structure (fst again) = out_structure (fst (SessionAverager.end_ now s)) /\
  out_emotions (fst again) = out_emotions (fst (SessionAverager.end_ now s)) /\
  out_regionWidths (fst again) = out_regionWidths (fst (SessionAverager.end_ now s)).
Proof.
  cbv zeta.
  assert (E : feed l (snd (SessionAverager.end_ now s)) = snd (SessionAverager.end_ now s)).
  { induction l as [|c l IH]; [reflexivity|].
    rewrite feed_cons, add_idle by reflexivity. exact IH. }
  rewrite E. repeat split.
Qed.

Lemma feed_emotion_keys (l : list (Q * Sample)) (s : SessionAverager.t) (k : string) :
  is_Some (SessionAverager.emotions (feed l s) !! k)
  <-> is_Some (SessionAverager.emotions s !! k).
Proof.
  revert s. induction l as [|c l IH]; intros s; [reflexivity|].
  rewrite feed_cons, IH. unfold SessionAverager.add.
  destruct (negb (SessionAverager.active s)); [reflexivity|]. simpl.
  destruct (s_emotions (snd c)) as [se|]; [|reflexivity].
  unfold SessionAverager.addEmotions. rewrite map_lookup_imap.
  destruct (SessionAverager.emotions s !! k); simpl; split; intros [? ?]; eauto; discriminate.
Qed.

(** X5.  The snapshot [end()] returns has exactly the six emotion names as keys
    of [emotions], whatever keys the samples carried: [add] walks the keys
    of the accumulator, not those of the sample. *)
Theorem snapshot_emotion_keys (t0 now : Q) (l : list (Q * Sample)) (k : string) :
  is_Some (out_emotions (fst (SessionAverager.end_ now (feed l (SessionAverager.begin t0)))) !! k)
  <-> k ∈ emotionNames.
Proof.
  unfold SessionAverager.end_. cbn [fst out_emotions].
  rewrite lookup_fmap, fmap_is_Some, feed_emotion_keys.
  split.
  - intros [a Ha]. apply elem_of_list_to_map_2 in Ha.
    apply list_elem_of_fmap in Ha as (n & [= -> _] & Hn). exact Hn.
  - intros Hk. rewrite begin_emotions by exact Hk. eauto.
Qed.

Lemma finites_Fin {A : Type} (f : A -> Q) (l : list A) :
  finites (map (fun c => Fin (f c)) l) = map f l.
Proof. induction l as [|a l IH]; [reflexivity|]. simpl. f_equal. exact IH. Qed.

Lemma omap_map_Some {A B C : Type} (f : B -> option C) (g : A -> B) (h : A -> C)
    (l : list A) :
  (forall a, f (g a) = Some (h a)) -> omap f (map g l) = map h l.
Proof.
  intros H. induction l as [|a l IH]; [reflexivity|].
  simpl. rewrite H. simpl. f_equal. exact IH.
Qed.

Lemma sampled_emotion (k : string) (sts : list (Q * State)) :
  k ∈ emotionNames ->
  suppliedEmotion k (sampled sts)
  = map (fun c => Fin (sliderNumber (emotionSliders (snd c)) k)) sts.
Proof.
  intros Hk. unfold suppliedEmotion, sampled. apply omap_map_Some.
  intros c. simpl. f_equal.
  unfold emotionNames in Hk.
  repeat (apply elem_of_cons in Hk as [->|Hk]; [reflexivity|]).
  inversion Hk.
Qed.

Lemma sampled_widths (sts : list (Q * State)) :
  suppliedArrays s_regionWidths (sampled sts)
  = map (fun c => map (fun n => Fin (sliderNumber (regionSliders (snd c)) n)) regionNames) sts.
Proof. unfold suppliedArrays, sampled. apply omap_map_Some. reflexivity. Qed.

Lemma sampled_profile (sts : list (Q * State)) :
  suppliedArrays s_segmentProfile (sampled sts) = map (fun _ => map Fin segmentProfile) sts.
Proof. unfold suppliedArrays, sampled. apply omap_map_Some. reflexivity. Qed.

Lemma column_map {A : Type} (g : A -> list num) (x : A -> num) (i : nat) (l : list A) :
  (forall a, g a !! i = Some (x a)) -> column i (map g l) = map x l.
Proof.
  intros H. unfold column. apply omap_map_Some. exact H.
Qed.

Lemma wellFormed_map {A : Type} (len : nat) (g : A -> list num) (l : list A) :
  (forall a, length (g a) = len /\ allFinite (g a)) -> wellFormed len (map g l).
Proof. intros H. apply Forall_forall. intros v Hv. apply list_elem_of_fmap in Hv as (a & -> & _). apply H. Qed.

Lemma allFinite_Fin {A : Type} (f : A -> Q) (l : list A) : allFinite (map (fun a => Fin (f a)) l).
Proof. apply Forall_forall. intros v Hv. apply list_elem_of_fmap in Hv as (a & -> & _). reflexivity. Qed.

Lemma Qsum_const {A : Type} (c : Q) (l : list A) :
  Qsum (map (fun _ => c) l) == c * Qnat (length l).
Proof.
  induction l as [|a l IH].
  - simpl. unfold Qnat. simpl. ring.
  - change (Qsum (map (fun _ => c) (a :: l))) with (c + Qsum (map (fun _ => c) l)).
    simpl length. rewrite IH, Qnat_S. ring.
Qed.

Lemma arith_mean_const {A : Type} (c : Q) (l : list A) :
  l <> [] -> arith_mean (map (fun _ => c) l) == c.
Proof.
  intros Hne. unfold arith_mean. rewrite Qsum_const, length_map.
  destruct l as [|a l]; [congruence|]. simpl length.
  pose proof (Qnat_S_pos (length l)). field. lra.
Qed.

Lemma feedArray_length (len : nat) (vs : list (list num)) (a : OnlineMeanArray.t) :
  (forall v, v ∈ vs -> length v = S len) ->
  vs <> [] \/ length (OnlineMeanArray.means a) = S len ->
  length (OnlineMeanArray.means (feedArray vs a)) = S len.
Proof.
  revert a. induction vs as [|v vs IH]; intros a Hvs Ha.
  - destruct Ha as [Ha|Ha]; [congruence | exact Ha].
  - change (feedArray (v :: vs) a) with (feedArray vs (OnlineMeanArray.add (Some v) a)).
    apply IH; [intros w Hw; apply Hvs; right; exact Hw|].
    right. assert (Hv : length v = S len) by (apply Hvs; left).
    destruct (add_length v a) as [Hl _]; [intros ->; discriminate|].
    rewrite Hl. exact Hv.
Qed.

(** A scalar field of a session fed by the sampler. *)
Lemma sampled_scalar (t0 : Q) (sts : list (Q * State))
    (field : SessionAverager.t -> OnlineMean.t) (prop : Sample -> option num)
    (f : State -> Q) :
  field (SessionAverager.begin t0) = OnlineMean.new ->
  (forall now smp s, SessionAverager.active s = true ->
     field (SessionAverager.add now smp s) = OnlineMean.add (nullish0 (prop smp)) (field s)) ->
  (forall st, prop (buildSampleForThisFrame st) = Some (Fin (f st))) ->
  OnlineMean.n (field (feed (sampled sts) (SessionAverager.begin t0))) = length sts /\
  OnlineMean.mean (field (feed (sampled sts) (SessionAverager.begin t0))) == meanOver sts f.
Proof.
  intros Hnew Hadd Hprop.
  rewrite (feed_scalar field prop Hadd) by reflexivity. rewrite Hnew.
  assert (E : supplied prop (sampled sts) = map (fun c => Fin (f (snd c))) sts).
  { unfold supplied, sampled. rewrite map_map. apply map_ext. intros c. simpl.
    rewrite Hprop. reflexivity. }
  rewrite E. destruct (OnlineMean_correct (map (fun c => Fin (f (snd c))) sts)) as [Hn Hm].
  rewrite finites_Fin in Hn, Hm. rewrite length_map in Hn. split; [exact Hn | exact Hm].
Qed.

Lemma sampled_emotion_mean (t0 : Q) (sts : list (Q * State)) (k : string) :
  k ∈ emotionNames ->
  exists a,
    SessionAverager.emotions (feed (sampled sts) (SessionAverager.begin t0)) !! k = Some a /\
    OnlineMean.n a = length sts /\
    OnlineMean.mean a == meanOver sts (fun st => sliderNumber (emotionSliders st) k).
Proof.
  intros Hk. rewrite feed_emotion, begin_emotions by (reflexivity || exact Hk).
  eexists. split; [reflexivity|].
  rewrite sampled_emotion by exact Hk.
  destruct (OnlineMean_correct
              (map (fun c => Fin (sliderNumber (emotionSliders (snd c)) k)) sts)) as [Hn Hm].
  rewrite finites_Fin in Hn, Hm. rewrite length_map in Hn. split; [exact Hn | exact Hm].
Qed.

Lemma sampled_region_mean (t0 : Q) (sts : list (Q * State)) (i : nat) (r : string) :
  regionNames !! i = Some r ->
  exists m,
    OnlineMeanArray.means
      (SessionAverager.regionWidths (feed (sampled sts) (SessionAverager.begin t0))) !! i
    = Some m /\
    m == meanOver sts (fun st => sliderNumber (regionSliders st) r) /\
    OnlineMeanArray.n
      (SessionAverager.regionWidths (feed (sampled sts) (SessionAverager.begin t0)))
    = length sts.
Proof.
  intros Hr. rewrite feed_regionWidths by reflexivity. rewrite sampled_widths.
  assert (Hi : (i < 6)%nat) by (apply lookup_lt_Some in Hr; exact Hr).
  destruct (OnlineMeanArray_correct 6 i
              (map (fun c => map (fun n => Fin (sliderNumber (regionSliders (snd c)) n))
                               regionNames) sts)) as (m & Hm & Hmean & Hn).
  { apply wellFormed_map. intros c. split; [reflexivity | apply allFinite_Fin]. }
  { exact Hi. }
  rewrite (column_map _ (fun c => Fin (sliderNumber (regionSliders (snd c)) r))) in Hmean, Hn.
  2,3: intros c; rewrite list_lookup_fmap, Hr; reflexivity.
  rewrite finites_Fin in Hmean, Hn. rewrite length_map in Hn.
  exists m. split; [exact Hm|]. split; [exact Hmean | exact Hn].
Qed.

Lemma sampled_profile_mean (t0 : Q) (sts : list (Q * State)) (i : nat) (c : Q) :
  sts <> [] -> segmentProfile !! i = Some c ->
  exists m,
    OnlineMeanArray.means
      (SessionAverager.segmentProfile (feed (sampled sts) (SessionAverager.begin t0))) !! i
    = Some m /\ m == c.
Proof.
  intros Hne Hc. rewrite feed_segmentProfile by reflexivity. rewrite sampled_profile.
  assert (Hi : (i < 3)%nat) by (apply lookup_lt_Some in Hc; exact Hc).
  destruct (OnlineMeanArray_correct 3 i (map (fun _ : Q * State => map Fin segmentProfile) sts))
    as (m & Hm & Hmean & _).
  { apply wellFormed_map. intros _. split; [reflexivity | apply (allFinite_Fin (fun q => q))]. }
  { exact Hi. }
  rewrite (column_map _ (fun _ => Fin c)) in Hmean
    by (intros _; rewrite list_lookup_fmap, Hc; reflexivity).
  rewrite (finites_Fin (fun _ => c)) in Hmean.
  exists m. split; [exact Hm|]. rewrite Hmean. apply arith_mean_const, Hne.
Qed.

Lemma sampler_means_scalar (t0 : Q) (sts : list (Q * State)) :
  let sess := feed (sampled sts) (SessionAverager.begin t0) in
  OnlineMean.mean (SessionAverager.structure sess)
  == meanOver sts (fun st => smoothedStructure (metrics st)) /\
  OnlineMean.mean (SessionAverager.balance sess)
  == meanOver sts (fun st => smoothedBalance (metrics st)) /\
  OnlineMean.mean (SessionAverager.posture sess)
  == meanOver sts (fun st => smoothedPostureLean (metrics st)) /\
  OnlineMean.mean (SessionAverager.velocity sess)
  == meanOver sts (fun st => movementVelocity (metrics st)).
Proof.
  cbv zeta.
  split; [|split; [|split]].
  - apply (sampled_scalar t0 sts SessionAverager.structure s_structure); [reflexivity| |reflexivity].
    intros now smp s Hs; unfold SessionAverager.add; rewrite Hs; reflexivity.
  - apply (sampled_scalar t0 sts SessionAverager.balance s_balance); [reflexivity| |reflexivity].
    intros now smp s Hs; unfold SessionAverager.add; rewrite Hs; reflexivity.
  - apply (sampled_scalar t0 sts SessionAverager.posture s_posture); [reflexivity| |reflexivity].
    intros now smp s Hs; unfold SessionAverager.add; rewrite Hs; reflexivity.
  - apply (sampled_scalar t0 sts SessionAverager.velocity s_velocity); [reflexivity| |reflexivity].
    intros now smp s Hs; unfold SessionAverager.add; rewrite Hs; reflexivity.
Qed.

Lemma finites_length (xs : list num) :
  (length (finites xs) <= length xs)%nat /\
  (length (finites xs) = length xs <-> allFinite xs).
Proof.
  unfold allFinite. induction xs as [|x xs [IH1 IH2]].
  - split; [reflexivity|]. split; [constructor | reflexivity].
  - assert (E : finites (x :: xs)
                = match x with Fin q => q :: finites xs | _ => finites xs end)
      by (destruct x; reflexivity).
    rewrite E. destruct x; simpl length.
    + split; [lia|]. split.
      * intros H. constructor; [reflexivity|]. apply IH2. lia.
      * intros H. apply Forall_cons in H as [_ H]. apply IH2 in H. lia.
    + split; [lia|]. split; [lia|]. intros H. apply Forall_cons in H as [H _]. discriminate.
    + split; [lia|]. split; [lia|]. intros H. apply Forall_cons in H as [H _]. discriminate.
    + split; [lia|]. split; [lia|]. intros H. apply Forall_cons in H as [H _]. discriminate.
Qed.

Lemma sampleOf_readings (s : State) : sampleOf (readings s) = buildSampleForThisFrame s.
Proof.
  assert (G : forall (m : gmap string Q) n,
            numberOr0 ((Fin <$> m) !! n) = Fin (sliderNumber m n)).
  { intros m n. rewrite lookup_fmap. unfold sliderNumber.
    destruct (m !! n); reflexivity. }
  unfold sampleOf, buildSampleForThisFrame, readings.
  cbn [rd_structure rd_balance rd_posture rd_velocity rd_emotionSliders rd_regionSliders].
  f_equal.
  - f_equal. f_equal. apply map_ext. intros n. rewrite G. reflexivity.
  - f_equal. apply map_ext. intros n. apply G.
Qed.

Lemma sampledFrom_emotion (k : string) (rs : list (Q * Readings)) :
  k ∈ emotionNames ->
  suppliedEmotion k (sampledFrom rs)
  = readingsOf (fun r => numberOr0 (rd_emotionSliders r !! k)) rs.
Proof.
  intros Hk. unfold suppliedEmotion, sampledFrom, readingsOf. apply omap_map_Some.
  intros c. simpl. f_equal.
  unfold emotionNames in Hk.
  repeat (apply elem_of_cons in Hk as [->|Hk]; [reflexivity|]).
  inversion Hk.
Qed.

Lemma sampledFrom_widths (rs : list (Q * Readings)) :
  suppliedArrays s_regionWidths (sampledFrom rs)
  = map (fun c => map (fun n => numberOr0 (rd_regionSliders (snd c) !! n)) regionNames) rs.
Proof. unfold suppliedArrays, sampledFrom. apply omap_map_Some. reflexivity. Qed.

Lemma sampledFrom_profile (rs : list (Q * Readings)) :
  suppliedArrays s_segmentProfile (sampledFrom rs) = map (fun _ => map Fin segmentProfile) rs.
Proof. unfold suppliedArrays, sampledFrom. apply omap_map_Some. reflexivity. Qed.

(** X3.  A session that is only fed by the sketch's own sampler.  After
    [begin()] and one [add(buildSampleForThisFrame())] per sampled frame,
    [samples] is the number of frames.  The four signals reach the averager
    as they are: the counter of each is the number of frames on which it was
    a finite number, its mean the arithmetic mean over those frames, and the
    counter equals [samples] exactly when the signal was finite on every
    frame.  A slider reading passes [Number(v || 0)] first, which turns a
    missing slider and a [NaN] into 0 and leaves an infinity; each emotion
    holds counter and mean of the finite readings, and when no region
    slider holds an infinity the shared counter of the widths is the number
    of frames and every index holds the mean of its slider.  The segment
    profile holds [0, 1, 0].  On a state of the finite model this sampler
    is [buildSampleForThisFrame]. *)
Theorem sampler_session_means (t0 : Q) (rs : list (Q * Readings)) :
  let sess := feed (sampledFrom rs) (SessionAverager.begin t0) in
  let over (a : OnlineMean.t) (f : Readings -> num) :=
    OnlineMean.n a = length (finites (readingsOf f rs)) /\
    OnlineMean.mean a == arith_mean (finites (readingsOf f rs)) /\
    (OnlineMean.n a = SessionAverager.samples sess <-> allFinite (readingsOf f rs)) in
  (forall s, sampleOf (readings s) = buildSampleForThisFrame s) /\
  SessionAverager.samples sess = length rs /\
  over (SessionAverager.structure sess) rd_structure /\
  over (SessionAverager.balance sess) rd_balance /\
  over (SessionAverager.posture sess) rd_posture /\
  over (SessionAverager.velocity sess) rd_velocity /\
  (forall k, k ∈ emotionNames ->
     exists a, SessionAverager.emotions sess !! k = Some a /\
               over a (fun r => numberOr0 (rd_emotionSliders r !! k))) /\
  (Forall (fun c => forall n, n ∈ regionNames ->
                      isFinite (numberOr0 (rd_regionSliders (snd c) !! n)) = true) rs ->
   OnlineMeanArray.n (SessionAverager.regionWidths sess) = length rs /\
   forall i n, regionNames !! i = Some n ->
     exists m, OnlineMeanArray.means (SessionAverager.regionWidths sess) !! i = Some m /\
               m == arith_mean
                      (finites (readingsOf (fun r => numberOr0 (rd_regionSliders r !! n)) rs))) /\
  (rs <> [] ->
   Forall2 Qeq (OnlineMeanArray.means (SessionAverager.segmentProfile sess)) segmentProfile).
Proof.
  cbv zeta.
  assert (Hs : SessionAverager.samples (feed (sampledFrom rs) (SessionAverager.begin t0))
               = length rs).
  { rewrite feed_samples by reflexivity. unfold sampledFrom. rewrite length_map. reflexivity. }
  assert (Hover : forall (a : OnlineMean.t) (xs : list num),
            length xs = length rs ->
            OnlineMean.n a = length (finites xs) ->
            (OnlineMean.n a
             = SessionAverager.samples (feed (sampledFrom rs) (SessionAverager.begin t0))
             <-> allFinite xs)).
  { intros a xs Hl Hn. rewrite Hs, Hn, <- Hl. apply finites_length. }
  assert (Hsc : forall field prop f,
            field (SessionAverager.begin t0) = OnlineMean.new ->
            (forall now smp s, SessionAverager.active s = true ->
               field (SessionAverager.add now smp s)
               = OnlineMean.add (nullish0 (prop smp)) (field s)) ->
            (forall r, prop (sampleOf r) = Some (f r)) ->
            OnlineMean.n (field (feed (sampledFrom rs) (SessionAverager.begin t0)))
            = length (finites (readingsOf f rs)) /\
            OnlineMean.mean (field (feed (sampledFrom rs) (SessionAverager.begin t0)))
            == arith_mean (finites (readingsOf f rs)) /\
            (OnlineMean.n (field (feed (sampledFrom rs) (SessionAverager.begin t0)))
             = SessionAverager.samples (feed (sampledFrom rs) (SessionAverager.begin t0))
             <-> allFinite (readingsOf f rs))).
  { intros field prop f Hnew Hadd Hprop.
    rewrite (feed_scalar field prop Hadd) by reflexivity. rewrite Hnew.
    assert (E : supplied prop (sampledFrom rs) = readingsOf f rs).
    { unfold supplied, sampledFrom, readingsOf. rewrite map_map. apply map_ext. intros c.
      simpl. rewrite Hprop. reflexivity. }
    rewrite E. destruct (OnlineMean_correct (readingsOf f rs)) as [Hn Hm].
    split; [exact Hn|]. split; [exact Hm|].
    apply Hover; [unfold readingsOf; apply length_map | exact Hn]. }
  split; [exact sampleOf_readings|].
  split; [exact Hs|].
  split.
  { apply (Hsc _ s_structure); [reflexivity| |reflexivity].
    intros now smp s Ha; unfold SessionAverager.add; rewrite Ha; reflexivity. }
  split.
  { apply (Hsc _ s_balance); [reflexivity| |reflexivity].
    intros now smp s Ha; unfold SessionAverager.add; rewrite Ha; reflexivity. }
  split.
  { apply (Hsc _ s_posture); [reflexivity| |reflexivity].
    intros now smp s Ha; unfold SessionAverager.add; rewrite Ha; reflexivity. }
  split.
  { apply (Hsc _ s_velocity); [reflexivity| |reflexivity].
    intros now smp s Ha; unfold SessionAverager.add; rewrite Ha; reflexivity. }
  split.
  { intros k Hk. rewrite feed_emotion, begin_emotions by (reflexivity || exact Hk).
    eexists. split; [reflexivity|].
    rewrite sampledFrom_emotion by exact Hk.
    destruct (OnlineMean_correct
                (readingsOf (fun r => numberOr0 (rd_emotionSliders r !! k)) rs)) as [Hn Hm].
    split; [exact Hn|]. split; [exact Hm|].
    apply Hover; [unfold readingsOf; apply length_map | exact Hn]. }
  split.
  { intros Hfin.
    assert (Hwf : wellFormed 6
              (map (fun c => map (fun n => numberOr0 (rd_regionSliders (snd c) !! n))
                               regionNames) rs)).
    { apply Forall_forall. intros v Hv. apply list_elem_of_fmap in Hv as (c & -> & Hc).
      split; [reflexivity|]. apply Forall_forall. intros x Hx.
      apply list_elem_of_fmap in Hx as (n & -> & Hn).
      rewrite Forall_forall in Hfin. apply (Hfin c Hc n Hn). }
    assert (Hcol : forall i n, regionNames !! i = Some n ->
              column i (map (fun c => map (fun n => numberOr0 (rd_regionSliders (snd c) !! n))
                                        regionNames) rs)
              = readingsOf (fun r => numberOr0 (rd_regionSliders r !! n)) rs).
    { intros i n Hi. unfold readingsOf.
      apply (column_map _ (fun c => numberOr0 (rd_regionSliders (snd c) !! n))).
      intros c. rewrite list_lookup_fmap, Hi. reflexivity. }
    rewrite feed_regionWidths by reflexivity. rewrite sampledFrom_widths.
    change (SessionAverager.regionWidths (SessionAverager.begin t0))
      with (OnlineMeanArray.new 6).
    split.
    - destruct (OnlineMeanArray_correct 6 0 _ Hwf) as (m & _ & _ & Hn); [lia|].
      rewrite Hn, (Hcol 0%nat "head"%string eq_refl).
      assert (Hall : allFinite (readingsOf (fun r => numberOr0 (rd_regionSliders r !! "head"%string)) rs)).
      { apply Forall_forall. intros x Hx. apply list_elem_of_fmap in Hx as (c & -> & Hc).
        rewrite Forall_forall in Hfin. apply (Hfin c Hc).
        apply list_elem_of_In. simpl. tauto. }
      apply finites_length in Hall. rewrite Hall. unfold readingsOf. apply length_map.
    - intros i n Hi.
      assert (Hlt : (i < 6)%nat) by (apply lookup_lt_Some in Hi; exact Hi).
      destruct (OnlineMeanArray_correct 6 i _ Hwf Hlt) as (m & Hm & Hmean & _).
      exists m. split; [exact Hm|]. rewrite (Hcol i n Hi) in Hmean. exact Hmean. }
  intros Hne.
  assert (Hpm : forall i c, segmentProfile !! i = Some c ->
            exists m,
              OnlineMeanArray.means
                (SessionAverager.segmentProfile
                   (feed (sampledFrom rs) (SessionAverager.begin t0))) !! i = Some m /\
              m == c).
  { intros i c Hc. rewrite feed_segmentProfile by reflexivity. rewrite sampledFrom_profile.
    assert (Hi : (i < 3)%nat) by (apply lookup_lt_Some in Hc; exact Hc).
    destruct (OnlineMeanArray_correct 3 i
                (map (fun _ : Q * Readings => map Fin segmentProfile) rs))
      as (m & Hm & Hmean & _).
    { apply wellFormed_map. intros _. split; [reflexivity | apply (allFinite_Fin (fun q => q))]. }
    { exact Hi. }
    rewrite (column_map _ (fun _ => Fin c)) in Hmean
      by (intros _; rewrite list_lookup_fmap, Hc; reflexivity).
    rewrite (finites_Fin (fun _ => c)) in Hmean.
    exists m. split; [exact Hm|]. rewrite Hmean. apply arith_mean_const, Hne. }
  destruct (Hpm 0%nat 0.0 eq_refl) as (m0 & H0 & E0).
  destruct (Hpm 1%nat 1.0 eq_refl) as (m1 & H1 & E1).
  destruct (Hpm 2%nat 0.0 eq_refl) as (m2 & H2 & E2).
  assert (Hlen : length (OnlineMeanArray.means
            (SessionAverager.segmentProfile (feed (sampledFrom rs) (SessionAverager.begin t0))))
          = 3%nat).
  { rewrite feed_segmentProfile by reflexivity. rewrite sampledFrom_profile.
    apply feedArray_length; [|right; reflexivity].
    intros v Hv. apply list_elem_of_fmap in Hv as (c & -> & _). reflexivity. }
  destruct (OnlineMeanArray.means
              (SessionAverager.segmentProfile (feed (sampledFrom rs) (SessionAverager.begin t0))))
    as [|a [|b [|c [|d l]]]]; try discriminate.
  injection H0 as ->. injection H1 as ->. injection H2 as ->.
  unfold segmentProfile. repeat constructor; assumption.
Qed.

(** ** What the pipeline keeps along every run *)

Section Invariants.
Context {M : JSMath}.

Lemma run_invariant (P : State -> Prop) :
  (forall e s s', step s e = Some s' -> P s -> P s') ->
  forall es s0 s, run es s0 = Some s -> P s0 -> P s.
Proof.
  intros Hstep es. induction es as [|e es IH]; intros s0 s H H0.
  - injection H as <-. exact H0.
  - simpl in H. apply bind_Some in H as (s1 & H1 & H).
    eapply IH; [exact H|]. eapply Hstep; eassumption.
Qed.

(** A block of the coupler writes its slider and the per-part cache, and
    nothing else. *)
Lemma runBlock_rest (b : Block) (env : Env) (pose : Pose) (s s' : State) :
  runBlock b env pose s = Some s' ->
  follow s' = follow s /\ metrics s' = metrics s /\
  sadnessInMax s' = sadnessInMax s /\ trackingStarted s' = trackingStarted s.
Proof.
  intros H. apply runBlock_spec in H as [[_ ->]|[_ (val & rs' & _ & _ & ->)]];
    repeat split.
Qed.

Lemma runBlocks_rest (env : Env) (pose : Pose) (bs : list Block) (s s' : State) :
  runBlocks env pose bs s = Some s' ->
  follow s' = follow s /\ metrics s' = metrics s /\
  sadnessInMax s' = sadnessInMax s /\ trackingStarted s' = trackingStarted s.
Proof.
  revert s. induction bs as [|b bs IH]; intros s H.
  - injection H as <-. repeat split.
  - simpl in H. apply bind_Some in H as (s1 & H1 & H).
    apply runBlock_rest in H1 as (E1 & E2 & E3 & E4).
    apply IH in H as (F1 & F2 & F3 & F4).
    rewrite F1, F2, F3, F4. auto.
Qed.

Lemma structureOf_range (pose : Pose) (v : Q) : structureOf pose = Some v -> 0 <= v <= 1.
Proof.
  unfold structureOf. intros H.
  destruct (leftShoulder pose), (rightShoulder pose), (leftWrist pose), (rightWrist pose);
    try (injection H as <-; lra).
  apply bind_Some in H as (lw & _ & H). apply bind_Some in H as (rw & _ & H).
  apply bind_Some in H as (m & _ & [= <-]). apply clamp01_range.
Qed.

Lemma leanOf_range (pose : Pose) (v : Q) : leanOf pose = Some v -> 0 <= v <= 1.
Proof.
  unfold leanOf. intros H.
  destruct (leftShoulder pose), (rightShoulder pose), (leftHip pose), (rightHip pose);
    try (injection H as <-; lra).
  cbv zeta in H. apply bind_Some in H as (m & _ & [= <-]). apply clamp01_range.
Qed.

Lemma balanceOf_range (pose : Pose) (v : Q) : balanceOf pose = Some v -> 0 <= v.
Proof.
  assert (G : forall a b, 0 <= Qabs a + Qabs b).
  { intros a b. pose proof (Qabs_nonneg a). pose proof (Qabs_nonneg b). lra. }
  unfold balanceOf. intros H.
  apply bind_Some in H as (Ls & _ & H). apply bind_Some in H as (Rs & _ & H).
  apply bind_Some in H as (Lh & _ & H). apply bind_Some in H as (Rh & _ & H).
  apply (inj Some) in H. rewrite <- H. apply G.
Qed.

(** What [updatePoseFactors] does to the smoothed signals, to the latch
    [sadnessFromAvgY.inMax] and to the follow transform. *)
Lemma updatePoseFactors_metrics (env : Env) (pose : Pose) (s s' : State) :
  updatePoseFactors env pose s = Some s' ->
  (List.filter confident (keypoints pose) = [] /\ s' = s) \/
  (List.filter confident (keypoints pose) <> [] /\
   follow s' = follow s /\
   sadnessInMax s'
   = Some (match sadnessInMax s with None => height env | Some v => v end) /\
   exists vNorm structure bal lean avgY,
     0 <= vNorm <= 1 /\ 0 <= structure <= 1 /\ 0 <= bal /\ 0 <= lean <= 1 /\
     metrics s'
     = mkMetrics (lerp (movementVelocity (metrics s)) vNorm TUNE.velocity.vBlend)
                 (lerp (fastVel (metrics s)) vNorm TUNE.velocity.fastEMA)
                 (lerp (slowVel (metrics s)) vNorm TUNE.velocity.slowEMA)
                 (lerp (smoothedStructure (metrics s)) structure 0.15)
                 (lerp (smoothedBalance (metrics s)) bal 0.15)
                 (lerp (smoothedPostureLean (metrics s)) lean 0.15)
                 (lerp (smoothedAvgY (metrics s)) avgY 0.1)).
Proof.
  unfold updatePoseFactors. intros H.
  destruct (length (List.filter confident (keypoints pose)) =? 0)%nat eqn:E.
  - left. apply filter_length_0 in E. split; [exact E | congruence].
  - right. split.
    { intros E0. apply filter_length_0 in E0. congruence. }
    cbv zeta in H.
    apply bind_Some in H as (vn & _ & H).
    apply bind_Some in H as (bn & _ & H).
    apply bind_Some in H as (structure & Hst & H).
    apply bind_Some in H as (bal & Hbal & H).
    apply bind_Some in H as (lean & Hlean & H).
    apply bind_Some in H as (avgY & _ & H).
    apply bind_Some in H as (pAnxiety & _ & H).
    apply bind_Some in H as (pCalm & _ & H).
    apply bind_Some in H as (pSadness & _ & H).
    apply bind_Some in H as (pFear & _ & H).
    apply bind_Some in H as (pJoy & _ & H).
    apply bind_Some in H as (e1 & _ & H).
    apply bind_Some in H as (e2 & _ & H).
    apply bind_Some in H as (e3 & _ & H).
    apply bind_Some in H as (e4 & _ & H).
    apply bind_Some in H as (e5 & _ & H).
    apply bind_Some in H as (e6 & _ & H).
    injection H as <-. simpl.
    split; [reflexivity|]. split; [reflexivity|].
    exists (clamp01 vn), structure, bal, lean, avgY.
    split; [apply clamp01_range|].
    split; [eapply structureOf_range; exact Hst|].
    split; [eapply balanceOf_range; exact Hbal|].
    split; [eapply leanOf_range; exact Hlean|].
    reflexivity.
Qed.

(** The transform tracker and the anchor write the follow transform only,
    and never its [followPose] switch. *)
Lemma updatePoseTransform_rest (env : Env) (pose : Pose) (s : State) :
  metrics (updatePoseTransform env pose s) = metrics s /\
  sadnessInMax (updatePoseTransform env pose s) = sadnessInMax s /\
  trackingStarted (updatePoseTransform env pose s) = trackingStarted s /\
  followPose (follow (updatePoseTransform env pose s)) = followPose (follow s).
Proof.
  unfold updatePoseTransform.
  destruct (getFirst pose "leftShoulder"), (getFirst pose "rightShoulder"),
    (getFirst pose "leftHip"), (getFirst pose "rightHip"); repeat split.
Qed.

Lemma updatePoseAnchor_rest (env : Env) (pose : Pose) (s : State) :
  metrics (updatePoseAnchor env pose s) = metrics s /\
  sadnessInMax (updatePoseAnchor env pose s) = sadnessInMax s /\
  trackingStarted (updatePoseAnchor env pose s) = trackingStarted s /\
  followPose (follow (updatePoseAnchor env pose s)) = followPose (follow s) /\
  poseSc (follow (updatePoseAnchor env pose s)) = poseSc (follow s).
Proof.
  unfold updatePoseAnchor.
  destruct (getFirst pose "leftShoulder"), (getFirst pose "rightShoulder"),
    (getFirst pose "leftHip"), (getFirst pose "rightHip"); repeat split.
Qed.

(** A tick, taken apart: the affect mapper, the transform tracker, the
    seven blocks and the anchor, in that order. *)
Lemma onPose_stages (env : Env) (pose : Pose) (s s' : State) :
  onPose env pose s = Some s' ->
  (trackingStarted s = false /\ s' = s) \/
  (trackingStarted s = true /\
   exists s1 s2,
     updatePoseFactors env pose s = Some s1 /\
     runBlocks env pose blockOrder (updatePoseTransform env pose s1) = Some s2 /\
     s' = updatePoseAnchor env pose s2).
Proof.
  unfold onPose. intros H. destruct (trackingStarted s); simpl in H.
  - right. split; [reflexivity|].
    apply bind_Some in H as (s1 & H1 & H). apply bind_Some in H as (s2 & H2 & [= <-]).
    rewrite coupleRegionsToPose_blocks in H2. eauto.
  - left. split; [reflexivity | congruence].
Qed.

Lemma metrics_lerp_range (m : Metrics) (vNorm structure bal lean avgY : Q) :
  metricsInRange m ->
  0 <= vNorm <= 1 -> 0 <= structure <= 1 -> 0 <= bal -> 0 <= lean <= 1 ->
  metricsInRange
    (mkMetrics (lerp (movementVelocity m) vNorm TUNE.velocity.vBlend)
               (lerp (fastVel m) vNorm TUNE.velocity.fastEMA)
               (lerp (slowVel m) vNorm TUNE.velocity.slowEMA)
               (lerp (smoothedStructure m) structure 0.15)
               (lerp (smoothedBalance m) bal 0.15)
               (lerp (smoothedPostureLean m) lean 0.15)
               (lerp (smoothedAvgY m) avgY 0.1)).
Proof.
  intros (H1 & H2 & H3 & H4 & H5 & H6) Hv Hs Hb Hl.
  unfold metricsInRange. cbn [movementVelocity fastVel slowVel smoothedStructure
    smoothedBalance smoothedPostureLean].
  do 4 (split; [apply lerp_between; [vm_compute; split; discriminate | assumption..]|]).
  split; [unfold lerp; lra|].
  apply lerp_between; [vm_compute; split; discriminate | assumption..].
Qed.

Lemma step_metrics (e : Event) (s s' : State) :
  step s e = Some s' -> metricsInRange (metrics s) -> metricsInRange (metrics s').
Proof.
  destruct e as [|env pose|env emotion region force|env opts]; simpl; intros H Hm.
  - injection H as <-. unfold startTracking. destruct (trackingStarted s); exact Hm.
  - apply onPose_stages in H as [[_ ->]|(_ & s1 & s2 & H1 & H2 & ->)]; [exact Hm|].
    destruct (updatePoseAnchor_rest env pose s2) as (-> & _).
    apply runBlocks_rest in H2 as (_ & -> & _).
    destruct (updatePoseTransform_rest env pose s1) as (-> & _).
    apply updatePoseFactors_metrics in H1
      as [[_ ->]|(_ & _ & _ & vn & st & bal & lean & avgY & Hv & Hs & Hb & Hl & ->)];
      [exact Hm|].
    apply metrics_lerp_range; assumption.
  - injection H as <-. unfold applySliders.
    destruct (negb force && Qlt_bool (millis env) (blockIncomingUntil s)); exact Hm.
  - injection H as <-. unfold resetAll.
    destruct (resetPoseCaches opts); simpl; unfold metricsInRange; simpl; lra.
Qed.

(** X6.  The smoothed signals stay normalised on the runs that stay within
    the finite numbers: along every run of events on which no tick throws,
    reads a coordinate of a missing shoulder or hip, or divides by zero,
    from a state in which the three velocities, structure and lean are in
    [0,1] and balance is non-negative (as they are after [setup]), they
    still are after every event. *)
Theorem metrics_stay_normalised (es : list Event) (s0 s : State) :
  metricsInRange (metrics s0) -> run es s0 = Some s -> metricsInRange (metrics s).
Proof.
  intros H0 H.
  apply (run_invariant (fun s => metricsInRange (metrics s))) with (es := es) (s0 := s0);
    [|exact H|exact H0].
  intros e a b. apply step_metrics.
Qed.

Lemma step_sadnessInMax (e : Event) (s s' : State) (h : Q) :
  step s e = Some s' -> sadnessInMax s = Some h -> sadnessInMax s' = Some h.
Proof.
  destruct e as [|env pose|env emotion region force|env opts]; simpl; intros H Hh.
  - injection H as <-. unfold startTracking. destruct (trackingStarted s); exact Hh.
  - apply onPose_stages in H as [[_ ->]|(_ & s1 & s2 & H1 & H2 & ->)]; [exact Hh|].
    destruct (updatePoseAnchor_rest env pose s2) as (_ & -> & _).
    apply runBlocks_rest in H2 as (_ & _ & -> & _).
    destruct (updatePoseTransform_rest env pose s1) as (_ & -> & _).
    apply updatePoseFactors_metrics in H1 as [[_ ->]|(_ & _ & -> & _)]; [exact Hh|].
    rewrite Hh. reflexivity.
  - injection H as <-. unfold applySliders.
    destruct (negb force && Qlt_bool (millis env) (blockIncomingUntil s)); exact Hh.
  - injection H as <-. unfold resetAll, stopTracking.
    destruct (resetPoseCaches opts), (stopTrackingNow opts), (negb (trackingStarted s));
      exact Hh.
Qed.

(** X7.  The sadness scale latches: the first tick that passes the keypoint
    filter replaces the [null] of [sadnessFromAvgY.inMax] by the canvas
    height of that moment, and no later event changes it: not a tick on a
    resized canvas, and not [resetAll]. *)
Theorem sadness_scale_latches
    (env : Env) (pose : Pose) (s0 s1 s : State) (es : list Event) :
  trackingStarted s0 = true ->
  sadnessInMax s0 = None ->
  List.filter confident (keypoints pose) <> [] ->
  onPose env pose s0 = Some s1 ->
  run es s1 = Some s ->
  sadnessInMax s = Some (height env).
Proof.
  intros Ht H0 Hkp H1 Hrun.
  apply (run_invariant (fun s => sadnessInMax s = Some (height env)))
    with (es := es) (s0 := s1); [|exact Hrun|].
  { intros e a b. apply step_sadnessInMax. }
  apply onPose_stages in H1 as [[Hf _]|(_ & a & b & Ha & Hb & ->)]; [congruence|].
  destruct (updatePoseAnchor_rest env pose b) as (_ & -> & _).
  apply runBlocks_rest in Hb as (_ & _ & -> & _).
  destruct (updatePoseTransform_rest env pose a) as (_ & -> & _).
  apply updatePoseFactors_metrics in Ha as [[Hnil _]|(_ & _ & -> & _)]; [contradiction|].
  rewrite H0. reflexivity.
Qed.

Lemma updatePoseTransform_scale (env : Env) (pose : Pose) (s : State) :
  0.6 <= poseSc (follow s) <= 1.8 ->
  0.6 <= poseSc (follow (updatePoseTransform env pose s)) <= 1.8.
Proof.
  intros Hs. unfold updatePoseTransform.
  destruct (getFirst pose "leftShoulder"), (getFirst pose "rightShoulder"),
    (getFirst pose "leftHip"), (getFirst pose "rightHip"); try exact Hs.
  cbn [follow set_follow poseSc].
  apply lerp_between; [vm_compute; split; discriminate | exact Hs |].
  apply constrain_range. vm_compute. discriminate.
Qed.

Lemma step_follow (e : Event) (s s' : State) :
  step s e = Some s' ->
  (0.6 <= poseSc (follow s) <= 1.8 -> 0.6 <= poseSc (follow s') <= 1.8) /\
  (followPose (follow s) = false -> followPose (follow s') = false).
Proof.
  destruct e as [|env pose|env emotion region force|env opts]; simpl; intros H.
  - injection H as <-. unfold startTracking. destruct (trackingStarted s); split; auto.
  - apply onPose_stages in H as [[_ ->]|(_ & s1 & s2 & H1 & H2 & ->)]; [split; auto|].
    destruct (updatePoseAnchor_rest env pose s2) as (_ & _ & _ & -> & ->).
    apply runBlocks_rest in H2 as (-> & _).
    assert (E : follow s1 = follow s).
    { apply updatePoseFactors_metrics in H1 as [[_ ->]|(_ & E & _)]; [reflexivity | exact E]. }
    split.
    + intros Hs. apply updatePoseTransform_scale. rewrite E. exact Hs.
    + destruct (updatePoseTransform_rest env pose s1) as (_ & _ & _ & ->).
      rewrite E. auto.
  - injection H as <-. unfold applySliders.
    destruct (negb force && Qlt_bool (millis env) (blockIncomingUntil s)); split; auto.
  - injection H as <-. unfold resetAll.
    destruct (resetPoseCaches opts); simpl; split; intros _; try reflexivity; lra.
Qed.

(** X8.  The follow scale stays within the bounds of its clamp: along every run
    from a state with [poseSc] in [0.6, 1.8] (it is 1 after [setup] and
    after every reset), [poseSc] is in [0.6, 1.8] after every event. *)
Theorem follow_scale_stays_clamped (es : list Event) (s0 s : State) :
  0.6 <= poseSc (follow s0) <= 1.8 ->
  run es s0 = Some s ->
  0.6 <= poseSc (follow s) <= 1.8.
Proof.
  intros H0 H.
  apply (run_invariant (fun s => 0.6 <= poseSc (follow s) <= 1.8))
    with (es := es) (s0 := s0); [|exact H|exact H0].
  intros e a b Hs. apply (step_follow e a b Hs).
Qed.

Lemma run_followPose (es : list Event) (s0 s : State) :
  followPose (follow s0) = false -> run es s0 = Some s -> followPose (follow s) = false.
Proof.
  intros H0 H.
  apply (run_invariant (fun s => followPose (follow s) = false))
    with (es := es) (s0 := s0); [|exact H|exact H0].
  intros e a b Hs. apply (step_follow e a b Hs).
Qed.

End Invariants.

Section Ticks2.
Context {M : JSMath}.

(** X10.  Within one tick the anchor is steered twice toward the same torso
    centre, by 0.20 in [updatePoseTransform] and by 0.25 in
    [updatePoseAnchor]: when both shoulders and both hips pass, a tick moves
    [poseTx] and [poseTy] two fifths of the way to the centre, and stamps
    [_poseSeenAt] with the clock. *)
Theorem tick_steers_anchor_two_fifths
    (env : Env) (pose : Pose) (s s' : State) (ls rs lh rh : Point.t) :
  trackingStarted s = true ->
  onPose env pose s = Some s' ->
  getFirst pose "leftShoulder" = Some ls ->
  getFirst pose "rightShoulder" = Some rs ->
  getFirst pose "leftHip" = Some lh ->
  getFirst pose "rightHip" = Some rh ->
  poseTx (follow s') == lerp (poseTx (follow s)) (Point.x (torsoCentre ls rs lh rh)) 0.4 /\
  poseTy (follow s') == lerp (poseTy (follow s)) (Point.y (torsoCentre ls rs lh rh)) 0.4 /\
  poseSeenAt (follow s') = millis env.
Proof.
  intros Ht H Hls Hrs Hlh Hrh.
  apply onPose_stages in H as [[Hf _]|(_ & s1 & s2 & H1 & H2 & ->)]; [congruence|].
  assert (E1 : follow s1 = follow s).
  { apply updatePoseFactors_metrics in H1 as [[_ ->]|(_ & E & _)]; [reflexivity | exact E]. }
  apply runBlocks_rest in H2 as (E2 & _).
  unfold updatePoseAnchor. rewrite Hls, Hrs, Hlh, Hrh.
  cbn [follow set_follow poseTx poseTy poseSeenAt]. rewrite E2.
  unfold updatePoseTransform. rewrite Hls, Hrs, Hlh, Hrh.
  cbn [follow set_follow poseTx poseTy poseSeenAt]. rewrite E1.
  unfold torsoCentre, lerp, TUNE.follow.lerp_tx, TUNE.follow.lerp_ty.
  cbn [Point.x Point.y].
  split; [ring | split; [ring | reflexivity]].
Qed.

Lemma find_named_confident (l : list Keypoint) (name : string) (k : Keypoint) :
  List.find (fun p => String.eqb (part p) name) l = Some k ->
  confident k = true ->
  List.find (fun p => String.eqb (part p) name && confident p) l = Some k.
Proof.
  induction l as [|a l IH]; simpl; [discriminate|].
  destruct (String.eqb (part a) name) eqn:E; simpl.
  - intros [= ->] Hc. rewrite Hc. reflexivity.
  - exact IH.
Qed.

Lemma find_named_unique (l : list Keypoint) (name : string) (k : Keypoint) :
  NoDup (map part l) ->
  List.find (fun p => String.eqb (part p) name && confident p) l = Some k ->
  List.find (fun p => String.eqb (part p) name) l = Some k.
Proof.
  induction l as [|a l IH]; simpl; [discriminate|].
  intros Hnd. apply NoDup_cons in Hnd as [Hna Hnd].
  destruct (String.eqb (part a) name) eqn:E; simpl.
  - destruct (confident a) eqn:Ec; [auto|].
    intros Hk. exfalso. apply find_some in Hk as [Hin Hk].
    apply andb_prop in Hk as [Hk _]. apply String.eqb_eq in E, Hk.
    apply Hna. rewrite E, <- Hk. apply list_elem_of_fmap. exists k. split; [reflexivity|].
    apply list_elem_of_In, Hin.
  - apply IH, Hnd.
Qed.

(** X11.  The two keypoint lookups of the sketch.  The follow tracker and the
    anchor take the first keypoint of a name and then test its score; the
    region coupler takes the first keypoint of that name that passes the
    score test.  Whatever the first finds the second finds too, and they
    agree on every frame that lists each part once. *)
Theorem follow_lookup_is_stricter (pose : Pose) (name : string) :
  (forall pos, getFirst pose name = Some pos -> get pose name = Some pos) /\
  (NoDup (map part (keypoints pose)) -> getFirst pose name = get pose name).
Proof.
  assert (H1 : forall pos, getFirst pose name = Some pos -> get pose name = Some pos).
  { intros pos. unfold getFirst, get, findPart.
    destruct (List.find (fun p => String.eqb (part p) name) (keypoints pose)) as [k|] eqn:E;
      [|discriminate].
    destruct (confident k) eqn:Ec; [|discriminate].
    intros [= <-]. rewrite (find_named_confident _ _ _ E Ec). reflexivity. }
  split; [exact H1|].
  intros Hnd. destruct (get pose name) as [pos|] eqn:Eg.
  - unfold get, findPart in Eg. unfold getFirst.
    destruct (List.find _ (keypoints pose)) as [k|] eqn:Ek in Eg; [|discriminate].
    injection Eg as <-.
    rewrite (find_named_unique _ _ _ Hnd Ek).
    apply find_some in Ek as [_ Ek]. apply andb_prop in Ek as [_ ->]. reflexivity.
  - destruct (getFirst pose name) as [pos|] eqn:Ef; [|reflexivity].
    specialize (H1 pos eq_refl). discriminate.
Qed.

Lemma fresh_empty (pose : Pose) (name : string) : fresh ∅ pose name.
Proof. intros pos prev _ H. rewrite lookup_empty in H. discriminate. Qed.

(** X12.  The first tick after the caches were cleared sees no motion: the global
    velocity is 0 and so is the velocity every block of the coupler is
    handed, tested or not, wherever the figure stands. *)
Theorem first_tick_sees_no_motion (env : Env) (pose : Pose) (s : State) :
  prevKeypoints s = None ->
  prevByPart s = ∅ ->
  velAvg env (prevKeypoints s) (List.filter confident (keypoints pose)) = 0 /\
  forall sa pre b post sb,
    updatePoseFactors env pose s = Some sa ->
    blockOrder = pre ++ b :: post ->
    runBlocks env pose pre (updatePoseTransform env pose sa) = Some sb ->
    fst (regionVelocity env pose (partsOf b) (prevByPart sb)) == 0.
Proof.
  intros Hk Hp. split; [rewrite Hk; reflexivity|].
  intros sa pre b post sb Ha _ Hb.
  apply regionVelocity_zero. intros name _.
  apply runBlocks_fresh in Hb as [Hb _]. apply Hb.
  destruct (updatePoseTransform_frame env pose sa) as (-> & _).
  assert (E : prevByPart sa = prevByPart s).
  { apply updatePoseFactors_spec in Ha as [[_ ->]|(_ & _ & E & _)]; [reflexivity | exact E]. }
  rewrite E, Hp. apply fresh_empty.
Qed.

End Ticks2.

(** [resetAll] with [resetPoseCaches] leaves the caches as the first tick
    needs them, also after tracking is switched on again. *)
Lemma resetAll_caches (env : Env) (opts : ResetOpts) (s : State) :
  resetPoseCaches opts = true ->
  prevKeypoints (startTracking (resetAll env opts s)) = None /\
  prevByPart (startTracking (resetAll env opts s)) = ∅.
Proof.
  intros Hr. unfold resetAll. rewrite Hr. unfold startTracking.
  match goal with |- context [if ?c then _ else _] => destruct c end; split; reflexivity.
Qed.

(** ** External writes, repeated *)

Lemma applySliders_forced_emotion (env : Env) (k : string) (v : Q) (s : State) (cur : Q) :
  emotionSliders s !! k = Some cur ->
  emotionSliders (applySliders env [(k, v)] [] true s) !! k = Some (lerp cur v 0.35).
Proof.
  intros Hk. unfold applySliders. simpl. rewrite applyOne_lookup. simpl.
  rewrite decide_True by reflexivity. rewrite Hk. reflexivity.
Qed.

(** X13.  [applySliders] never jumps to the value it is sent: each call closes
    35% of the gap, so after [n] forced calls with the same value [v] the
    gap left on an emotion slider is [0.65^n] times the gap it started
    with. *)
Theorem repeated_apply_closes_gap_geometrically
    (env : Env) (k : string) (v cur : Q) (s : State) (n : nat) :
  emotionSliders s !! k = Some cur ->
  exists cur',
    emotionSliders (Nat.iter n (applySliders env [(k, v)] [] true) s) !! k = Some cur' /\
    cur' - v == (13 # 20) ^ Z.of_nat n * (cur - v).
Proof.
  intros Hk. induction n as [|n (c & Hc & Hgap)].
  - exists cur. split; [exact Hk|]. simpl. ring.
  - exists (lerp c v 0.35). split.
    + simpl Nat.iter. apply applySliders_forced_emotion, Hc.
    + rewrite Nat2Z.inj_succ, <- Z.add_1_r, Qpower_plus by discriminate.
      assert (E : lerp c v 0.35 - v == (13 # 20) * (c - v)) by (unfold lerp; ring).
      rewrite E, Hgap. change ((13 # 20) ^ 1) with (13 # 20). ring.
Qed.

(** ** The set of sliders *)

Section Keys.
Context {M : JSMath}.

Lemma blendSlider_dom (k : string) (p : Q) (m m' : gmap string Q) :
  blendSlider k p m = Some m' -> dom m' = dom m.
Proof.
  unfold blendSlider. intros H. apply bind_Some in H as (cur & Hcur & [= <-]).
  apply dom_insert_lookup_L. eauto.
Qed.

Lemma lerpSlider_dom (r : string) (val t : Q) (m m' : gmap string Q) :
  lerpSlider r val t m = Some m' -> dom m' = dom m.
Proof.
  unfold lerpSlider. intros H. apply bind_Some in H as (cur & Hcur & [= <-]).
  apply dom_insert_lookup_L. eauto.
Qed.

Lemma foldl_applyOne_dom (l : list (string * Q)) (m : gmap string Q) :
  dom (foldl applyOne m l) = dom m.
Proof.
  revert m. induction l as [|kv l IH]; intros m; [reflexivity|].
  simpl. rewrite IH. unfold applyOne.
  destruct (m !! fst kv) eqn:E; [|reflexivity].
  apply dom_insert_lookup_L. eauto.
Qed.

Lemma foldl_zeroOne_dom (l : list string) (m : gmap string Q) :
  dom (foldl zeroOne m l) = dom m.
Proof.
  revert m. induction l as [|k l IH]; intros m; [reflexivity|].
  simpl. rewrite IH. unfold zeroOne.
  destruct (m !! k) eqn:E; [|reflexivity].
  apply dom_insert_lookup_L. eauto.
Qed.

Lemma runBlocks_dom (env : Env) (pose : Pose) (bs : list Block) (s s' : State) :
  runBlocks env pose bs s = Some s' ->
  dom (emotionSliders s') = dom (emotionSliders s) /\
  dom (regionSliders s') = dom (regionSliders s).
Proof.
  revert s. induction bs as [|b bs IH]; intros s H.
  - injection H as <-. split; reflexivity.
  - simpl in H. apply bind_Some in H as (s1 & H1 & H).
    apply IH in H as [-> ->].
    apply runBlock_spec in H1 as [[_ ->]|[_ (val & rs' & _ & Hl & ->)]];
      [split; reflexivity|].
    split; [reflexivity|]. simpl. eapply lerpSlider_dom, Hl.
Qed.

Lemma step_dom (e : Event) (s s' : State) :
  step s e = Some s' ->
  dom (emotionSliders s') = dom (emotionSliders s) /\
  dom (regionSliders s') = dom (regionSliders s).
Proof.
  destruct e as [|env pose|env emotion region force|env opts]; simpl; intros H.
  - injection H as <-. unfold startTracking. destruct (trackingStarted s); split; reflexivity.
  - apply onPose_stages in H as [[_ ->]|(_ & s1 & s2 & H1 & H2 & ->)]; [split; reflexivity|].
    destruct (updatePoseAnchor_frame env pose s2) as (_ & _ & -> & ->).
    apply runBlocks_dom in H2 as [-> ->].
    destruct (updatePoseTransform_frame env pose s1) as (_ & _ & -> & ->).
    apply updatePoseFactors_spec in H1 as [[_ ->]|(_ & -> & _ & _ & _ & _ & Hb)];
      [split; reflexivity|].
    split; [|reflexivity].
    destruct Hb as (pA & pC & pS & pF & pJ & pG & e1 & e2 & e3 & e4 & e5 &
                    _ & _ & _ & _ & _ & _ & B1 & B2 & B3 & B4 & B5 & B6).
    rewrite (blendSlider_dom _ _ _ _ B6), (blendSlider_dom _ _ _ _ B5),
      (blendSlider_dom _ _ _ _ B4), (blendSlider_dom _ _ _ _ B3),
      (blendSlider_dom _ _ _ _ B2), (blendSlider_dom _ _ _ _ B1). reflexivity.
  - injection H as <-. unfold applySliders.
    destruct (negb force && Qlt_bool (millis env) (blockIncomingUntil s));
      [split; reflexivity|].
    simpl. rewrite !foldl_applyOne_dom. split; reflexivity.
  - injection H as <-.
    rewrite resetAll_emotionSliders, resetAll_regionSliders, !foldl_zeroOne_dom.
    unfold stopTracking.
    destruct (stopTrackingNow opts), (negb (trackingStarted s)); split; reflexivity.
Qed.

(** X14.  No event creates or removes a slider: along every run the emotion
    store and the region store keep the key sets they started with (after
    [setup]: the six emotions, and the six regions with the spine).  A key
    that [applySliders] is sent and that names no slider is dropped. *)
Theorem slider_set_is_fixed (es : list Event) (s0 s : State) :
  run es s0 = Some s ->
  dom (emotionSliders s) = dom (emotionSliders s0) /\
  dom (regionSliders s) = dom (regionSliders s0).
Proof.
  intros H.
  apply (run_invariant
           (fun s => dom (emotionSliders s) = dom (emotionSliders s0) /\
                     dom (regionSliders s) = dom (regionSliders s0)))
    with (es := es) (s0 := s0); [|exact H|split; reflexivity].
  intros e a b Hs [Ha Hb]. apply step_dom in Hs as [-> ->]. split; assumption.
Qed.

End Keys.

(** ** When a run completes *)

Section Completes.
Context {M : JSMath}.

Lemma onPose_defined (env : Env) (pose : Pose) (s : State) :
  ~ PI == 0 ->
  wellFormedEvent (EvPose env pose) ->
  slidersPresent s ->
  is_Some (onPose env pose s).
Proof.
  intros Hpi ((Ls & Rs & Lh & Rh & HLs & HRs & HLh & HRh & Hspan) & Hget & Hh) (He & Hr & Hs).
  unfold onPose. destruct (negb (trackingStarted s)); [eauto|].
  destruct (updatePoseFactors_defined env pose s Ls Rs Lh Rh HLs HRs HLh HRh Hspan Hpi)
    as [s1 H1].
  { destruct (sadnessInMax s) as [v|] eqn:E; [apply Hs; reflexivity | exact Hh]. }
  { exact He. }
  rewrite H1. cbn [mbind option_bind].
  destruct (coupleRegionsToPose_defined env pose (updatePoseTransform env pose s1))
    as [s2 H2].
  { intros b. destruct (updatePoseTransform_frame env pose s1) as (_ & _ & _ & ->).
    apply updatePoseFactors_spec in H1 as [[_ ->]|(_ & -> & _)]; apply Hr. }
  { exact Hget. }
  rewrite H2. cbn [mbind option_bind]. eauto.
Qed.

Lemma step_present (e : Event) (s s' : State) :
  wellFormedEvent e -> step s e = Some s' -> slidersPresent s -> slidersPresent s'.
Proof.
  intros Hwf H (He & Hr & Hs).
  destruct (step_dom e s s' H) as [De Dr].
  split; [|split].
  - intros k Hk. apply elem_of_dom. rewrite De. apply elem_of_dom, He, Hk.
  - intros b. apply elem_of_dom. rewrite Dr. apply elem_of_dom, Hr.
  - destruct e as [|env pose|env emotion region force|env opts]; simpl in H.
    + injection H as <-. unfold startTracking. destruct (trackingStarted s); exact Hs.
    + apply onPose_stages in H as [[_ ->]|(_ & s1 & s2 & H1 & H2 & ->)]; [exact Hs|].
      destruct (updatePoseAnchor_rest env pose s2) as (_ & -> & _).
      apply runBlocks_rest in H2 as (_ & _ & -> & _).
      destruct (updatePoseTransform_rest env pose s1) as (_ & -> & _).
      apply updatePoseFactors_metrics in H1 as [[_ ->]|(_ & _ & -> & _)]; [exact Hs|].
      intros v [= <-]. destruct (sadnessInMax s) as [v|] eqn:E; [apply Hs; reflexivity|].
      destruct Hwf as (_ & _ & Hh). exact Hh.
    + injection H as <-. unfold applySliders.
      destruct (negb force && Qlt_bool (millis env) (blockIncomingUntil s)); exact Hs.
    + injection H as <-. unfold resetAll, stopTracking.
      destruct (resetPoseCaches opts), (stopTrackingNow opts), (negb (trackingStarted s));
        exact Hs.
Qed.

(** X15.  A run on well-formed frames completes: when every detector frame of
    the run names both shoulders and both hips, has its shoulders apart and
    finds a canvas with a height, no tick of the run throws or divides by
    zero, from any state that has the sliders [setup] creates, whatever
    starts, external writes and resets come in between. *)
Theorem well_formed_runs_complete (es : list Event) (s0 : State) :
  ~ PI == 0 ->
  Forall wellFormedEvent es ->
  slidersPresent s0 ->
  exists s, run es s0 = Some s /\ slidersPresent s.
Proof.
  intros Hpi Hes. revert s0. induction Hes as [|e es He _ IH]; intros s0 H0.
  - exists s0. split; [reflexivity | exact H0].
  - assert (Hstep : is_Some (step s0 e)).
    { destruct e as [|env pose|env emotion region force|env opts]; simpl; eauto.
      apply onPose_defined; assumption. }
    destruct Hstep as [s1 H1].
    destruct (IH s1) as (s & Hs & Hp); [eapply step_present; eassumption|].
    exists s. split; [|exact Hp]. simpl. rewrite H1. exact Hs.
Qed.

Lemma Qlt_bool_true (a b : Q) : a < b -> Qlt_bool a b = true.
Proof.
  intros H. unfold Qlt_bool. destruct (Qle_bool b a) eqn:E; [|reflexivity].
  apply Qle_bool_iff in E. lra.
Qed.

Lemma Qeq_bool_false (a b : Q) : ~ a == b -> Qeq_bool a b = false.
Proof.
  intros H. destruct (Qeq_bool a b) eqn:E; [|reflexivity].
  apply Qeq_bool_iff in E. contradiction.
Qed.

(** X16.  Coincident shoulders do not stop the source.  With the two
    shoulders at one point the structure estimate of the source is
    [clamp01(Infinity)], that is 1, when both wrists are off that point, and
    [NaN] when a wrist is on it; the finite model has no value for such a
    frame.  On every frame for which the finite model has a structure
    estimate, the source computes that value. *)
Theorem coincident_shoulders_saturate_structure (pose : Pose) :
  (forall q, structureOf pose = Some q -> structureJS pose = Fin q) /\
  (forall P Lw Rw,
     leftShoulder pose = Some P -> rightShoulder pose = Some P ->
     leftWrist pose = Some Lw -> rightWrist pose = Some Rw ->
     let dL := dist (Point.x P) (Point.y P) (Point.x Lw) (Point.y Lw) in
     let dR := dist (Point.x P) (Point.y P) (Point.x Rw) (Point.y Rw) in
     structureOf pose = None /\
     (0 < dL -> 0 < dR -> structureJS pose = Fin 1) /\
     (dL == 0 \/ dR == 0 -> structureJS pose = NaN)).
Proof.
  split.
  - intros q H. unfold structureOf in H. unfold structureJS.
    destruct (leftShoulder pose) as [Ls|]; [|injection H as <-; reflexivity].
    destruct (rightShoulder pose) as [Rs|]; [|injection H as <-; reflexivity].
    destruct (leftWrist pose) as [Lw|]; [|injection H as <-; reflexivity].
    destruct (rightWrist pose) as [Rw|]; [|injection H as <-; reflexivity].
    cbv zeta in H |- *. unfold fdiv in H.
    destruct (Qeq_bool (dist (Point.x Ls) (Point.y Ls) (Point.x Rs) (Point.y Rs)) 0) eqn:E;
      [discriminate|].
    cbn [mbind option_bind] in H. unfold p5map, fdiv in H.
    unfold ndiv. rewrite E. cbn [nadd nmul]. unfold p5mapN. cbn [nsub ndiv].
    destruct (Qeq_bool (2.0 - 0.7) 0) eqn:E2; [discriminate|].
    cbn [mbind option_bind] in H. apply (inj Some) in H. subst q.
    reflexivity.
  - intros P Lw Rw HLs HRs HLw HRw. cbv zeta.
    assert (E : Qeq_bool (dist (Point.x P) (Point.y P) (Point.x P) (Point.y P)) 0 = true).
    { apply Qeq_bool_iff. unfold dist. apply hypot_zero; ring. }
    split; [|split].
    + unfold structureOf. rewrite HLs, HRs, HLw, HRw. cbv zeta.
      unfold fdiv. rewrite E. reflexivity.
    + intros HL HR. unfold structureJS. rewrite HLs, HRs, HLw, HRw. cbv zeta.
      unfold ndiv. rewrite E.
      rewrite !Qeq_bool_false by lra. rewrite !Qlt_bool_true by assumption.
      reflexivity.
    + intros Hz. unfold structureJS. rewrite HLs, HRs, HLw, HRw. cbv zeta.
      unfold ndiv. rewrite E. destruct Hz as [Hz|Hz].
      * apply Qeq_bool_iff in Hz. rewrite Hz. reflexivity.
      * apply Qeq_bool_iff in Hz. rewrite Hz.
        destruct (Qeq_bool (dist (Point.x P) (Point.y P) (Point.x Lw) (Point.y Lw)) 0);
          [reflexivity|].
        destruct (Qlt_bool 0 (dist (Point.x P) (Point.y P) (Point.x Lw) (Point.y Lw)));
          reflexivity.
Qed.

End Completes.

(** ** The channel to the control surface *)

Lemma orElse_nonzero (a d : Q) : ~ d == 0 -> ~ orElse a d == 0.
Proof.
  intros Hd. unfold orElse. destruct (Qeq_bool a 0) eqn:E; [exact Hd|].
  apply Qeq_bool_neq, E.
Qed.

Lemma orElse_pos (a d : Q) : 0 <= a -> 0 < d -> 0 < orElse a d.
Proof.
  intros Ha Hd. unfold orElse. destruct (Qeq_bool a 0) eqn:E; [exact Hd|].
  apply Qeq_bool_neq in E. lra.
Qed.

Lemma orElse_self (a : Q) : orElse a 0 == a.
Proof.
  unfold orElse. destruct (Qeq_bool a 0) eqn:E; [|reflexivity].
  apply Qeq_bool_iff in E. rewrite E. reflexivity.
Qed.

(** X18.  The keypoint message is sent when there is a control surface and the
    pose has keypoints; it lists every keypoint of the pose, in order, with
    its name and score and its position divided by the capture size, which
    is never zero: multiplying back by [vw] and [vh] recovers the position,
    and a keypoint inside a capture of non-negative size has coordinates in
    [0,1]. *)
Theorem keypoint_message_normalises (env : Env) (pose : Pose) (pg : Page) :
  (hasDisplay pg = false \/ keypoints pose = [] <-> emitPoseToControl env pose pg = []) /\
  forall m, m ∈ emitPoseToControl env pose pg ->
    exists pts vw vh,
      m = PoseKeypoints pts vw vh (millis env) /\
      ~ vw == 0 /\ ~ vh == 0 /\
      Forall2 (fun k e =>
                 e.1.1.1 = part k /\ e.2 = score k /\
                 e.1.1.2 * vw == Point.x (position k) /\
                 e.1.2 * vh == Point.y (position k) /\
                 (0 <= videoWidth env -> 0 <= Point.x (position k) <= vw ->
                  0 <= e.1.1.2 <= 1) /\
                 (0 <= videoHeight env -> 0 <= Point.y (position k) <= vh ->
                  0 <= e.1.2 <= 1))
              (keypoints pose) pts.
Proof.
  unfold emitPoseToControl. split.
  - destruct (hasDisplay pg); simpl.
    + destruct (keypoints pose) as [|k l]; simpl.
      * split; auto.
      * split; [intros [?|?]; discriminate | discriminate].
    + split; auto.
  - intros m Hm.
    destruct (negb (hasDisplay pg) || (length (keypoints pose) =? 0)%nat);
      [inversion Hm|].
    cbv zeta in Hm. apply list_elem_of_singleton in Hm as ->.
    eexists _, _, _. split; [reflexivity|].
    assert (Hw : ~ orElse (videoWidth env) 640 == 0) by (apply orElse_nonzero; discriminate).
    assert (Hh : ~ orElse (videoHeight env) 480 == 0) by (apply orElse_nonzero; discriminate).
    split; [exact Hw|]. split; [exact Hh|].
    induction (keypoints pose) as [|k l IH]; simpl; constructor; [|exact IH].
    simpl. split; [reflexivity|]. split; [reflexivity|].
    split; [field; exact Hw|]. split; [field; exact Hh|].
    split.
    + intros H0 [Hx0 Hx1].
      assert (Hp : 0 < orElse (videoWidth env) 640) by (apply orElse_pos; [exact H0 | reflexivity]).
      split; [apply Qle_shift_div_l; [exact Hp | lra] | apply Qle_shift_div_r; [exact Hp | lra]].
    + intros H0 [Hy0 Hy1].
      assert (Hp : 0 < orElse (videoHeight env) 480) by (apply orElse_pos; [exact H0 | reflexivity]).
      split; [apply Qle_shift_div_l; [exact Hp | lra] | apply Qle_shift_div_r; [exact Hp | lra]].
Qed.

Lemma Qlt_bool_false (a b : Q) : Qlt_bool a b = false -> b <= a.
Proof.
  unfold Qlt_bool. intros H. apply negb_false_iff in H. apply Qle_bool_iff, H.
Qed.

(** What one call of [maybeEchoState] does. *)
Lemma maybeEchoState_spec (env : Env) (s : State) (pg pg' : Page) (ms : list Msg) :
  maybeEchoState env s pg = Some (pg', ms) ->
  (pg' = pg /\ ms = []) \/
  (250 <= millis env - lastEcho pg /\ pg' = set_lastEcho (millis env) pg /\
   exists emotion,
     Forall2 (fun n e => e.1 = n /\ emotionSliders s !! n = Some e.2) emotionNames emotion /\
     ms = [Echo emotion
             (map (fun n => (n, sliderNumber (regionSliders s) n))
                  (regionNames ++ ["spine"%string]))]).
Proof.
  unfold maybeEchoState. cbv zeta. intros H.
  destruct (negb (hasDisplay pg)); [left; injection H as <- <-; auto|].
  destruct (Qlt_bool (millis env - lastEcho pg) 250) eqn:E;
    [left; injection H as <- <-; auto|].
  right. apply Qlt_bool_false in E. split; [exact E|].
  apply bind_Some in H as (emotion & Hem & [= <- <-]). split; [reflexivity|].
  exists emotion. split; [|reflexivity].
  apply mapM_Some in Hem.
  eapply Forall2_impl; [exact Hem|]. simpl. intros n e He.
  apply bind_Some in He as (v & Hv & [= <-]). auto.
Qed.

Lemma spaced_earlier (d last last' : Q) (ts : list Q) :
  last <= last' -> spaced d last' ts -> spaced d last ts.
Proof.
  destruct ts as [|t ts]; simpl; [auto|]. intros Hl [Ht Hs]. split; [lra | exact Hs].
Qed.

Lemma timesOf_app (kind : Msg -> bool) (l1 l2 : list (Q * Msg)) :
  timesOf kind (l1 ++ l2) = timesOf kind l1 ++ timesOf kind l2.
Proof. unfold timesOf. rewrite List.filter_app, map_app. reflexivity. Qed.

Lemma timesOf_stamp_none (kind : Msg -> bool) (t : Q) (ms : list Msg) :
  Forall (fun m => kind m = false) ms ->
  timesOf kind (map (fun m => (t, m)) ms) = [].
Proof.
  intros H. induction H as [|m ms Hm _ IH]; [reflexivity|].
  unfold timesOf in *. simpl. rewrite Hm. exact IH.
Qed.

Lemma throttled_spaced (kind : Msg -> bool) (d mark now mark' : Q) (ms : list Msg)
    (log : list (Q * Msg)) :
  0 <= d ->
  throttled kind d mark now mark' ms ->
  spaced d mark' (timesOf kind log) ->
  spaced d mark (timesOf kind (map (fun m => (now, m)) ms ++ log)).
Proof.
  intros Hd Ht Hs. rewrite timesOf_app.
  assert (E : timesOf kind (map (fun m => (now, m)) ms)
              = map (fun _ => now) (List.filter kind ms)).
  { clear. unfold timesOf. induction ms as [|m ms IH]; [reflexivity|].
    simpl. destruct (kind m); simpl; rewrite IH; reflexivity. }
  rewrite E.
  destruct Ht as [[-> ->]|(Hgap & -> & [->|[m ->]])]; simpl.
  - exact Hs.
  - eapply spaced_earlier; [|exact Hs]. lra.
  - split; [exact Hgap | exact Hs].
Qed.

Section Throttles.
Context {M : JSMath}.

Lemma emitPoseMetrics_spec (env : Env) (perfNow : Q) (poses : list (option Detected))
    (s : State) (pg pg' : Page) (ms : list Msg) :
  emitPoseMetrics env perfNow poses s pg = (pg', ms) ->
  lastEcho pg' = lastEcho pg /\ lastPoseEmitAt pg' = lastPoseEmitAt pg /\
  hasDisplay pg' = hasDisplay pg /\
  List.filter isEcho ms = [] /\ List.filter isPoseKeypoints ms = [] /\
  throttled isPoseMetrics 80 (lastEmitMs pg) (millis env) (lastEmitMs pg') ms.
Proof.
  unfold emitPoseMetrics. cbv zeta.
  match goal with |- context [set_ebSession ?x pg] => generalize x end. intros sess'.
  cbn [lastEmitMs set_ebSession].
  destruct (Qlt_bool (millis env - lastEmitMs pg) 80) eqn:E.
  - intros [= <- <-]. repeat split. left. auto.
  - apply Qlt_bool_false in E. cbn [hasDisplay set_lastEmitMs set_ebSession].
    destruct (hasDisplay pg) eqn:Hd; intros [= <- <-];
      (split; [reflexivity|]); (split; [reflexivity|]); (split; [exact Hd|]);
      (split; [reflexivity|]); (split; [reflexivity|]);
      right; (split; [exact E|]); (split; [reflexivity|]); [right; eauto | left; reflexivity].
Qed.

Lemma startTrackingImpl_marks (perfNow : Q) (s s' : State) (pg pg' : Page) (ms : list Msg) :
  startTrackingImpl perfNow s pg = (s', pg', ms) ->
  lastEcho pg' = lastEcho pg /\ lastEmitMs pg' = lastEmitMs pg /\
  lastPoseEmitAt pg' = lastPoseEmitAt pg /\
  List.filter isEcho ms = [] /\ List.filter isPoseMetrics ms = [] /\
  List.filter isPoseKeypoints ms = [].
Proof.
  unfold startTrackingImpl. destruct (trackingStarted s).
  - intros [= <- <- <-]. repeat split.
  - cbv zeta. destruct pg as [sess rdy tr ts q1 q2 disp a b c]. simpl.
    destruct sess as [sess|]; [destruct (rdy && negb (SessionAverager.active sess))|];
      simpl; destruct disp; intros [= <- <- <-]; repeat split.
Qed.

Lemma pageStep_throttled (s : State) (pg : Page) (e : PageEvent)
    (s' : State) (pg' : Page) (ms : list Msg) :
  pageStep (s, pg) e = Some (s', pg', ms) ->
  let now := millis (eventEnv e) in
  throttled isEcho 250 (lastEcho pg) now (lastEcho pg') ms /\
  throttled isPoseMetrics 80 (lastEmitMs pg) now (lastEmitMs pg') ms /\
  throttled isPoseKeypoints POSE_EMIT_MS (lastPoseEmitAt pg) now (lastPoseEmitAt pg') ms.
Proof.
  assert (Hecho : forall env st p p' l,
            maybeEchoState env st p = Some (p', l) ->
            throttled isEcho 250 (lastEcho p) (millis env) (lastEcho p') l /\
            lastEmitMs p' = lastEmitMs p /\ lastPoseEmitAt p' = lastPoseEmitAt p /\
            hasDisplay p' = hasDisplay p /\
            List.filter isPoseMetrics l = [] /\ List.filter isPoseKeypoints l = []).
  { intros env st p p' l H.
    apply maybeEchoState_spec in H as [[-> ->]|(Hgap & -> & em & _ & ->)].
    - repeat split. left. auto.
    - repeat split. right. split; [exact Hgap|]. split; [reflexivity|]. right. eauto. }
  destruct e as [env perfNow|env perfNow results|env emotion region force|env ec rpc];
    cbn [pageStep eventEnv fst snd]; intros H; cbv zeta.
  - injection H as H. apply startTrackingImpl_marks in H as (-> & -> & -> & F1 & F2 & F3).
    repeat split; left; auto.
  - unfold poseHandler in H. destruct (negb (trackingStarted s)).
    { injection H as <- <- <-. repeat split; left; auto. }
    destruct results as [|[p|] results]; try (injection H as <- <- <-; repeat split; left; auto).
    cbv zeta in H.
    apply bind_Some in H as (s1 & _ & H).
    apply bind_Some in H as ([pg1 m1] & H1 & H). simpl in H.
    destruct (emitPoseMetrics env perfNow (Some p :: results) s1 pg1) as [pg2 m2] eqn:H2.
    apply Hecho in H1 as (T1 & L1 & L2 & _ & F1 & F2).
    apply emitPoseMetrics_spec in H2 as (K1 & K2 & _ & G1 & G2 & T2).
    assert (Hkp : List.filter isEcho (emitPoseToControl env (d_pose p) pg2) = [] /\
                  List.filter isPoseMetrics (emitPoseToControl env (d_pose p) pg2) = [] /\
                  (List.filter isPoseKeypoints (emitPoseToControl env (d_pose p) pg2) = [] \/
                   exists m, List.filter isPoseKeypoints (emitPoseToControl env (d_pose p) pg2)
                             = [m])).
    { unfold emitPoseToControl.
      destruct (negb (hasDisplay pg2) || (length (keypoints (d_pose p)) =? 0)%nat); simpl;
        repeat split; eauto. }
    destruct Hkp as (P1 & P2 & P3).
    assert (T1' : forall l, List.filter isEcho l = [] ->
              throttled isEcho 250 (lastEcho pg) (millis env) (lastEcho pg2) (m1 ++ m2 ++ l)).
    { intros l Hl. rewrite K1.
      destruct T1 as [[-> E]|(Hg & -> & E)].
      - left. split; [reflexivity|]. rewrite !List.filter_app, E, G1, Hl. reflexivity.
      - right. split; [exact Hg|]. split; [reflexivity|].
        rewrite !List.filter_app, G1, Hl, !app_nil_r. exact E. }
    assert (T2' : forall l, List.filter isPoseMetrics l = [] ->
              throttled isPoseMetrics 80 (lastEmitMs pg) (millis env) (lastEmitMs pg2)
                (m1 ++ m2 ++ l)).
    { intros l Hl. rewrite <- L1.
      destruct T2 as [[-> E]|(Hg & -> & E)].
      - left. split; [reflexivity|]. rewrite !List.filter_app, E, F1, Hl. reflexivity.
      - right. split; [exact Hg|]. split; [reflexivity|].
        rewrite !List.filter_app, F1, Hl, !app_nil_r. exact E. }
    destruct (Qle_bool POSE_EMIT_MS (millis env - lastPoseEmitAt pg2)) eqn:E.
    + injection H as <- <- <-. cbn [lastEcho lastEmitMs lastPoseEmitAt set_lastPoseEmitAt].
      split; [apply T1', P1|]. split; [apply T2', P2|].
      right. apply Qle_bool_iff in E. rewrite K2, L2 in E. split; [exact E|].
      split; [reflexivity|]. rewrite !List.filter_app, F2, G2. exact P3.
    + injection H as <- <- <-.
      split; [rewrite <- (app_nil_r (m1 ++ m2)), <- app_assoc; apply T1'; reflexivity|].
      split; [rewrite <- (app_nil_r (m1 ++ m2)), <- app_assoc; apply T2'; reflexivity|].
      left. split; [rewrite K2, L2; reflexivity|]. rewrite List.filter_app, F2, G2. reflexivity.
  - unfold applySlidersEcho in H.
    destruct (negb force && Qlt_bool (millis env) (blockIncomingUntil s)).
    { injection H as <- <- <-. repeat split; left; auto. }
    cbv zeta in H. apply bind_Some in H as ([pg1 m1] & H1 & H). simpl in H.
    injection H as <- <- <-.
    apply Hecho in H1 as (T1 & -> & -> & _ & F1 & F2).
    split; [exact T1|]. split; left; auto.
  - revert H. generalize (mkResetOpts ec rpc false). intros opts H.
    unfold resetAllEcho in H. cbv zeta in H.
    assert (Ht : forall l : list Msg,
              List.filter isEcho ((if stopTrackingNow opts && hasDisplay pg
                                   then [Tracking false] else []) ++ l) = List.filter isEcho l /\
              List.filter isPoseMetrics ((if stopTrackingNow opts && hasDisplay pg
                                   then [Tracking false] else []) ++ l)
              = List.filter isPoseMetrics l /\
              List.filter isPoseKeypoints ((if stopTrackingNow opts && hasDisplay pg
                                   then [Tracking false] else []) ++ l)
              = List.filter isPoseKeypoints l).
    { intros l. destruct (stopTrackingNow opts && hasDisplay pg); repeat split. }
    destruct (echo opts).
    + apply bind_Some in H as ([pg1 m1] & H1 & H). simpl in H. injection H as <- <- <-.
      apply Hecho in H1 as (T1 & -> & -> & _ & F1 & F2).
      destruct (Ht m1) as (E1 & E2 & E3).
      unfold throttled. rewrite E1, E2, E3, F1, F2.
      split; [exact T1|]. split; left; auto.
    + injection H as <- <- <-. destruct (Ht []) as (E1 & E2 & E3).
      rewrite app_nil_r in E1, E2, E3.
      unfold throttled. rewrite E1, E2, E3. repeat split; left; auto.
Qed.

(** X19.  The three throttles hold along every run of the page: two echoes are
    at least 250 ms of page clock apart (whether a tick, an external write
    or a reset asked for them), two metrics messages at least 80 ms, two
    keypoint messages at least 80 ms, and the first of each kind comes at
    least that long after the throttle mark the run starts with. *)
Theorem display_calls_are_throttled
    (es : list PageEvent) (s s' : State) (pg pg' : Page) (log : list (Q * Msg)) :
  pageRun es (s, pg) = Some (s', pg', log) ->
  spaced 250 (lastEcho pg) (timesOf isEcho log) /\
  spaced 80 (lastEmitMs pg) (timesOf isPoseMetrics log) /\
  spaced POSE_EMIT_MS (lastPoseEmitAt pg) (timesOf isPoseKeypoints log).
Proof.
  revert s pg s' pg' log. induction es as [|e es IH]; intros s pg s' pg' log H.
  - injection H as <- <- <-. repeat split.
  - simpl in H. apply bind_Some in H as ([[s1 pg1] ms] & H1 & H). simpl in H.
    apply bind_Some in H as ([[s2 pg2] log2] & H2 & H). simpl in H.
    injection H as <- <- <-.
    apply IH in H2 as (I1 & I2 & I3).
    apply pageStep_throttled in H1 as (T1 & T2 & T3).
    split; [|split].
    + eapply throttled_spaced; [discriminate | exact T1 | exact I1].
    + eapply throttled_spaced; [discriminate | exact T2 | exact I2].
    + eapply throttled_spaced; [discriminate | exact T3 | exact I3].
Qed.

End Throttles.

Lemma sameValues_refl (m : gmap string Q) : sameValues m m.
Proof. intros k. destruct (m !! k); constructor. reflexivity. Qed.

Lemma applyOne_same (m0 m : gmap string Q) (kv : string * Q) :
  (forall cur, m0 !! fst kv = Some cur -> snd kv == cur) ->
  sameValues m m0 -> sameValues (applyOne m kv) m0.
Proof.
  intros Hv Hm k. rewrite applyOne_lookup. specialize (Hm k).
  destruct (decide (k = fst kv)) as [->|]; [|exact Hm].
  inversion Hm as [c c0 Hc Ec Ec0|Ec Ec0]; simpl; constructor.
  symmetry in Ec0. specialize (Hv c0 Ec0). unfold lerp. lra.
Qed.

Lemma foldl_applyOne_same (m0 : gmap string Q) (l : list (string * Q)) (m : gmap string Q) :
  Forall (fun kv => forall cur, m0 !! fst kv = Some cur -> snd kv == cur) l ->
  sameValues m m0 -> sameValues (foldl applyOne m l) m0.
Proof.
  intros Hl. revert m. induction Hl as [|kv l Hkv _ IH]; intros m Hm; [exact Hm|].
  simpl. apply IH, applyOne_same; assumption.
Qed.

(** X20.  An echo sent straight back is a fixed point: when the values
    [maybeEchoState] reports for a state are passed to [applySliders] in
    that state, every emotion and region slider keeps its value (a blend of
    a value with itself), forced or not, blocked or not. *)
Theorem echo_sent_back_changes_nothing
    (env env' : Env) (s : State) (pg pg' : Page) (emotion region : list (string * Q))
    (force : bool) :
  maybeEchoState env s pg = Some (pg', [Echo emotion region]) ->
  sameValues (emotionSliders (applySliders env' emotion region force s)) (emotionSliders s) /\
  sameValues (regionSliders (applySliders env' emotion region force s)) (regionSliders s).
Proof.
  assert (Hreg : forall names,
            Forall (fun kv => forall cur, regionSliders s !! fst kv = Some cur -> snd kv == cur)
                   (map (fun n => (n, sliderNumber (regionSliders s) n)) names)).
  { intros names. apply Forall_forall. intros kv Hkv cur Hcur.
    apply list_elem_of_fmap in Hkv as (n & -> & _). simpl in *.
    unfold sliderNumber. rewrite Hcur. apply orElse_self. }
  intros H. apply maybeEchoState_spec in H as [[_ H]|(_ & _ & em & Hem & H)]; [discriminate|].
  injection H as -> ->.
  unfold applySliders.
  destruct (negb force && Qlt_bool (millis env') (blockIncomingUntil s));
    [split; apply sameValues_refl|].
  cbn [emotionSliders regionSliders set_regionSliders set_emotionSliders]. split.
  - apply foldl_applyOne_same; [|apply sameValues_refl].
    induction Hem as [|n e names em [E1 He] _ IH]; constructor; [|exact IH].
    intros cur Hcur. rewrite E1, He in Hcur.
    injection Hcur as <-. reflexivity.
  - apply foldl_applyOne_same; [|apply sameValues_refl].
    apply (Hreg (regionNames ++ ["spine"%string])).
Qed.

(** ** The follow transform is never switched on *)

(** X9.  No function of the sketch sets [followPose]: along every run from a
    state in which it is off (as [setup] leaves it), [blitSceneTranslateOnly]
    translates to the centre of the canvas, whatever the follow transform
    holds and however fresh the last pose is. *)
Theorem scene_is_always_centred {M : JSMath}
    (cv : Canvas) (env : Env) (portrait : bool) (es : list Event) (s0 s : State) :
  followPose (follow s0) = false ->
  run es s0 = Some s ->
  blitTranslate cv env portrait s = Some (canvasWidth cv / 2, canvasHeight cv / 2).
Proof.
  intros H0 H. unfold blitTranslate.
  rewrite (run_followPose es s0 s H0 H). reflexivity.
Qed.

(** ** 11) Print flow *)

Lemma writeSlider_lookup (m : gmap string Q) (n : string) (v : option Q) (k : string) :
  writeSlider m n v !! k
  = if decide (k = n)
    then match v with Some x => (fun _ => x) <$> m !! k | None => m !! k end
    else m !! k.
Proof.
  unfold writeSlider. destruct (decide (k = n)) as [->|Hne].
  - destruct (m !! n) eqn:E, v; rewrite ?lookup_insert_eq, ?E; reflexivity.
  - destruct (m !! n), v; rewrite ?lookup_insert_ne by congruence; reflexivity.
Qed.

(** A loop of guarded writes, one per entry of a list without repeated
    names: a name that is not listed keeps its entry, a listed name gets
    the value of its entry. *)
Lemma foldl_writeSlider_lookup {A : Type} (key : A -> string) (val : A -> option Q)
    (l : list A) (m : gmap string Q) (k : string) :
  NoDup (map key l) ->
  (k ∉ map key l ->
   foldl (fun m e => writeSlider m (key e) (val e)) m l !! k = m !! k) /\
  (forall e, e ∈ l -> key e = k ->
   foldl (fun m e => writeSlider m (key e) (val e)) m l !! k
   = match val e with Some x => (fun _ => x) <$> m !! k | None => m !! k end).
Proof.
  revert m. induction l as [|a l IH]; intros m Hnd.
  - split; [reflexivity|]. intros e He. inversion He.
  - simpl in Hnd. apply NoDup_cons in Hnd as [Ha Hnd]. simpl foldl.
    destruct (IH (writeSlider m (key a) (val a)) Hnd) as [IH1 IH2]. split.
    + intros Hk. rewrite IH1 by (intros Hin; apply Hk; right; exact Hin).
      rewrite writeSlider_lookup, decide_False; [reflexivity|].
      intros ->. apply Hk. left.
    + intros e He Hke. apply elem_of_cons in He as [->|He].
      * rewrite IH1 by (rewrite <- Hke; exact Ha).
        rewrite writeSlider_lookup, decide_True by (symmetry; exact Hke). reflexivity.
      * rewrite (IH2 e He Hke), writeSlider_lookup, decide_False; [reflexivity|].
        intros ->. apply Ha. rewrite <- Hke. apply list_elem_of_fmap. eauto.
Qed.

Lemma imap_keys (names : list string) :
  map snd (imap (fun i n => (i, n)) names) = names.
Proof.
  assert (G : forall (f : nat -> nat), map snd (imap (fun i n => (f i, n)) names) = names).
  { induction names as [|n names IH]; intros f; [reflexivity|].
    simpl. f_equal. apply (IH (f ∘ S)). }
  apply (G (fun i => i)).
Qed.

Lemma imap_entry (names : list string) (i : nat) (n : string) :
  (i, n) ∈ imap (fun i n => (i, n)) names <-> names !! i = Some n.
Proof.
  rewrite list_elem_of_lookup. split.
  - intros [j Hj]. rewrite list_lookup_imap in Hj.
    destruct (names !! j) eqn:E; [|discriminate]. simpl in Hj. injection Hj as <- <-. exact E.
  - intros H. exists i. rewrite list_lookup_imap, H. reflexivity.
Qed.

Lemma NoDup_emotionNames : NoDup emotionNames.
Proof. refine (bool_decide_unpack _ _). vm_compute. exact I. Qed.

Lemma NoDup_regionNames : NoDup regionNames.
Proof. refine (bool_decide_unpack _ _). vm_compute. exact I. Qed.

Lemma spine_is_no_region : "spine"%string ∉ regionNames.
Proof. refine (bool_decide_unpack _ _). vm_compute. exact I. Qed.

(** The sliders while the picture is captured. *)
Lemma printAverages_emotion (avg : Snapshot) (s : State) (k : string) :
  emotionSliders (printAverages avg s) !! k
  = if decide (k ∈ emotionNames)
    then (fun _ => default 0 (out_emotions avg !! k)) <$> emotionSliders s !! k
    else emotionSliders s !! k.
Proof.
  unfold printAverages. cbn [emotionSliders set_printMetrics set_metrics set_regionSliders
    set_emotionSliders].
  destruct (foldl_writeSlider_lookup (fun n => n)
              (fun n => Some (default 0 (out_emotions avg !! n)))
              emotionNames (emotionSliders s) k) as [H1 H2].
  { rewrite map_id. apply NoDup_emotionNames. }
  rewrite map_id in H1.
  destruct (decide (k ∈ emotionNames)) as [Hin|Hout].
  - rewrite (H2 k Hin eq_refl). reflexivity.
  - apply H1, Hout.
Qed.

Lemma printAverages_region (avg : Snapshot) (s : State) (k : string) :
  regionSliders (printAverages avg s) !! k
  = if decide (k = "spine"%string) then (fun _ => 0) <$> regionSliders s !! k
    else match list_find (fun n => n = k) regionNames with
         | Some (i, _) =>
             (fun _ => default 0 (out_regionWidths avg !! i)) <$> regionSliders s !! k
         | None => regionSliders s !! k
         end.
Proof.
  unfold printAverages. cbn [regionSliders set_printMetrics set_metrics set_regionSliders
    set_emotionSliders].
  rewrite writeSlider_lookup.
  destruct (foldl_writeSlider_lookup snd
              (fun e : nat * string => Some (default 0 (out_regionWidths avg !! fst e)))
              (imap (fun i n => (i, n)) regionNames) (regionSliders s) k) as [H1 H2].
  { rewrite imap_keys. apply NoDup_regionNames. }
  rewrite imap_keys in H1.
  destruct (decide (k = "spine"%string)) as [->|Hsp].
  - rewrite H1; [reflexivity | apply spine_is_no_region].
  - destruct (list_find (fun n => n = k) regionNames) as [[i n]|] eqn:E.
    + apply list_find_Some in E as (Hi & -> & _).
      apply (H2 (i, k)); [apply imap_entry, Hi | reflexivity].
    + apply list_find_None in E. apply H1. intros Hin.
      rewrite Forall_forall in E. apply (E k Hin). reflexivity.
Qed.

Lemma printRestore_emotion (saved : Saved) (s : State) (k : string) (i : nat) :
  emotionNames !! i = Some k ->
  emotionSliders (printRestore saved s) !! k
  = match mjoin (saved_emotions saved !! i) with
    | Some x => (fun _ => x) <$> emotionSliders s !! k
    | None => emotionSliders s !! k
    end.
Proof.
  intros Hi. unfold printRestore. cbn [emotionSliders set_printMetrics set_metrics
    set_regionSliders set_emotionSliders].
  destruct (foldl_writeSlider_lookup snd
              (fun e : nat * string => mjoin (saved_emotions saved !! fst e))
              (imap (fun i n => (i, n)) emotionNames) (emotionSliders s) k) as [_ H2].
  { rewrite imap_keys. apply NoDup_emotionNames. }
  apply (H2 (i, k)); [apply imap_entry, Hi | reflexivity].
Qed.

Lemma printRestore_emotion_other (saved : Saved) (s : State) (k : string) :
  k ∉ emotionNames ->
  emotionSliders (printRestore saved s) !! k = emotionSliders s !! k.
Proof.
  intros Hk. unfold printRestore. cbn [emotionSliders set_printMetrics set_metrics
    set_regionSliders set_emotionSliders].
  destruct (foldl_writeSlider_lookup snd
              (fun e : nat * string => mjoin (saved_emotions saved !! fst e))
              (imap (fun i n => (i, n)) emotionNames) (emotionSliders s) k) as [H1 _].
  { rewrite imap_keys. apply NoDup_emotionNames. }
  rewrite imap_keys in H1. apply H1, Hk.
Qed.

Lemma printRestore_region (saved : Saved) (s : State) (k : string) :
  regionSliders (printRestore saved s) !! k
  = if decide (k = "spine"%string)
    then match saved_spine saved with
         | Some x => (fun _ => x) <$> regionSliders s !! k
         | None => regionSliders s !! k
         end
    else match list_find (fun n => n = k) regionNames with
         | Some (i, _) =>
             match mjoin (saved_regions saved !! i) with
             | Some x => (fun _ => x) <$> regionSliders s !! k
             | None => regionSliders s !! k
             end
         | None => regionSliders s !! k
         end.
Proof.
  unfold printRestore. cbn [regionSliders set_printMetrics set_metrics set_regionSliders
    set_emotionSliders].
  rewrite writeSlider_lookup.
  destruct (foldl_writeSlider_lookup snd
              (fun e : nat * string => mjoin (saved_regions saved !! fst e))
              (imap (fun i n => (i, n)) regionNames) (regionSliders s) k) as [H1 H2].
  { rewrite imap_keys. apply NoDup_regionNames. }
  rewrite imap_keys in H1.
  destruct (decide (k = "spine"%string)) as [->|Hsp].
  - rewrite H1; [reflexivity | apply spine_is_no_region].
  - destruct (list_find (fun n => n = k) regionNames) as [[i n]|] eqn:E.
    + apply list_find_Some in E as (Hi & -> & _).
      apply (H2 (i, k)); [apply imap_entry, Hi | reflexivity].
    + apply list_find_None in E. apply H1. intros Hin.
      rewrite Forall_forall in E. apply (E k Hin). reflexivity.
Qed.

Lemma State_ext (a b : State) :
  trackingStarted a = trackingStarted b ->
  prevKeypoints a = prevKeypoints b ->
  prevByPart a = prevByPart b ->
  metrics a = metrics b ->
  follow a = follow b ->
  emotionSliders a = emotionSliders b ->
  regionSliders a = regionSliders b ->
  sadnessInMax a = sadnessInMax b ->
  blockIncomingUntil a = blockIncomingUntil b ->
  a = b.
Proof. destruct a, b; simpl; intros; subst; reflexivity. Qed.

Lemma set_printMetrics_back (avg : Snapshot) (s : State) :
  metrics (printRestore (printSave s) (printAverages avg s)) = metrics s.
Proof.
  unfold printRestore, printAverages, printSave, set_printMetrics.
  cbn [metrics set_metrics set_regionSliders set_emotionSliders saved_structure
       saved_balance saved_posture saved_velocity fastVel slowVel smoothedAvgY].
  destruct (metrics s); reflexivity.
Qed.

(** X22.  The print flow is a round trip on the state of the sketch: when
    nothing else runs in between, the callback that restores the saved
    values leaves every slider and every smoothed signal exactly as they
    were before the averages were applied: also a slider the averages do
    not cover (the spine), and whatever the averages are. *)
Theorem print_restores_the_state (avg : Snapshot) (s : State) :
  printRestore (printSave s) (printAverages avg s) = s.
Proof.
  assert (He : emotionSliders (printRestore (printSave s) (printAverages avg s))
               = emotionSliders s).
  { apply map_eq. intros k.
    destruct (decide (k ∈ emotionNames)) as [Hin|Hout].
    - apply list_elem_of_lookup in Hin as Hi. destruct Hi as [i Hi].
      rewrite (printRestore_emotion _ _ _ i Hi), printAverages_emotion.
      rewrite decide_True by exact Hin.
      unfold printSave. cbn [saved_emotions]. rewrite list_lookup_fmap, Hi. simpl.
      destruct (emotionSliders s !! k); reflexivity.
    - rewrite printRestore_emotion_other by exact Hout.
      rewrite printAverages_emotion, decide_False by exact Hout. reflexivity. }
  assert (Hr : regionSliders (printRestore (printSave s) (printAverages avg s))
               = regionSliders s).
  { apply map_eq. intros k. rewrite printRestore_region, printAverages_region.
    destruct (decide (k = "spine"%string)) as [->|Hsp].
    - unfold printSave. cbn [saved_spine].
      destruct (regionSliders s !! "spine"%string); reflexivity.
    - destruct (list_find (fun n => n = k) regionNames) as [[i n]|] eqn:E; [|reflexivity].
      apply list_find_Some in E as (Hi & -> & _).
      unfold printSave. cbn [saved_regions]. rewrite list_lookup_fmap, Hi. simpl.
      destruct (regionSliders s !! k); reflexivity. }
  apply State_ext; try reflexivity; [|exact He|exact Hr].
  apply set_printMetrics_back.
Qed.

(** ** The boost of the arms block *)

Lemma constrain_high (n lo hi : Q) : lo <= hi -> hi <= n -> constrain n lo hi == hi.
Proof.
  intros Hl Hn. unfold constrain. rewrite (Q.min_r n hi) by exact Hn.
  apply Q.max_l. exact Hl.
Qed.

Lemma constrain_low (n lo hi : Q) : lo <= hi -> n <= lo -> constrain n lo hi == lo.
Proof.
  intros Hl Hn. unfold constrain.
  assert (H : Qmin n hi == n) by (apply Q.min_l; lra).
  destruct (Q.max_spec (Qmin n hi) lo) as [[_ ->]|[Hle ->]]; [reflexivity|].
  rewrite H in *. lra.
Qed.

Lemma constrain_id (n lo hi : Q) : lo <= n <= hi -> constrain n lo hi == n.
Proof.
  intros [Hl Hh]. unfold constrain.
  assert (H : Qmin n hi == n) by (apply Q.min_l; exact Hh).
  destruct (Q.max_spec (Qmin n hi) lo) as [[Hlt ->]|[_ ->]]; [|exact H].
  rewrite H in Hlt. lra.
Qed.

Section ArmsBoost.
Context {M : JSMath}.

(** X17.  The velocity boost of the arms block runs backwards.  Its input range
    goes from [C.head.velMin] (0.035) down to [C.chest.velMax] (0.010), so
    with [v] the velocity of the arms the boost is
    [constrain((0.035 - v) * 200, 0, 5) * 0.5]: the full 2.5 at 0.010 or
    less, [(0.035 - v) * 100] in between, and 0 at 0.035 or more.  When the
    four keypoints of the test are found and the slider exists the block
    completes, and the slider is steered by [C.armsHands.lerp] toward
    [constrain(base + boost, 0, 5)], [base] being the wrist-spread term
    [constrain(map(wristSpread, 2, 5, 0, 5), 0, 5)]. *)
Theorem arms_boost_falls_with_velocity
    (env : Env) (pose : Pose) (s : State) (cur : Q) (lw rw ls rs : Point.t) :
  get pose "leftWrist" = Some lw ->
  get pose "rightWrist" = Some rw ->
  get pose "leftShoulder" = Some ls ->
  get pose "rightShoulder" = Some rs ->
  regionSliders s !! "armsHands"%string = Some cur ->
  let v := fst (regionVelocity env pose (partsOf ArmsHands) (prevByPart s)) in
  let wristSpread :=
    dist (Point.x lw) (Point.y lw) (Point.x rw) (Point.y rw)
    / Qmax (dist (Point.x ls) (Point.y ls) (Point.x rs) (Point.y rs)) 1e-6 in
  let boost := constrain ((0.035 - v) * 200) 0 5 * 0.5 in
  (exists s' base now,
     coupleArmsHands env pose s = Some s' /\
     to05 wristSpread TUNE.coupling.armsHands.wristSpreadMin
       TUNE.coupling.armsHands.wristSpreadMax = Some base /\
     regionSliders s' !! "armsHands"%string = Some now /\
     now == lerp cur (constrain (base + boost) 0 5) TUNE.coupling.armsHands.lerp) /\
  (v <= 0.010 -> boost == 2.5) /\
  (0.035 <= v -> boost == 0) /\
  (0.010 <= v <= 0.035 -> boost == (0.035 - v) * 100).
Proof.
  intros Hlw Hrw Hls Hrs Hcur. cbv zeta.
  change (partsOf ArmsHands) with regionKeypoints.armsHands.
  split.
  - unfold coupleArmsHands. rewrite Hlw, Hrw, Hls, Hrs. cbv zeta.
    match goal with
    | |- context [to05 ?w TUNE.coupling.armsHands.wristSpreadMin
                    TUNE.coupling.armsHands.wristSpreadMax] =>
        destruct (to05_Some w TUNE.coupling.armsHands.wristSpreadMin
                    TUNE.coupling.armsHands.wristSpreadMax) as [base Hbase];
          [vm_compute; discriminate|]
    end.
    rewrite Hbase. cbn [mbind option_bind].
    destruct (regionVelocity env pose regionKeypoints.armsHands (prevByPart s)) as [v cache].
    cbn [fst].
    assert (Hb : to05 v TUNE.coupling.head.velMin TUNE.coupling.chest.velMax
                 = Some (constrain ((v - 0.035) / (0.010 - 0.035) * (5 - 0) + 0) 0 5)).
    { unfold to05. rewrite p5map_Some by (vm_compute; discriminate). reflexivity. }
    rewrite Hb. cbn [mbind option_bind].
    unfold lerpSlider. rewrite Hcur. cbn [mbind option_bind].
    eexists. exists base. eexists. split; [reflexivity|]. split; [reflexivity|].
    split; [cbn [regionSliders set_regionSliders]; apply lookup_insert_eq|].
    assert (E : constrain ((v - 0.035) / (0.010 - 0.035) * (5 - 0) + 0) 0 5
                == constrain ((0.035 - v) * 200) 0 5).
    { unfold constrain. apply Q.max_compat; [|reflexivity].
      apply Q.min_compat; [field | reflexivity]. }
    unfold lerp.
    assert (E2 : constrain (base + constrain ((v - 0.035) / (0.010 - 0.035) * (5 - 0) + 0) 0 5 * 0.5) 0 5
                 == constrain (base + constrain ((0.035 - v) * 200) 0 5 * 0.5) 0 5).
    { unfold constrain at 1 3. apply Q.max_compat; [|reflexivity].
      apply Q.min_compat; [rewrite E; reflexivity | reflexivity]. }
    rewrite E2. reflexivity.
  - split; [|split].
    + intros Hv. rewrite constrain_high by lra. reflexivity.
    + intros Hv. rewrite constrain_low by lra. reflexivity.
    + intros Hv. rewrite constrain_id by lra. ring.
Qed.

End ArmsBoost.

(** ** Tracking and the session *)

Section Idle.
Context {M : JSMath}.

Lemma maybeEchoState_session (env : Env) (s : State) (pg pg' : Page) (ms : list Msg) :
  maybeEchoState env s pg = Some (pg', ms) ->
  ebSession pg' = ebSession pg /\ ebSessionReady pg' = ebSessionReady pg.
Proof.
  intros H. apply maybeEchoState_spec in H as [[-> _]|(_ & -> & _)]; split; reflexivity.
Qed.

Lemma emitPoseMetrics_idle (env : Env) (perfNow : Q) (poses : list (option Detected))
    (s : State) (pg : Page) :
  (forall sess, ebSession pg = Some sess -> SessionAverager.active sess = false) ->
  ebSession (fst (emitPoseMetrics env perfNow poses s pg)) = ebSession pg /\
  ebSessionReady (fst (emitPoseMetrics env perfNow poses s pg)) = ebSessionReady pg.
Proof.
  intros Hp. unfold emitPoseMetrics. cbv zeta.
  assert (E : match ebSession pg with
              | Some sess =>
                  if trackingStarted s && SessionAverager.active sess
                  then match poses with
                       | Some d :: _ =>
                           if Qgt_bool (d_score d) 0.25
                           then Some (SessionAverager.add perfNow
                                        (buildSampleForThisFrame s) sess)
                           else Some sess
                       | _ => Some sess
                       end
                  else Some sess
              | None => None
              end = ebSession pg).
  { destruct (ebSession pg) as [sess|] eqn:Es; [|reflexivity].
    rewrite (Hp sess eq_refl), andb_false_r. reflexivity. }
  rewrite E.
  destruct (Qlt_bool _ 80); [destruct pg; split; reflexivity|].
  destruct (hasDisplay _); destruct pg; split; reflexivity.
Qed.

Lemma pageStep_idle (s : State) (pg : Page) (e : PageEvent)
    (s' : State) (pg' : Page) (ms : list Msg) :
  pageStep (s, pg) e = Some (s', pg', ms) ->
  sessionIdle pg ->
  ebSession pg' = ebSession pg /\ ebSessionReady pg' = ebSessionReady pg.
Proof.
  intros H [Hr Hi].
  destruct e as [env perfNow|env perfNow results|env emotion region force|env ec rpc];
    cbn [pageStep fst snd] in H.
  - apply (inj Some) in H. unfold startTrackingImpl in H. destruct (trackingStarted s).
    + injection H as _ <- _. split; reflexivity.
    + cbv zeta in H. injection H as _ <- _.
      destruct pg as [se rdy trdy tst sq tq disp a b c]. simpl in *. subst rdy.
      destruct se; split; reflexivity.
  - unfold poseHandler in H. destruct (negb (trackingStarted s)).
    { injection H as _ <- _. split; reflexivity. }
    destruct results as [|[p|] results]; try (injection H as _ <- _; split; reflexivity).
    cbv zeta in H.
    apply bind_Some in H as (s1 & _ & H).
    apply bind_Some in H as ([pg1 m1] & H1 & H). simpl in H.
    apply maybeEchoState_session in H1 as [E1 E2].
    destruct (emitPoseMetrics_idle env perfNow (Some p :: results) s1 pg1) as [E3 E4].
    { intros sess Hs. apply Hi. rewrite <- E1. exact Hs. }
    destruct (emitPoseMetrics env perfNow (Some p :: results) s1 pg1) as [pg2 m2].
    simpl in E3, E4.
    destruct (Qle_bool POSE_EMIT_MS (millis env - lastPoseEmitAt pg2));
      injection H as _ <- _; cbn [ebSession ebSessionReady set_lastPoseEmitAt];
      rewrite E3, E4, E1, E2; split; reflexivity.
  - unfold applySlidersEcho in H.
    destruct (negb force && Qlt_bool (millis env) (blockIncomingUntil s)).
    { injection H as _ <- _. split; reflexivity. }
    cbv zeta in H. apply bind_Some in H as ([pg1 m1] & H1 & H). simpl in H.
    injection H as _ <- _. eapply maybeEchoState_session, H1.
  - revert H. generalize (mkResetOpts ec rpc false). intros opts H.
    unfold resetAllEcho in H. cbv zeta in H. destruct (echo opts).
    + apply bind_Some in H as ([pg1 m1] & H1 & H). simpl in H.
      injection H as _ <- _. eapply maybeEchoState_session, H1.
    + injection H as _ <- _. split; reflexivity.
Qed.

(** X21.  Tracking alone never starts the averaging session.  While
    [__ebSessionReady] is off (nothing in [js/] turns it on) and the session
    is not running, no sequence of starts, detector results, external
    writes and resets begins it or adds a sample to it; a print after such
    a run falls back to the plain snapshot and leaves the state alone.  Only
    a call of [beginSession] starts the averaging. *)
Theorem tracking_alone_never_starts_the_session
    (es : list PageEvent) (s0 s : State) (pg0 pg : Page) (log : list (Q * Msg))
    (perfNow : Q) :
  sessionIdle pg0 ->
  pageRun es (s0, pg0) = Some (s, pg, log) ->
  ebSession pg = ebSession pg0 /\
  onPrintAverageThenSnapshot perfNow s pg = (s, pg, None).
Proof.
  intros Hidle H.
  assert (G : ebSession pg = ebSession pg0 /\ sessionIdle pg).
  { revert s0 pg0 s pg log Hidle H. induction es as [|e es IH]; intros s0 pg0 s pg log Hidle H.
    - injection H as <- <- <-. split; [reflexivity | exact Hidle].
    - simpl in H. apply bind_Some in H as ([[s1 pg1] ms] & H1 & H). simpl in H.
      apply bind_Some in H as ([[s2 pg2] log2] & H2 & H). simpl in H.
      injection H as <- <- <-.
      apply pageStep_idle in H1 as [E1 E2]; [|exact Hidle].
      assert (Hidle1 : sessionIdle pg1).
      { destruct Hidle as [Hr Hi]. split; [rewrite E2; exact Hr|].
        intros sess Hs. apply Hi. rewrite <- E1. exact Hs. }
      apply IH in H2 as [E3 Hidle2]; [|exact Hidle1].
      split; [rewrite E3; exact E1 | exact Hidle2]. }
  destruct G as [E [_ Hi]]. split; [exact E|].
  unfold onPrintAverageThenSnapshot.
  destruct (ebSession pg) as [sess|] eqn:Es; [|reflexivity].
  rewrite (Hi sess eq_refl). reflexivity.
Qed.

End Idle.

Lemma region_index (i : nat) (r : string) :
  regionNames !! i = Some r ->
  r <> "spine"%string /\
  exists r', list_find (fun n => n = r) regionNames = Some (i, r').
Proof.
  intros Hi. split.
  - intros ->. apply spine_is_no_region. eapply list_elem_of_lookup_2, Hi.
  - destruct (list_find (fun n => n = r) regionNames) as [[j r']|] eqn:E.
    + apply list_find_Some in E as (Hj & -> & _).
      rewrite (NoDup_lookup _ _ _ _ NoDup_regionNames Hi Hj). eauto.
    + apply list_find_None in E. rewrite Forall_forall in E.
      exfalso. apply (E r); [eapply list_elem_of_lookup_2, Hi | reflexivity].
Qed.

(** X23.  What the print shows.  When the session was fed by the sketch's
    sampler in the states [sts], [onPrintAverageThenSnapshot] ends it and,
    for the capture, puts on every emotion slider and every region slider
    the arithmetic mean of that slider over the sampled states, 0 on the
    spine, and the means of structure, balance, posture and velocity in
    the smoothed signals; it schedules the restore of the state it found. *)
Theorem print_shows_the_session_means
    (t0 perfNow : Q) (sts : list (Q * State)) (s : State) (pg : Page) :
  sts <> [] ->
  ebSession pg = Some (feed (sampled sts) (SessionAverager.begin t0)) ->
  exists shown pg',
    onPrintAverageThenSnapshot perfNow s pg = (shown, pg', Some (printSave s)) /\
    (forall k v, k ∈ emotionNames -> emotionSliders shown !! k = Some v ->
       v == meanOver sts (fun st => sliderNumber (emotionSliders st) k)) /\
    (forall i r v, regionNames !! i = Some r -> regionSliders shown !! r = Some v ->
       v == meanOver sts (fun st => sliderNumber (regionSliders st) r)) /\
    (forall v, regionSliders shown !! "spine"%string = Some v -> v = 0) /\
    smoothedStructure (metrics shown) == meanOver sts (fun st => smoothedStructure (metrics st)) /\
    smoothedBalance (metrics shown) == meanOver sts (fun st => smoothedBalance (metrics st)) /\
    smoothedPostureLean (metrics shown)
    == meanOver sts (fun st => smoothedPostureLean (metrics st)) /\
    movementVelocity (metrics shown) == meanOver sts (fun st => movementVelocity (metrics st)).
Proof.
  intros Hne Hsess.
  pose proof (sampler_means_scalar t0 sts) as (Hst & Hba & Hpo & Hve).
  unfold onPrintAverageThenSnapshot. rewrite Hsess.
  rewrite feed_active. cbn [SessionAverager.active SessionAverager.begin negb].
  unfold SessionAverager.end_. cbn [out_samples].
  rewrite feed_samples by reflexivity. cbn [SessionAverager.samples SessionAverager.begin
    SessionAverager.reset].
  assert (Hlen : (0 + length (sampled sts) =? 0)%nat = false).
  { apply Nat.eqb_neq. unfold sampled. rewrite length_map.
    destruct sts; [congruence | simpl; lia]. }
  rewrite Hlen. eexists _, _. split; [reflexivity|].
  split; [|split; [|split; [|split; [|split; [|split]]]]].
  - intros k v Hk Hv. rewrite printAverages_emotion, decide_True in Hv by exact Hk.
    destruct (emotionSliders s !! k); [|discriminate]. injection Hv as <-.
    cbn [out_emotions]. rewrite lookup_fmap.
    destruct (sampled_emotion_mean t0 sts k Hk) as (a & -> & _ & Hm). exact Hm.
  - intros i r v Hi Hv. destruct (region_index i r Hi) as (Hsp & r' & Hfind).
    rewrite printAverages_region, decide_False, Hfind in Hv by exact Hsp.
    destruct (regionSliders s !! r); [|discriminate]. injection Hv as <-.
    cbn [out_regionWidths].
    destruct (sampled_region_mean t0 sts i r Hi) as (m & -> & Hm & _). exact Hm.
  - intros v Hv. rewrite printAverages_region, decide_True in Hv by reflexivity.
    destruct (regionSliders s !! "spine"%string); [|discriminate].
    injection Hv as <-. reflexivity.
  - exact Hst.
  - exact Hba.
  - exact Hpo.
  - exact Hve.
Qed.

(** X24.  Printing always ends the session: whichever way
    [onPrintAverageThenSnapshot] goes, the session object it leaves is not
    running, so the ticks that follow add no sample to it (until something
    calls [begin] again).  It falls back to a plain snapshot, leaving the
    state alone, exactly when there was no running session or the running
    session had no sample. *)
Theorem print_ends_the_session (perfNow : Q) (s : State) (pg : Page) :
  let r := onPrintAverageThenSnapshot perfNow s pg in
  let pg' := snd (fst r) in
  (forall sess, ebSession pg' = Some sess -> SessionAverager.active sess = false) /\
  (forall env perfNow' poses st,
     ebSession (fst (emitPoseMetrics env perfNow' poses st pg')) = ebSession pg') /\
  (snd r = None <->
   match ebSession pg with
   | Some sess => SessionAverager.active sess = false \/ SessionAverager.samples sess = 0%nat
   | None => True
   end) /\
  (snd r = None -> fst (fst r) = s).
Proof.
  cbv zeta.
  assert (Hidle : forall (p : Page),
            (forall sess, ebSession p = Some sess -> SessionAverager.active sess = false) ->
            forall env perfNow' poses st,
              ebSession (fst (emitPoseMetrics env perfNow' poses st p)) = ebSession p).
  { intros p Hp env perfNow' poses st. unfold emitPoseMetrics. cbv zeta.
    assert (E : match ebSession p with
                | Some sess =>
                    if trackingStarted st && SessionAverager.active sess
                    then match poses with
                         | Some d :: _ =>
                             if Qgt_bool (d_score d) 0.25
                             then Some (SessionAverager.add perfNow'
                                          (buildSampleForThisFrame st) sess)
                             else Some sess
                         | _ => Some sess
                         end
                    else Some sess
                | None => None
                end = ebSession p).
    { destruct (ebSession p) as [sess|] eqn:Es; [|reflexivity].
      rewrite (Hp sess eq_refl), andb_false_r. reflexivity. }
    rewrite E.
    destruct (Qlt_bool _ 80); [destruct p; reflexivity|].
    destruct (hasDisplay _); destruct p; reflexivity. }
  unfold onPrintAverageThenSnapshot.
  destruct (ebSession pg) as [sess|] eqn:Es.
  - destruct (SessionAverager.active sess) eqn:Ea; cbn [negb].
    + unfold SessionAverager.end_. cbn [out_samples].
      destruct (SessionAverager.samples sess =? 0)%nat eqn:En; cbn [fst snd].
      * assert (Hp : forall sess0, ebSession (set_ebSession
                  (Some (SessionAverager.mk false (SessionAverager.startTs sess)
                     (SessionAverager.lastTs sess) (SessionAverager.samples sess)
                     (SessionAverager.structure sess) (SessionAverager.balance sess)
                     (SessionAverager.posture sess) (SessionAverager.velocity sess)
                     (SessionAverager.emotions sess) (SessionAverager.regionWidths sess)
                     (SessionAverager.segmentProfile sess))) pg) = Some sess0 ->
                  SessionAverager.active sess0 = false).
        { intros sess0 [= <-]. reflexivity. }
        split; [exact Hp|]. split; [apply Hidle, Hp|].
        apply Nat.eqb_eq in En. split; [split; auto | reflexivity].
      * assert (Hp : forall sess0, ebSession (set_ebSession
                  (Some (SessionAverager.mk false (SessionAverager.startTs sess)
                     (SessionAverager.lastTs sess) (SessionAverager.samples sess)
                     (SessionAverager.structure sess) (SessionAverager.balance sess)
                     (SessionAverager.posture sess) (SessionAverager.velocity sess)
                     (SessionAverager.emotions sess) (SessionAverager.regionWidths sess)
                     (SessionAverager.segmentProfile sess))) pg) = Some sess0 ->
                  SessionAverager.active sess0 = false).
        { intros sess0 [= <-]. reflexivity. }
        split; [exact Hp|]. split; [apply Hidle, Hp|].
        apply Nat.eqb_neq in En.
        split; [split; [discriminate | intros [?|?]; congruence] | discriminate].
    + cbn [fst snd].
      assert (Hp : forall sess0, ebSession pg = Some sess0 ->
                SessionAverager.active sess0 = false) by (intros sess0 E; congruence).
      split; [exact Hp|]. split; [apply Hidle, Hp|].
      split; [split; auto | reflexivity].
  - cbn [fst snd].
    assert (Hp : forall sess0, ebSession pg = Some sess0 ->
              SessionAverager.active sess0 = false) by (intros sess0 E; congruence).
    split; [exact Hp|]. split; [apply Hidle, Hp|]. split; [split; auto | reflexivity].
Qed.

(** ** 4) The layout [draw] computes *)

(** X25.  The body always takes seven tenths of the canvas height: whenever the
    canvas is not empty, the six region spacings are the base heights 30,
    20, 60, 15, 20 and 110 scaled by [0.7 * height / 255], whatever the
    width, so they add up to [0.7 * height]; on an empty canvas the scale
    is a division by zero. *)
Theorem body_takes_seven_tenths_of_the_height (cv : Canvas) :
  (regionSpacings cv = None <-> scaleK cv == 0) /\
  forall l, regionSpacings cv = Some l ->
    Forall2 (fun x base => x == base * (0.7 * canvasHeight cv / 255))
            l [30; 20; 60; 15; 20; 110] /\
    foldl Qplus 0 l == 0.7 * canvasHeight cv.
Proof.
  assert (Hsum : foldl Qplus 0 (baseRegionSpacings cv) == 255 * scaleK cv).
  { unfold baseRegionSpacings. simpl. ring. }
  unfold regionSpacings, fdiv. cbv zeta.
  destruct (Qeq_bool (foldl Qplus 0 (baseRegionSpacings cv)) 0) eqn:E.
  - apply Qeq_bool_iff in E. rewrite Hsum in E.
    split; [split; [intros _; lra | reflexivity] | discriminate].
  - apply Qeq_bool_neq in E. rewrite Hsum in E.
    assert (HK : ~ scaleK cv == 0) by lra.
    split; [split; [discriminate | intros HK0; contradiction]|].
    cbn [mbind option_bind]. intros l [= <-].
    split.
    + repeat constructor; field; lra.
    + simpl. field. lra.
Qed.

(** X26.  The fear pulse never collapses the figure: for a fear value in [0,5]
    the scale the body is drawn at lies between 0.55 and 3.05, and without
    the pulse it falls linearly from 3 at fear 0 to 0.6 at fear 5. *)
Theorem fear_scale_is_bounded (fear sinv : Q) :
  0 <= fear <= 5 ->
  -1 <= sinv <= 1 ->
  0.55 <= fearScale fear sinv <= 3.05 /\
  fearScale fear 0 == 3 - 0.48 * fear.
Proof.
  intros Hf Hs. unfold fearScale, lerp, Qdiv. change (/ 5) with (1 # 5).
  split; [lra | ring].
Qed.

(** ** 10) The outline [drawBodyShape] returns *)

Lemma shapeStep_spec (L : Layout) (sliders : gmap string Q) (rsp : list Q) (fs : Q)
    (i : nat) (name : string) (a : Q) (sd sd' : Sides) (s : nat) :
  shapeStep L sliders rsp fs i name a sd s = Some sd' ->
  exists l r c,
    leftSide sd' = leftSide sd ++ [l] /\
    rightSide sd' = r :: rightSide sd /\
    crotchPoints sd' = crotchPoints sd ++ c /\
    mirrored (Point.x (lay_originOffset L)) l r /\
    Forall (fun p => Point.x p = Point.x (lay_originOffset L)) c /\
    length c = if String.eqb name "legsFeet" && (s =? stepsPerRegion - 1)%nat
               then 1%nat else 0%nat.
Proof.
  unfold shapeStep. cbv zeta. intros H.
  apply bind_Some in H as (t & _ & H).
  apply bind_Some in H as (y2 & _ & H).
  apply bind_Some in H as (y & _ & H).
  apply bind_Some in H as (spineOffset & _ & H).
  apply bind_Some in H as (sliderVal & _ & H).
  apply bind_Some in H as (w & _ & H).
  apply bind_Some in H as (halfWidth & _ & H).
  apply (inj Some) in H. subst sd'. cbn [leftSide rightSide crotchPoints].
  eexists _, _, _. split; [reflexivity|]. split; [reflexivity|]. split; [reflexivity|].
  split; [split; [cbn [Point.x]; ring | reflexivity]|].
  destruct (String.eqb name "legsFeet" && (s =? stepsPerRegion - 1)%nat);
    split; try reflexivity; repeat constructor.
Qed.

Lemma shapeRegion_spec (L : Layout) (sliders : gmap string Q) (rsp : list Q) (fs : Q)
    (acc : option (option Q * Sides)) (e : nat * string) (sp' : option Q) (sd' : Sides) :
  shapeRegion L sliders rsp fs acc e = Some (sp', sd') ->
  exists sp sd l0 r0 l1 r1 c,
    acc = Some (sp, sd) /\
    leftSide sd' = leftSide sd ++ [l0; l1] /\
    rightSide sd' = r1 :: r0 :: rightSide sd /\
    crotchPoints sd' = crotchPoints sd ++ c /\
    mirrored (Point.x (lay_originOffset L)) l0 r0 /\
    mirrored (Point.x (lay_originOffset L)) l1 r1 /\
    Forall (fun p => Point.x p = Point.x (lay_originOffset L)) c /\
    length c = if String.eqb (snd e) "legsFeet" then 1%nat else 0%nat.
Proof.
  unfold shapeRegion. intros H.
  apply bind_Some in H as ([sp sd] & -> & H). simpl in H.
  apply bind_Some in H as (a & _ & H).
  apply bind_Some in H as (sd0 & H0 & H).
  apply bind_Some in H as (sd1 & H1 & H).
  apply (inj Some) in H. injection H as _ <-.
  apply shapeStep_spec in H0 as (l0 & r0 & c0 & EL0 & ER0 & EC0 & M0 & F0 & N0).
  apply shapeStep_spec in H1 as (l1 & r1 & c1 & EL1 & ER1 & EC1 & M1 & F1 & N1).
  exists sp, sd, l0, r0, l1, r1, (c0 ++ c1). split; [reflexivity|].
  split; [rewrite EL1, EL0, <- app_assoc; reflexivity|].
  split; [rewrite ER1, ER0; reflexivity|].
  split; [rewrite EC1, EC0, <- app_assoc; reflexivity|].
  split; [exact M0|]. split; [exact M1|].
  split; [apply Forall_app; split; assumption|].
  rewrite length_app, N0, N1. simpl.
  destruct (String.eqb (snd e) "legsFeet"); reflexivity.
Qed.

Lemma foldl_shapeRegion_spec (L : Layout) (sliders : gmap string Q) (rsp : list Q) (fs : Q)
    (es : list (nat * string)) (acc : option (option Q * Sides))
    (sp' : option Q) (sd' : Sides) :
  foldl (shapeRegion L sliders rsp fs) acc es = Some (sp', sd') ->
  exists sp sd,
    acc = Some (sp, sd) /\
    (Forall2 (mirrored (Point.x (lay_originOffset L))) (leftSide sd) (reverse (rightSide sd)) ->
     Forall2 (mirrored (Point.x (lay_originOffset L))) (leftSide sd') (reverse (rightSide sd'))) /\
    length (leftSide sd') = (length (leftSide sd) + 2 * length es)%nat /\
    (Forall (fun p => Point.x p = Point.x (lay_originOffset L)) (crotchPoints sd) ->
     Forall (fun p => Point.x p = Point.x (lay_originOffset L)) (crotchPoints sd')) /\
    length (crotchPoints sd')
    = (length (crotchPoints sd)
       + length (List.filter (fun e => String.eqb (snd e) "legsFeet") es))%nat.
Proof.
  revert acc. induction es as [|e es IH]; intros acc H.
  - simpl in H. subst acc. exists sp', sd'. split; [reflexivity|].
    split; [auto|]. split; [simpl; lia|]. split; [auto|]. simpl. lia.
  - simpl in H. apply IH in H as (sp1 & sd1 & H1 & M & NL & F & NC).
    apply shapeRegion_spec in H1
      as (sp & sd & l0 & r0 & l1 & r1 & c & -> & EL & ER & EC & M0 & M1 & Fc & Nc).
    exists sp, sd. split; [reflexivity|].
    split.
    { intros Hm. apply M. rewrite EL, ER, !reverse_cons, <- app_assoc.
      apply Forall2_app; [exact Hm|].
      constructor; [exact M0|]. constructor; [exact M1|]. constructor. }
    split.
    { rewrite NL, EL, length_app. simpl. lia. }
    split.
    { intros Hf. apply F. rewrite EC. apply Forall_app. split; assumption. }
    rewrite NC, EC, length_app, Nc. simpl.
    destruct (String.eqb (snd e) "legsFeet"); simpl; lia.
Qed.

Lemma mirrored_sym (ox : Q) (p q : Point.t) : mirrored ox p q -> mirrored ox q p.
Proof. intros [Hx Hy]. split; [rewrite Qplus_comm; exact Hx | symmetry; exact Hy]. Qed.

Lemma mirror_assemble (ox : Q) (a c : Point.t) (l r : list Point.t) :
  mirrored ox a a ->
  Forall2 (mirrored ox) l (reverse r) ->
  mirrored ox c c ->
  Forall2 (mirrored ox) ([a] ++ l ++ [c] ++ r ++ [a]) (reverse ([a] ++ l ++ [c] ++ r ++ [a])).
Proof.
  intros Ha M Hc. rewrite !reverse_app.
  change (reverse [a]) with [a]. change (reverse [c]) with [c].
  rewrite <- !app_assoc.
  apply Forall2_app; [constructor; [exact Ha | constructor]|].
  apply Forall2_app; [exact M|].
  apply Forall2_app; [constructor; [exact Hc | constructor]|].
  apply Forall2_app; [|constructor; [exact Ha | constructor]].
  apply Forall2_reverse in M. rewrite reverse_involutive in M.
  apply Forall2_flip. eapply Forall2_impl; [exact M|].
  intros p q. apply mirrored_sym.
Qed.

Lemma head_last_assemble (a c : Point.t) (l r : list Point.t) :
  head ([a] ++ l ++ [c] ++ r ++ [a]) = last ([a] ++ l ++ [c] ++ r ++ [a]).
Proof. rewrite !app_assoc, last_snoc. reflexivity. Qed.

(** X27.  The outline is mirror symmetric, whatever the sliders hold: it has 27
    points (an anchor, two per region down the left side, the crotch
    point, the right side, the anchor again), and the point at each place
    mirrors, in the vertical line through [originOffset], the point at the
    same place counted from the end.  The spine slider does not shift the
    figure: it adds half its value to the half width on both sides. *)
Theorem body_outline_is_mirror_symmetric
    (L : Layout) (sliders : gmap string Q) (rsp : list Q) (fs : Q) (shape : list Point.t) :
  drawBodyShape L sliders rsp fs = Some shape ->
  length shape = 27%nat /\
  Forall2 (mirrored (Point.x (lay_originOffset L))) shape (reverse shape) /\
  head shape = last shape.
Proof.
  unfold drawBodyShape. cbv zeta. intros H.
  apply bind_Some in H as ([sp sd] & Hfold & H). simpl in H.
  apply bind_Some in H as (first & _ & H). apply (inj Some) in H. subst shape.
  apply foldl_shapeRegion_spec in Hfold as (sp0 & sd0 & [= <- <-] & M & NL & F & NC).
  cbn [leftSide rightSide crotchPoints] in *.
  assert (M0 : Forall2 (mirrored (Point.x (lay_originOffset L))) [] (reverse []))
    by constructor.
  specialize (M M0). clear M0.
  assert (F0 : Forall (fun p => Point.x p = Point.x (lay_originOffset L)) []) by constructor.
  specialize (F F0). clear F0.
  change (length (imap _ regionNames)) with 6%nat in NL. simpl in NL.
  change (length (List.filter _ (imap _ regionNames))) with 1%nat in NC. simpl in NC.
  assert (NR : length (rightSide sd) = 12%nat).
  { apply Forall2_length in M. rewrite length_reverse in M. lia. }
  destruct (crotchPoints sd) as [|c [|c' cs]]; try discriminate. clear NC.
  apply Forall_cons in F as [Hc _].
  split; [|split].
  - simpl. rewrite length_app. simpl. rewrite length_app, NL, NR. reflexivity.
  - apply mirror_assemble; [split; [cbn [Point.x]; ring | reflexivity] | exact M |].
    split; [rewrite Hc; ring | reflexivity].
  - apply head_last_assemble.
Qed.

(** ** [eb-init.js] *)

(** X28.  A session start that was queued is honoured once.  With the request
    queued and the session object ready, [__ebProcessQueued] begins the
    session at that moment and empties the queue; a second
    [__ebProcessQueued] leaves the running session alone (a second
    [begin()] would have wiped what it had averaged), also when the first
    one started tracking on the way. *)
Theorem queued_session_start_runs_once
    (t1 t2 : Q) (s : State) (pg : Page) (sess : SessionAverager.t) :
  sessionStartQueued pg = true ->
  ebSession pg = Some sess ->
  ebSessionReady pg = true ->
  let r1 := EbInit.ebProcessQueued t1 s pg in
  let r2 := EbInit.ebProcessQueued t2 (fst (fst r1)) (snd (fst r1)) in
  ebSession (snd (fst r1)) = Some (SessionAverager.begin t1) /\
  sessionStartQueued (snd (fst r1)) = false /\
  ebSession (snd (fst r2)) = Some (SessionAverager.begin t1) /\
  sessionStartQueued (snd (fst r2)) = false.
Proof.
  intros Hq Hs Hr. cbv zeta.
  destruct pg as [se rdy trdy tst sq tq disp a b c]. simpl in Hq, Hs, Hr. subst.
  unfold EbInit.ebProcessQueued, EbInit.beginSession, EbInit.startTracking, startTrackingImpl.
  simpl.
  destruct tq, trdy, (trackingStarted s) eqn:Et; simpl; rewrite ?Et; simpl;
    destruct disp; simpl; repeat split.
Qed.


(** ** The further theorems at concrete inputs *)

Lemma session_vector_means_witness :
  let l := [ (1, widthsOnly [Fin 1; Fin 2; Fin 3; Fin 4; Fin 5; Fin 6]);
             (2, widthsOnly [Fin 3; Fin 2; Fin 1; Fin 0; Fin 1; Fin 2]) ] in
  let s := feed l (SessionAverager.begin 0) in
  OnlineMeanArray.n (SessionAverager.regionWidths s) = 2%nat /\
  forall i, (i < 6)%nat ->
    exists m, OnlineMeanArray.means (SessionAverager.regionWidths s) !! i = Some m /\
              m == arith_mean (finites (column i (suppliedArrays s_regionWidths l))).
Proof.
  cbv zeta.
  apply (session_vector_means 0
           [ (1, widthsOnly [Fin 1; Fin 2; Fin 3; Fin 4; Fin 5; Fin 6]);
             (2, widthsOnly [Fin 3; Fin 2; Fin 1; Fin 0; Fin 1; Fin 2]) ]).
  - repeat (apply List.Forall_cons;
            [split; [reflexivity|];
             repeat (apply List.Forall_cons; [reflexivity|]); apply List.Forall_nil|]).
    apply List.Forall_nil.
  - apply List.Forall_nil.
Defined.

Lemma metrics_stay_normalised_witness :
  exists s, run (M := QMath) session2 setup = Some s /\ metricsInRange (metrics s).
Proof.
  destruct (run (M := QMath) session2 setup) as [s|] eqn:E.
  - exists s. split; [reflexivity|].
    apply (metrics_stay_normalised (M := QMath) session2 setup s); [|exact E].
    unfold metricsInRange. simpl. lra.
  - vm_compute in E. discriminate E.
Defined.

Lemma sadness_scale_latches_witness :
  exists s1 s,
    onPose (M := QMath) env0 frameA started = Some s1 /\
    run (M := QMath) [EvPose envTall frameB; EvReset envTall defaultResetOpts] s1 = Some s /\
    sadnessInMax s = Some (height env0).
Proof.
  destruct (onPose (M := QMath) env0 frameA started) as [s1|] eqn:E1;
    [|vm_compute in E1; discriminate E1].
  destruct (run (M := QMath) [EvPose envTall frameB; EvReset envTall defaultResetOpts] s1)
    as [s|] eqn:E2.
  - exists s1, s. split; [reflexivity|]. split; [exact E2|].
    apply (sadness_scale_latches (M := QMath) env0 frameA started s1 s
             [EvPose envTall frameB; EvReset envTall defaultResetOpts]).
    + reflexivity.
    + reflexivity.
    + vm_compute. discriminate.
    + exact E1.
    + exact E2.
  - vm_compute in E1. injection E1 as <-. vm_compute in E2. discriminate E2.
Defined.

Lemma follow_scale_stays_clamped_witness :
  exists s, run (M := QMath) session2 setup = Some s /\ 0.6 <= poseSc (follow s) <= 1.8.
Proof.
  destruct (run (M := QMath) session2 setup) as [s|] eqn:E.
  - exists s. split; [reflexivity|].
    apply (follow_scale_stays_clamped (M := QMath) session2 setup s); [|exact E].
    simpl. lra.
  - vm_compute in E. discriminate E.
Defined.

Lemma tick_steers_anchor_two_fifths_witness :
  exists s',
    onPose (M := QMath) env0 frameA started = Some s' /\
    poseTx (follow s') == lerp (poseTx (follow started)) 320 0.4 /\
    poseTy (follow s') == lerp (poseTy (follow started)) 260 0.4 /\
    poseSeenAt (follow s') = millis env0.
Proof.
  destruct (onPose (M := QMath) env0 frameA started) as [s'|] eqn:E.
  - exists s'. split; [reflexivity|].
    destruct (tick_steers_anchor_two_fifths (M := QMath) env0 frameA started s'
                (Point.mk 380 180) (Point.mk 260 180) (Point.mk 360 340) (Point.mk 280 340))
      as (Hx & Hy & Ht); try reflexivity; [exact E|].
    split; [rewrite Hx; reflexivity|]. split; [rewrite Hy; reflexivity | exact Ht].
  - vm_compute in E. discriminate E.
Defined.

Lemma first_tick_sees_no_motion_witness :
  let s := startTracking (resetAll env0 defaultResetOpts wide) in
  velAvg (M := QMath) env300 (prevKeypoints s) (List.filter confident (keypoints frameB)) = 0 /\
  forall sa pre b post sb,
    updatePoseFactors env300 frameB s = Some sa ->
    blockOrder = pre ++ b :: post ->
    runBlocks env300 frameB pre (updatePoseTransform env300 frameB sa) = Some sb ->
    fst (regionVelocity env300 frameB (partsOf b) (prevByPart sb)) == 0.
Proof.
  cbv zeta.
  destruct (resetAll_caches env0 defaultResetOpts wide eq_refl) as [Hk Hp].
  apply (first_tick_sees_no_motion (M := QMath) env300 frameB
           (startTracking (resetAll env0 defaultResetOpts wide)) Hk Hp).
Defined.

Lemma repeated_apply_closes_gap_geometrically_witness :
  exists cur',
    emotionSliders (Nat.iter 3 (applySliders env0 [("joy"%string, 5)] [] true) setup)
      !! "joy"%string = Some cur' /\
    cur' - 5 == (13 # 20) ^ 3 * (0 - 5).
Proof.
  apply (repeated_apply_closes_gap_geometrically env0 "joy"%string 5 0 setup 3).
  reflexivity.
Defined.

Lemma slider_set_is_fixed_witness :
  exists s,
    run (M := QMath) session1 setup = Some s /\
    dom (emotionSliders s) = dom (emotionSliders setup) /\
    dom (regionSliders s) = dom (regionSliders setup).
Proof.
  destruct (run (M := QMath) session1 setup) as [s|] eqn:E.
  - exists s. split; [reflexivity|].
    apply (slider_set_is_fixed (M := QMath) session1 setup s E).
  - vm_compute in E. discriminate E.
Defined.

Lemma display_calls_are_throttled_witness :
  exists s pg log,
    pageRun (M := QMath) pageSession1 (setup, setupPage true) = Some (s, pg, log) /\
    spaced 250 0 (timesOf isEcho log) /\
    spaced 80 0 (timesOf isPoseMetrics log) /\
    spaced POSE_EMIT_MS 0 (timesOf isPoseKeypoints log).
Proof.
  destruct (pageRun (M := QMath) pageSession1 (setup, setupPage true))
    as [[[s pg] log]|] eqn:E.
  - exists s, pg, log. split; [reflexivity|].
    apply (display_calls_are_throttled (M := QMath) pageSession1 setup s
             (setupPage true) pg log E).
  - vm_compute in E. discriminate E.
Defined.

Lemma echo_sent_back_changes_nothing_witness :
  exists pg' emotion region,
    maybeEchoState env300 wide (setupPage true) = Some (pg', [Echo emotion region]) /\
    sameValues (emotionSliders (applySliders env350 emotion region true wide))
               (emotionSliders wide) /\
    sameValues (regionSliders (applySliders env350 emotion region true wide))
               (regionSliders wide).
Proof.
  destruct (maybeEchoState env300 wide (setupPage true)) as [[pg' [|[em rg| | |] [|m ms]]]|] eqn:E;
    try (vm_compute in E; discriminate E).
  exists pg', em, rg. split; [reflexivity|].
  apply (echo_sent_back_changes_nothing env300 env350 wide (setupPage true) pg' em rg true E).
Defined.

Lemma scene_is_always_centred_witness :
  exists s,
    run (M := QMath) session2 setup = Some s /\
    blitTranslate canvas1 env700 false s = Some (canvasWidth canvas1 / 2, canvasHeight canvas1 / 2).
Proof.
  destruct (run (M := QMath) session2 setup) as [s|] eqn:E.
  - exists s. split; [reflexivity|].
    apply (scene_is_always_centred (M := QMath) canvas1 env700 false session2 setup s);
      [reflexivity | exact E].
  - vm_compute in E. discriminate E.
Defined.

Lemma print_shows_the_session_means_witness :
  let pg := set_ebSession (Some (feed (sampled sampledStates) (SessionAverager.begin 0)))
              (setupPage true) in
  exists shown pg',
    onPrintAverageThenSnapshot 3 started pg = (shown, pg', Some (printSave started)) /\
    (forall k v, k ∈ emotionNames -> emotionSliders shown !! k = Some v ->
       v == meanOver sampledStates (fun st => sliderNumber (emotionSliders st) k)) /\
    (forall i r v, regionNames !! i = Some r -> regionSliders shown !! r = Some v ->
       v == meanOver sampledStates (fun st => sliderNumber (regionSliders st) r)) /\
    (forall v, regionSliders shown !! "spine"%string = Some v -> v = 0) /\
    smoothedStructure (metrics shown)
    == meanOver sampledStates (fun st => smoothedStructure (metrics st)) /\
    smoothedBalance (metrics shown)
    == meanOver sampledStates (fun st => smoothedBalance (metrics st)) /\
    smoothedPostureLean (metrics shown)
    == meanOver sampledStates (fun st => smoothedPostureLean (metrics st)) /\
    movementVelocity (metrics shown)
    == meanOver sampledStates (fun st => movementVelocity (metrics st)).
Proof.
  cbv zeta.
  apply (print_shows_the_session_means 0 3 sampledStates started
           (set_ebSession (Some (feed (sampled sampledStates) (SessionAverager.begin 0)))
              (setupPage true))).
  - discriminate.
  - reflexivity.
Defined.

Lemma fear_scale_is_bounded_witness :
  0.55 <= fearScale 5 1 <= 3.05 /\ fearScale 5 0 == 3 - 0.48 * 5.
Proof.
  apply (fear_scale_is_bounded 5 1); split; discriminate.
Defined.

Lemma body_outline_is_mirror_symmetric_witness :
  exists shape,
    drawBodyShape layout1 (regionSliders wide) [30; 20; 60; 15; 20; 110] 1 = Some shape /\
    length shape = 27%nat /\
    Forall2 (mirrored (Point.x (lay_originOffset layout1))) shape (reverse shape) /\
    head shape = last shape.
Proof.
  destruct (drawBodyShape layout1 (regionSliders wide) [30; 20; 60; 15; 20; 110] 1)
    as [shape|] eqn:E.
  - exists shape. split; [reflexivity|].
    apply (body_outline_is_mirror_symmetric layout1 (regionSliders wide)
             [30; 20; 60; 15; 20; 110] 1 shape E).
  - vm_compute in E. discriminate E.
Defined.

Lemma queued_session_start_runs_once_witness :
  let r1 := EbInit.ebProcessQueued 10 setup pageQueued in
  let r2 := EbInit.ebProcessQueued 20 (fst (fst r1)) (snd (fst r1)) in
  ebSession (snd (fst r1)) = Some (SessionAverager.begin 10) /\
  sessionStartQueued (snd (fst r1)) = false /\
  ebSession (snd (fst r2)) = Some (SessionAverager.begin 10) /\
  sessionStartQueued (snd (fst r2)) = false.
Proof.
  apply (queued_session_start_runs_once 10 20 setup pageQueued SessionAverager.reset);
    reflexivity.
Defined.

Lemma arms_boost_falls_with_velocity_witness :
  let lw := Point.mk 410 320 in
  let rw := Point.mk 230 320 in
  let ls := Point.mk 380 180 in
  let rs := Point.mk 260 180 in
  let v := fst (regionVelocity (M := QMath) env0 frameA (partsOf ArmsHands)
                  (prevByPart started)) in
  let wristSpread :=
    dist (M := QMath) (Point.x lw) (Point.y lw) (Point.x rw) (Point.y rw)
    / Qmax (dist (M := QMath) (Point.x ls) (Point.y ls) (Point.x rs) (Point.y rs)) 1e-6 in
  let boost := constrain ((0.035 - v) * 200) 0 5 * 0.5 in
  (exists s' base now,
     coupleArmsHands (M := QMath) env0 frameA started = Some s' /\
     to05 wristSpread TUNE.coupling.armsHands.wristSpreadMin
       TUNE.coupling.armsHands.wristSpreadMax = Some base /\
     regionSliders s' !! "armsHands"%string = Some now /\
     now == lerp 0 (constrain (base + boost) 0 5) TUNE.coupling.armsHands.lerp) /\
  (v <= 0.010 -> boost == 2.5) /\
  (0.035 <= v -> boost == 0) /\
  (0.010 <= v <= 0.035 -> boost == (0.035 - v) * 100).
Proof.
  apply (arms_boost_falls_with_velocity (M := QMath) env0 frameA started 0
           (Point.mk 410 320) (Point.mk 230 320) (Point.mk 380 180) (Point.mk 260 180));
    reflexivity.
Defined.

Lemma tracking_alone_never_starts_the_session_witness :
  exists s pg log,
    pageRun (M := QMath) pageSession1 (setup, setupPage true) = Some (s, pg, log) /\
    ebSession pg = ebSession (setupPage true) /\
    onPrintAverageThenSnapshot 800 s pg = (s, pg, None).
Proof.
  destruct (pageRun (M := QMath) pageSession1 (setup, setupPage true))
    as [[[s pg] log]|] eqn:E.
  - exists s, pg, log. split; [reflexivity|].
    apply (tracking_alone_never_starts_the_session (M := QMath) pageSession1 setup s
             (setupPage true) pg log 800); [|exact E].
    split; [reflexivity|]. intros sess [= <-]. reflexivity.
  - vm_compute in E. discriminate E.
Defined.

Lemma well_formed_runs_complete_witness :
  exists s, run (M := QMath) session1 setup = Some s /\ slidersPresent s.
Proof.
  apply (well_formed_runs_complete (M := QMath) session1 setup).
  - vm_compute. discriminate.
  - assert (Hwf : forall pose,
              leftShoulder pose = Some (Point.mk 380 180) \/
              leftShoulder pose = Some (Point.mk 383 184) ->
              rightShoulder pose = Some (Point.mk 260 180) ->
              leftHip pose = Some (Point.mk 360 340) ->
              rightHip pose = Some (Point.mk 280 340) ->
              (get pose "leftShoulder" = leftShoulder pose) ->
              (get pose "rightShoulder" = rightShoulder pose) ->
              forall env, ~ height env == 0 -> wellFormedEvent (M := QMath) (EvPose env pose)).
    { intros pose Hl Hr Hlh Hrh Gl Gr env Hh. split; [|split; [|exact Hh]].
      - destruct Hl as [Hl|Hl]; eexists _, _, _, _;
          (split; [exact Hl|]); (split; [exact Hr|]); (split; [exact Hlh|]);
          (split; [exact Hrh|]); vm_compute; discriminate.
      - intros ls rs. rewrite Gl, Gr, Hr.
        destruct Hl as [-> | ->]; intros [= <-] [= <-]; vm_compute; discriminate. }
    unfold session1.
    repeat (apply List.Forall_cons; [try exact I|]); [| |apply List.Forall_nil].
    + apply Hwf; try reflexivity; [left; reflexivity | vm_compute; discriminate].
    + apply Hwf; try reflexivity; [right; reflexivity | vm_compute; discriminate].
  - split; [|split].
    + intros k Hk. apply list_elem_of_In in Hk. simpl in Hk.
      repeat (destruct Hk as [<-|Hk]; [vm_compute; eauto|]). contradiction.
    + intros b. destruct b; vm_compute; eauto.
    + intros v Hv. discriminate Hv.
Defined.

Lemma coincident_shoulders_saturate_structure_witness :
  structureOf (M := QMath) frameFlat = None /\
  structureJS (M := QMath) frameFlat = Fin 1 /\
  structureJS (M := QMath) frameKnot = NaN.
Proof.
  split; [|split].
  - apply (proj2 (coincident_shoulders_saturate_structure (M := QMath) frameFlat)
             (Point.mk 300 180) (Point.mk 410 320) (Point.mk 230 320)); reflexivity.
  - apply (proj2 (coincident_shoulders_saturate_structure (M := QMath) frameFlat)
             (Point.mk 300 180) (Point.mk 410 320) (Point.mk 230 320));
      reflexivity.
  - apply (proj2 (coincident_shoulders_saturate_structure (M := QMath) frameKnot)
             (Point.mk 300 180) (Point.mk 300 180) (Point.mk 230 320));
      try reflexivity.
    left. reflexivity.
Defined.

Lemma sampler_session_means_witness :
  let sess := feed (sampledFrom readingsNaN) (SessionAverager.begin 0) in
  SessionAverager.samples sess = 3%nat /\
  OnlineMean.n (SessionAverager.structure sess) = 2%nat /\
  OnlineMean.mean (SessionAverager.structure sess) == 0.6.
Proof.
  cbv zeta.
  destruct (sampler_session_means 0 readingsNaN) as (_ & Hs & (Hn & Hm & _) & _).
  split; [exact Hs|]. split; [exact Hn|]. rewrite Hm. reflexivity.
Defined.

